(** * TeamSync: authorization and hybrid authentication core

  A shallow embedding of the server-side authorization code of TeamSync
  (role guard, member service, JWT helpers, authentication middleware,
  login and logout controllers) together with the properties the
  specification states about it.

  Conventions of the embedding:
  - a function that may [throw] returns a [result]; the exception classes
    of [utils/app-error.ts] and of the libraries are the constructors of
    [Exception];
  - Mongo collections are lists of documents in insertion order
    ([findOne] returns the first match, duplicates are representable); a
    string is a sequence of code units below 256, on which the schema
    setters [trim] and [lowercase] are spelled out; the store answers every
    operation, and refuses a write by validation or by a unique index (where
    a service writes several documents outside a transaction, a write that
    the store fails for another reason is an input of the service);
  - the HTTP response is the list of header operations and the status
    and body written to it. *)

From Stdlib Require Import ZArith NArith Bool List Ascii.
From stdpp Require Import base option strings list gmap.

Open Scope string_scope.
Open Scope list_scope.

(** ** Exceptions and results *)

Module AppError.

(** The classes that reach a [catch] in the modelled code. The first three
    are subclasses of [AppError] (utils/app-error.ts); the JWT errors are
    the ones [jsonwebtoken] raises; [TypeError] and [MongoServerError] are
    runtime and driver errors; [ValidationError] and [StrictPopulateError]
    are the ones Mongoose raises for a document that fails its schema and
    for a [populate] of a path the schema does not declare. *)
Inductive Exception : Type :=
| NotFoundException (message : string)
| BadRequestException (message : string)
| UnauthorizedException (message : string)
| JsonWebTokenError (message : string)
| TokenExpiredError (message : string)
| NotBeforeError (message : string)
| TypeError (message : string)
| MongoServerError (message : string)
| PlainError (message : string)
| ValidationError (message : string)
| StrictPopulateError (message : string).

Definition HTTP_OK : N := 200.
Definition HTTP_BAD_REQUEST : N := 400.
Definition HTTP_UNAUTHORIZED : N := 401.
Definition HTTP_NOT_FOUND : N := 404.
Definition HTTP_INTERNAL_SERVER_ERROR : N := 500.

(** [statusCode] as set by the constructors of the [AppError] subclasses;
    an error that is not an [AppError] carries none. *)
Definition statusCode (e : Exception) : option N :=
  match e with
  | NotFoundException _ => Some HTTP_NOT_FOUND
  | BadRequestException _ => Some HTTP_BAD_REQUEST
  | UnauthorizedException _ => Some HTTP_UNAUTHORIZED
  | _ => None
  end.

(** [error instanceof UnauthorizedException] *)
Definition instanceof_Unauthorized (e : Exception) : bool :=
  match e with
  | UnauthorizedException _ => true
  | _ => false
  end.

(** [error instanceof NotFoundException] *)
Definition instanceof_NotFound (e : Exception) : bool :=
  match e with
  | NotFoundException _ => true
  | _ => false
  end.

Inductive result (A : Type) : Type :=
| Ok (a : A)
| Throw (e : Exception).
Arguments Ok {A} a.
Arguments Throw {A} e.

Definition bind {A B} (r : result A) (k : A → result B) : result B :=
  match r with
  | Ok a => k a
  | Throw e => Throw e
  end.

Definition is_ok {A} (r : result A) : bool :=
  match r with Ok _ => true | Throw _ => false end.

Definition thrown {A} (r : result A) : option Exception :=
  match r with Ok _ => None | Throw e => Some e end.

Definition thrown_or {A} (r : result A) : option A :=
  match r with Ok a => Some a | Throw _ => None end.

(** [error.message] *)
Definition message_of (e : Exception) : string :=
  match e with
  | NotFoundException m | BadRequestException m | UnauthorizedException m
  | JsonWebTokenError m | TokenExpiredError m | NotBeforeError m
  | TypeError m | MongoServerError m | PlainError m
  | ValidationError m | StrictPopulateError m => m
  end.

End AppError.
Export AppError.

Notation "'let!' x ':=' r 'in' k" := (AppError.bind r (λ x, k))
  (at level 10, x name, r at level 100, k at level 200, only parsing).

(** ** utils/role-guard.ts *)

Module RoleGuard.
Section RoleGuard.

(** [PermissionType] is the string-literal union of enums/role.enum.ts and
    [RolePermissions] the table of utils/role-permission.ts; both are
    parameters here. A role name that is not a key of the table reads as
    [undefined], which is [None]. *)
Context {PermissionType : Type} `{EqDecision PermissionType}.
Variable RolePermissions : gmap string (list PermissionType).

(** [permissions.includes(permission)] *)
Fixpoint includes (permissions : list PermissionType)
    (permission : PermissionType) : bool :=
  match permissions with
  | [] => false
  | q :: rest => bool_decide (q = permission) || includes rest permission
  end.

(** [requiredPermissions.every(p => permissions.includes(p))]: the callback
    runs left to right and stops at the first [false]; on an [undefined]
    table entry the first call of the callback raises a [TypeError], and
    an empty list never calls it. *)
Fixpoint every_includes (permissions : option (list PermissionType))
    (requiredPermissions : list PermissionType) : result bool :=
  match requiredPermissions with
  | [] => Ok true
  | p :: rest =>
      match permissions with
      | None => Throw (TypeError "Cannot read properties of undefined")
      | Some ps =>
          if includes ps p then every_includes permissions rest
          else Ok false
      end
  end.

Definition roleGuard_message : string :=
  "You do not have the necessary permissions to perform this action".

Definition roleGuard (role : string)
    (requiredPermissions : list PermissionType) : result unit :=
  let permissions := RolePermissions !! role in
  let! hasPermission := every_includes permissions requiredPermissions in
  if negb hasPermission
  then Throw (UnauthorizedException roleGuard_message)
  else Ok tt.

Lemma includes_spec ps p : includes ps p = true ↔ p ∈ ps.
Proof.
  induction ps as [|q ps IH]; simpl.
  - split; [discriminate | intros H; inversion H].
  - rewrite orb_true_iff, bool_decide_eq_true, IH, elem_of_cons.
    split; intros [?|?]; auto.
Qed.

Lemma every_includes_true ps required :
  every_includes (Some ps) required = Ok true ↔ ∀ p, p ∈ required → p ∈ ps.
Proof.
  induction required as [|p rest IH]; simpl.
  - split; [intros _ p H; inversion H | done].
  - destruct (includes ps p) eqn:E.
    + rewrite IH. apply includes_spec in E. split.
      * intros H q Hq. apply elem_of_cons in Hq as [->|Hq]; auto.
      * intros H q Hq. apply H. by right.
    + split; [discriminate |].
      intros H. assert (p ∈ ps) as Hp by (apply H; by left).
      apply includes_spec in Hp. congruence.
Qed.

Lemma every_includes_total ps required :
  every_includes (Some ps) required = Ok true
  ∨ every_includes (Some ps) required = Ok false.
Proof.
  induction required as [|p rest IH]; simpl; [by left |].
  destruct (includes ps p); [done | by right].
Qed.

(** C4. Conjunctive permission guard: for a role that is a key of the
    permission table, [roleGuard] returns normally exactly when every
    required permission is in the role's list; a single missing permission
    makes it throw [UnauthorizedException]; and there is no third outcome.
    The guard reads nothing but the table, the role and the list. *)
Theorem roleGuard_conjunctive (role : string) (ps required : list PermissionType) :
  RolePermissions !! role = Some ps →
  (roleGuard role required = Ok tt ↔ ∀ p, p ∈ required → p ∈ ps)
  ∧ ((∃ p, p ∈ required ∧ p ∉ ps) →
     roleGuard role required = Throw (UnauthorizedException roleGuard_message))
  ∧ (roleGuard role required = Ok tt
     ∨ roleGuard role required = Throw (UnauthorizedException roleGuard_message)).
Proof.
  intros Hrole. unfold roleGuard. rewrite Hrole.
  pose proof (every_includes_true ps required) as Htrue.
  destruct (every_includes_total ps required) as [E|E]; rewrite E in *; simpl.
  - split; [| split].
    + split; [intros _; by apply Htrue | done].
    + intros (p & Hin & Hout). destruct Hout. apply Htrue; done.
    + by left.
  - split; [| split].
    + split; [discriminate |]. intros Hall. apply Htrue in Hall. discriminate.
    + done.
    + by right.
Qed.

End RoleGuard.

(** A two-role table to run the guard on: the owner may delete the
    workspace, the member may only view. *)
Definition sample_table : gmap string (list string) :=
  {[ "OWNER" := ["DELETE_WORKSPACE"; "EDIT_WORKSPACE"; "VIEW_ONLY"];
     "MEMBER" := ["VIEW_ONLY"] ]}.

Example roleGuard_owner_delete :
  roleGuard sample_table "OWNER" ["DELETE_WORKSPACE"] = Ok tt.
Proof. reflexivity. Qed.

Example roleGuard_member_delete :
  roleGuard sample_table "MEMBER" ["VIEW_ONLY"; "DELETE_WORKSPACE"]
  = Throw (UnauthorizedException roleGuard_message).
Proof. reflexivity. Qed.

Example roleGuard_unknown_role_empty :
  roleGuard sample_table "GUEST" [] = Ok tt.
Proof. reflexivity. Qed.

Example roleGuard_unknown_role :
  roleGuard sample_table "GUEST" ["VIEW_ONLY"]
  = Throw (TypeError "Cannot read properties of undefined").
Proof. reflexivity. Qed.

Lemma roleGuard_conjunctive_witness :
  sample_table !! "MEMBER" = Some ["VIEW_ONLY"]
  ∧ roleGuard sample_table "MEMBER" ["VIEW_ONLY"; "DELETE_WORKSPACE"]
    = Throw (UnauthorizedException roleGuard_message).
Proof.
  split; [reflexivity |].
  apply (roleGuard_conjunctive sample_table "MEMBER" ["VIEW_ONLY"]
           ["VIEW_ONLY"; "DELETE_WORKSPACE"]); [reflexivity |].
  exists "DELETE_WORKSPACE". split.
  - apply elem_of_cons; right. apply elem_of_cons; by left.
  - intros H. apply elem_of_cons in H as [H|H]; [discriminate | inversion H].
Defined.

End RoleGuard.

(** ** The document store *)

Module Store.

(** An [ObjectId] in its 24-digit string form. *)
Definition ObjectId := string.

(** *** The string setters of the schemas

    A character stands for a UTF-16 code unit below 256. On these,
    [String.prototype.trim] strips the white space and line terminators
    U+0009 to U+000D, U+0020 and U+00A0, and [toLowerCase] maps A to Z and
    the capital letters U+00C0 to U+00DE (but the sign U+00D7) to the letter
    32 places up. *)
Definition is_white_space (c : ascii) : bool :=
  let n := nat_of_ascii c in
  (Nat.leb 9 n && Nat.leb n 13) || Nat.eqb n 32 || Nat.eqb n 160.

Definition lower_case_char (c : ascii) : ascii :=
  let n := nat_of_ascii c in
  if (Nat.leb 65 n && Nat.leb n 90)
     || (Nat.leb 192 n && Nat.leb n 222 && negb (Nat.eqb n 215))
  then ascii_of_nat (n + 32)
  else c.

Fixpoint String_toLowerCase (s : string) : string :=
  match s with
  | EmptyString => EmptyString
  | String c rest => String (lower_case_char c) (String_toLowerCase rest)
  end.

Fixpoint String_trimStart (s : string) : string :=
  match s with
  | EmptyString => EmptyString
  | String c rest => if is_white_space c then String_trimStart rest else s
  end.

Fixpoint String_trimEnd (s : string) : string :=
  match s with
  | EmptyString => EmptyString
  | String c rest =>
      match String_trimEnd rest with
      | EmptyString => if is_white_space c then EmptyString else String c EmptyString
      | rest' => String c rest'
      end
  end.

Definition String_trim (s : string) : string :=
  String_trimEnd (String_trimStart s).

(** models/user.model.ts *)
Record UserDocument : Type := mkUser {
  user_id : ObjectId;
  user_email : string;
  user_name : string;
  user_password : option string;
  user_isActive : bool;
  user_currentWorkspace : option ObjectId;
}.

(** models/account.model.ts *)
Record AccountDocument : Type := mkAccount {
  account_id : ObjectId;
  account_userId : ObjectId;
  account_provider : string;
  account_providerId : string;
}.

(** models/workspace.model.ts *)
Record WorkspaceDocument : Type := mkWorkspace {
  ws_id : ObjectId;
  ws_name : string;
  ws_owner : ObjectId;
  ws_inviteCode : string;
}.

(** models/role.model.ts *)
Record RoleDocument : Type := mkRole {
  role_id : ObjectId;
  role_name : string;
  role_permissions : list string;
}.

(** models/member.model.ts: [userId], [workspaceId] and [role] are
    references; the schema declares no index over them. *)
Record MemberDocument : Type := mkMember {
  member_id : ObjectId;
  member_userId : ObjectId;
  member_workspaceId : ObjectId;
  member_role : ObjectId;
}.

Record Database : Type := mkDatabase {
  db_users : list UserDocument;
  db_accounts : list AccountDocument;
  db_workspaces : list WorkspaceDocument;
  db_roles : list RoleDocument;
  db_members : list MemberDocument;
}.

(** [Roles.OWNER] and [Roles.MEMBER] of enums/role.enum.ts, whose values
    are the role names the seeders use as keys. *)
Definition Roles_OWNER : string := "OWNER".
Definition Roles_MEMBER : string := "MEMBER".
Definition ProviderEnum_EMAIL : string := "EMAIL".

(** A service call: it reads and writes the store and may throw; what it
    wrote before throwing stays written unless a transaction undoes it. *)
Definition Svc (A : Type) : Type := Database → result A * Database.

Definition ret {A} (a : A) : Svc A := λ db, (Ok a, db).
Definition throw {A} (e : Exception) : Svc A := λ db, (Throw e, db).
Definition sbind {A B} (m : Svc A) (k : A → Svc B) : Svc B :=
  λ db, match m db with
        | (Ok a, db') => k a db'
        | (Throw e, db') => (Throw e, db')
        end.

(** [session.startTransaction() ... commitTransaction()] with
    [abortTransaction()] in the [catch]: a throw restores the store. *)
Definition transaction {A} (m : Svc A) : Svc A :=
  λ db, match m db with
        | (Ok a, db') => (Ok a, db')
        | (Throw e, _) => (Throw e, db)
        end.

Definition duplicate_key : Exception :=
  MongoServerError "E11000 duplicate key error".

(** What the store answers to a write for a reason that is not in its
    contents (a lost connection, say): [Some e] fails the write with [e]
    before anything is written. *)
Definition answered {A} (answer : option Exception) (m : Svc A) : Svc A :=
  match answer with
  | Some e => throw e
  | None => m
  end.

(** [required: true] on a string path: validation before a save fails when
    the value is the empty string. *)
Definition required_error (model path : string) : Exception :=
  ValidationError
    (String.append model
       (String.append " validation failed: "
          (String.append path
             (String.append ": Path `"
                (String.append path "` is required."))))).

Definition validate_required (model path value : string) : Svc unit :=
  if String.eqb value "" then throw (required_error model path) else ret tt.

(** Inserting a new document: the [_id] index and the indexes the schema
    declares [unique] reject a clash. [clash d] tells whether the stored
    document [d] collides with the new one. *)
Definition insert_unique {A} (clash : A → bool) (doc : A) (coll : list A)
    : result (list A) :=
  if existsb clash coll then Throw duplicate_key else Ok (coll ++ [doc]).

(** Saving a loaded document again replaces the stored one of that [_id]. *)
Definition replace_by_id {A} (id_of : A → ObjectId) (doc : A) (coll : list A)
    : list A :=
  map (λ d, if String.eqb (id_of d) (id_of doc) then doc else d) coll.

Definition set_users us db :=
  mkDatabase us (db_accounts db) (db_workspaces db) (db_roles db) (db_members db).
Definition set_accounts acs db :=
  mkDatabase (db_users db) acs (db_workspaces db) (db_roles db) (db_members db).
Definition set_workspaces ws db :=
  mkDatabase (db_users db) (db_accounts db) ws (db_roles db) (db_members db).
Definition set_members ms db :=
  mkDatabase (db_users db) (db_accounts db) (db_workspaces db) (db_roles db) ms.

(** *** Queries used by the services *)

Definition UserModel_findById (id : ObjectId) : Svc (option UserDocument) :=
  λ db, (Ok (find (λ u, String.eqb (user_id u) id) (db_users db)), db).

(** The setters of [userSchema.email]: [trim] and [lowercase]. The order in
    which the two run makes no difference, see [userSchema_email_commutes]. *)
Definition userSchema_email (email : string) : string :=
  String_trim (String_toLowerCase email).

(** [UserModel.findOne({ email })]: the filter is cast through the schema,
    setters included, before it is compared. *)
Definition UserModel_findOne_email (email : string) : Svc (option UserDocument) :=
  λ db, (Ok (find (λ u, String.eqb (user_email u) (userSchema_email email))
               (db_users db)), db).

Definition WorkspaceModel_findById (id : ObjectId)
    : Svc (option WorkspaceDocument) :=
  λ db, (Ok (find (λ w, String.eqb (ws_id w) id) (db_workspaces db)), db).

Definition WorkspaceModel_findOne_inviteCode (inviteCode : string)
    : Svc (option WorkspaceDocument) :=
  λ db, (Ok (find (λ w, String.eqb (ws_inviteCode w) inviteCode)
               (db_workspaces db)), db).

(** [AccountModel.findOne({ provider, providerId })] *)
Definition AccountModel_findOne (provider providerId : string)
    : Svc (option AccountDocument) :=
  λ db, (Ok (find (λ a, String.eqb (account_provider a) provider
                        && String.eqb (account_providerId a) providerId)
               (db_accounts db)), db).

Definition RoleModel_findById (id : ObjectId) : Svc (option RoleDocument) :=
  λ db, (Ok (find (λ r, String.eqb (role_id r) id) (db_roles db)), db).

Definition RoleModel_findOne_name (name : string) : Svc (option RoleDocument) :=
  λ db, (Ok (find (λ r, String.eqb (role_name r) name) (db_roles db)), db).

Definition is_member_of (userId workspaceId : ObjectId) (m : MemberDocument)
    : bool :=
  String.eqb (member_userId m) userId
  && String.eqb (member_workspaceId m) workspaceId.

Definition MemberModel_findOne (userId workspaceId : ObjectId)
    : Svc (option MemberDocument) :=
  λ db, (Ok (find (is_member_of userId workspaceId) (db_members db)), db).

(** [MemberModel.findOne({ userId })] *)
Definition MemberModel_findOne_user (userId : ObjectId)
    : Svc (option MemberDocument) :=
  λ db, (Ok (find (λ m, String.eqb (member_userId m) userId)
               (db_members db)), db).

(** [.populate("role")]: the referenced role document, or [null]. *)
Definition populate_role (m : MemberDocument) : Svc (option RoleDocument) :=
  RoleModel_findById (member_role m).

(** *** Writes *)

(** [new UserModel({ email, name, password })]: the setters run when the
    fields are set; [isActive] takes its default. *)
Definition UserModel_new (id : ObjectId) (email name : string)
    (password : option string) : UserDocument :=
  mkUser id (userSchema_email email) (String_trim name) password true None.

(** [new WorkspaceModel({ name, owner })] with the invite code it draws. *)
Definition WorkspaceModel_new (id : ObjectId) (name : string) (owner : ObjectId)
    (inviteCode : string) : WorkspaceDocument :=
  mkWorkspace id (String_trim name) owner inviteCode.

(** The first [save()] of a new document validates it and inserts it. *)
Definition UserModel_insert (u : UserDocument) : Svc unit :=
  sbind (validate_required "User" "email" (user_email u)) (λ _,
  λ db, match insert_unique
                (λ d, String.eqb (user_id d) (user_id u)
                      || String.eqb (user_email d) (user_email u))
                u (db_users db) with
        | Ok c => (Ok tt, set_users c db)
        | Throw e => (Throw e, db)
        end).

(** A later [save()] of a document that was loaded from the store. *)
Definition UserModel_save (u : UserDocument) : Svc unit :=
  λ db, (Ok tt, set_users (replace_by_id user_id u (db_users db)) db).

(** The [enum] of [provider] is in enums/account-provider.enum.ts, which is
    not part of these sources; the services pass its members. *)
Definition AccountModel_insert (a : AccountDocument) : Svc unit :=
  sbind (validate_required "Account" "provider" (account_provider a)) (λ _,
  sbind (validate_required "Account" "providerId" (account_providerId a)) (λ _,
  λ db, match insert_unique
                (λ d, String.eqb (account_id d) (account_id a)
                      || String.eqb (account_providerId d) (account_providerId a))
                a (db_accounts db) with
        | Ok c => (Ok tt, set_accounts c db)
        | Throw e => (Throw e, db)
        end)).

Definition WorkspaceModel_insert (w : WorkspaceDocument) : Svc unit :=
  sbind (validate_required "Workspace" "name" (ws_name w)) (λ _,
  λ db, match insert_unique
                (λ d, String.eqb (ws_id d) (ws_id w)
                      || String.eqb (ws_inviteCode d) (ws_inviteCode w))
                w (db_workspaces db) with
        | Ok c => (Ok tt, set_workspaces c db)
        | Throw e => (Throw e, db)
        end).

(** Only the [_id] index guards the members collection. *)
Definition MemberModel_insert (m : MemberDocument) : Svc unit :=
  λ db, match insert_unique (λ d, String.eqb (member_id d) (member_id m))
                m (db_members db) with
        | Ok c => (Ok tt, set_members c db)
        | Throw e => (Throw e, db)
        end.

Definition MemberModel_save (m : MemberDocument) : Svc unit :=
  λ db, (Ok tt, set_members (replace_by_id member_id m (db_members db)) db).

(** [MemberModel.deleteMany({ workspaceId })] *)
Definition MemberModel_deleteMany_workspace (workspaceId : ObjectId) : Svc unit :=
  λ db, (Ok tt,
         set_members
           (filter (λ m, member_workspaceId m ≠ workspaceId) (db_members db)) db).

(** [workspace.deleteOne()] *)
Definition WorkspaceModel_deleteOne (w : WorkspaceDocument) : Svc unit :=
  λ db, (Ok tt,
         set_workspaces
           (filter (λ d, ws_id d ≠ ws_id w) (db_workspaces db)) db).

End Store.
Export Store.

Notation "'do!' x ':=' m 'in' k" := (Store.sbind m (λ x, k))
  (at level 10, x name, m at level 100, k at level 200, only parsing).
Notation "m '>>!' k" := (Store.sbind m (λ _, k))
  (at level 100, k at level 200, right associativity, only parsing).

(** ** services/member.service.ts *)

Module MemberService.

(** The result is the [role] field of the returned object: the name of the
    populated role, [undefined] when the reference dangles. *)
Definition getMemberRoleInWorkspace (userId workspaceId : ObjectId)
    : Svc (option string) :=
  do! workspace := WorkspaceModel_findById workspaceId in
  match workspace with
  | None => throw (NotFoundException "Workspace not found")
  | Some _ =>
      do! member := MemberModel_findOne userId workspaceId in
      match member with
      | None =>
          throw (UnauthorizedException "You are not a member of this workspace")
      | Some m =>
          do! role := populate_role m in
          let roleName := role_name <$> role in
          ret roleName
      end
  end.

(** [newId] is the [_id] that [new MemberModel(...)] draws for the document.
    The result is the pair [(workspaceId, role)]. *)
Definition joinWorkspaceByInviteService (newId : ObjectId)
    (userId : ObjectId) (inviteCode : string) : Svc (ObjectId * string) :=
  do! workspace := WorkspaceModel_findOne_inviteCode inviteCode in
  match workspace with
  | None => throw (NotFoundException "Invalid invite code or workspace not found")
  | Some workspace =>
      do! existingMember := MemberModel_findOne userId (ws_id workspace) in
      match existingMember with
      | Some _ =>
          throw (BadRequestException "You are already a member of this workspace")
      | None =>
          do! role := RoleModel_findOne_name Roles_MEMBER in
          match role with
          | None => throw (NotFoundException "Role not found")
          | Some role =>
              let newMember :=
                mkMember newId userId (ws_id workspace) (role_id role) in
              MemberModel_insert newMember >>!
              ret (ws_id workspace, role_name role)
          end
      end
  end.

End MemberService.
Export MemberService.

(** ** services/workspace.service.ts *)

Module WorkspaceService.

(** The identifiers and the invite code that the new documents draw. *)
Record Fresh : Type := mkFresh {
  fresh_user : ObjectId;
  fresh_account : ObjectId;
  fresh_workspace : ObjectId;
  fresh_member : ObjectId;
  fresh_inviteCode : string;
}.

(** What the store answers to the three saves of [createWorkspaceService],
    which run one after another outside any transaction. *)
Record Answers : Type := mkAnswers {
  workspace_save : option Exception;
  member_save : option Exception;
  user_save : option Exception;
}.

Definition all_saved : Answers := mkAnswers None None None.

Definition createWorkspaceService (fr : Fresh) (answers : Answers)
    (userId : ObjectId) (name : string) : Svc WorkspaceDocument :=
  do! user := UserModel_findById userId in
  match user with
  | None => throw (NotFoundException "User not found")
  | Some user =>
      do! ownerRole := RoleModel_findOne_name Roles_OWNER in
      match ownerRole with
      | None => throw (NotFoundException "Owner role not found")
      | Some ownerRole =>
          let workspace :=
            WorkspaceModel_new (fresh_workspace fr) name (user_id user)
              (fresh_inviteCode fr) in
          answered (workspace_save answers) (WorkspaceModel_insert workspace) >>!
          let member :=
            mkMember (fresh_member fr) (user_id user) (ws_id workspace)
              (role_id ownerRole) in
          answered (member_save answers) (MemberModel_insert member) >>!
          let user' :=
            mkUser (user_id user) (user_email user) (user_name user)
              (user_password user) (user_isActive user)
              (Some (ws_id workspace)) in
          answered (user_save answers) (UserModel_save user') >>!
          ret workspace
      end
  end.

Definition changeMemberRoleService (workspaceId memberId roleId : ObjectId)
    : Svc MemberDocument :=
  do! workspace := WorkspaceModel_findById workspaceId in
  match workspace with
  | None => throw (NotFoundException "Workspace not found")
  | Some _ =>
      do! role := RoleModel_findById roleId in
      match role with
      | None => throw (NotFoundException "Role not found")
      | Some role =>
          do! member := MemberModel_findOne memberId workspaceId in
          match member with
          | None => throw (PlainError "Member not found in the workspace")
          | Some member =>
              let member' :=
                mkMember (member_id member) (member_userId member)
                  (member_workspaceId member) (role_id role) in
              MemberModel_save member' >>!
              ret member'
          end
      end
  end.

(** The projects and tasks of the workspace are deleted too; they are not
    part of this store. The result is the user's new current workspace. *)
Definition deleteWorkspaceService (workspaceId userId : ObjectId)
    : Svc (option ObjectId) :=
  transaction (
    do! workspace := WorkspaceModel_findById workspaceId in
    match workspace with
    | None => throw (NotFoundException "Workspace not found")
    | Some workspace =>
        if negb (String.eqb (ws_owner workspace) userId)
        then throw (BadRequestException
                      "You are not authorized to delete this workspace")
        else
          do! user := UserModel_findById userId in
          match user with
          | None => throw (NotFoundException "User not found")
          | Some user =>
              MemberModel_deleteMany_workspace (ws_id workspace) >>!
              do! current :=
                (if bool_decide (user_currentWorkspace user = Some workspaceId)
                 then
                   do! memberWorkspace := MemberModel_findOne_user userId in
                   let current := member_workspaceId <$> memberWorkspace in
                   UserModel_save
                     (mkUser (user_id user) (user_email user) (user_name user)
                        (user_password user) (user_isActive user) current) >>!
                   ret current
                 else ret (user_currentWorkspace user)) in
              WorkspaceModel_deleteOne workspace >>!
              ret current
          end
    end).

End WorkspaceService.
Export WorkspaceService.

(** ** services/auth.service.ts *)

Module AuthService.

(** The part both sign-up paths share: a first workspace for the new user,
    the user as its owner, and the workspace as the user's current one. *)
Definition create_first_workspace (fr : Fresh) (user : UserDocument)
    : Svc WorkspaceDocument :=
  let workspace :=
    WorkspaceModel_new (fresh_workspace fr) "My Workspace" (user_id user)
      (fresh_inviteCode fr) in
  WorkspaceModel_insert workspace >>!
  do! ownerRole := RoleModel_findOne_name Roles_OWNER in
  match ownerRole with
  | None => throw (NotFoundException "Owner role not found")
  | Some ownerRole =>
      let member :=
        mkMember (fresh_member fr) (user_id user) (ws_id workspace)
          (role_id ownerRole) in
      MemberModel_insert member >>!
      UserModel_save
        (mkUser (user_id user) (user_email user) (user_name user)
           (user_password user) (user_isActive user)
           (Some (ws_id workspace))) >>!
      ret workspace
  end.

(** The result is the pair [(userId, workspaceId)]. [hashed] is the value
    the pre-save hook stores for the password. *)
Definition registerUserService (fr : Fresh) (email name hashed : string)
    : Svc (ObjectId * ObjectId) :=
  transaction (
    do! existingUser := UserModel_findOne_email email in
    match existingUser with
    | Some _ => throw (BadRequestException "Email already exists")
    | None =>
        let user := UserModel_new (fresh_user fr) email name (Some hashed) in
        UserModel_insert user >>!
        AccountModel_insert
          (mkAccount (fresh_account fr) (user_id user) ProviderEnum_EMAIL email) >>!
        do! workspace := create_first_workspace fr user in
        ret (user_id user, ws_id workspace)
    end).

Definition loginOrCreateAccountService (fr : Fresh)
    (provider displayName providerId email : string) : Svc UserDocument :=
  transaction (
    do! user := UserModel_findOne_email email in
    match user with
    | Some user => ret user
    | None =>
        let user := UserModel_new (fresh_user fr) email displayName None in
        UserModel_insert user >>!
        AccountModel_insert
          (mkAccount (fresh_account fr) (user_id user) provider providerId) >>!
        do! workspace := create_first_workspace fr user in
        ret (mkUser (user_id user) (user_email user) (user_name user)
               (user_password user) (user_isActive user)
               (Some (ws_id workspace)))
    end).

(** [user.omitPassword()] *)
Definition omitPassword (user : UserDocument) : UserDocument :=
  mkUser (user_id user) (user_email user) (user_name user) None
    (user_isActive user) (user_currentWorkspace user).

(** [compareValue] of utils/bcrypt.ts is the parameter: it tells whether a
    plain password matches the stored hash. *)
Definition verifyUserService (compareValue : string → option string → bool)
    (email password : string) : Svc UserDocument :=
  do! account := AccountModel_findOne ProviderEnum_EMAIL email in
  match account with
  | None => throw (NotFoundException "Invalid email or password")
  | Some account =>
      do! user := UserModel_findById (account_userId account) in
      match user with
      | None => throw (NotFoundException "User not found for the given account")
      | Some user =>
          let isMatch := compareValue password (user_password user) in
          if negb isMatch
          then throw (UnauthorizedException "Invalid email or password")
          else ret (omitPassword user)
      end
  end.

End AuthService.
Export AuthService.

(** ** The membership relation and the requests that change it *)

Module Membership.

Definition member_key (m : MemberDocument) : ObjectId * ObjectId :=
  (member_userId m, member_workspaceId m).

(** No membership row for the pair (identity, workspace). *)
Definition no_membership (db : Database) (userId workspaceId : ObjectId) : Prop :=
  (userId, workspaceId) ∉ member_key <$> db_members db.

Definition workspace_exists (db : Database) (workspaceId : ObjectId) : Prop :=
  ∃ w, w ∈ db_workspaces db ∧ ws_id w = workspaceId.

(** An identity holds at most one membership row per workspace. *)
Definition at_most_one_membership (db : Database) : Prop :=
  NoDup (member_key <$> db_members db).

(** What the proof of the invariant carries along: member rows have
    distinct [_id]s and point to stored workspaces. *)
Definition member_ids_distinct (db : Database) : Prop :=
  NoDup (member_id <$> db_members db).

Definition members_reference_workspaces (db : Database) : Prop :=
  ∀ m, m ∈ db_members db → workspace_exists db (member_workspaceId m).

Record consistent (db : Database) : Prop := mkConsistent {
  cons_one : at_most_one_membership db;
  cons_ids : member_ids_distinct db;
  cons_ref : members_reference_workspaces db;
}.

(** The service calls that write the members collection. *)
Inductive ServiceCall : Type :=
| JoinWorkspace (newId userId : ObjectId) (inviteCode : string)
| CreateWorkspace (fr : Fresh) (answers : Answers) (userId : ObjectId)
    (name : string)
| ChangeMemberRole (workspaceId memberId roleId : ObjectId)
| DeleteWorkspace (workspaceId userId : ObjectId)
| RegisterUser (fr : Fresh) (email name hashed : string)
| LoginOrCreateAccount (fr : Fresh) (provider displayName providerId email : string).

(** The store a request leaves behind, whether it returned or threw. *)
Definition handle (r : ServiceCall) (db : Database) : Database :=
  match r with
  | JoinWorkspace newId userId inviteCode =>
      snd (joinWorkspaceByInviteService newId userId inviteCode db)
  | CreateWorkspace fr answers userId name =>
      snd (createWorkspaceService fr answers userId name db)
  | ChangeMemberRole workspaceId memberId roleId =>
      snd (changeMemberRoleService workspaceId memberId roleId db)
  | DeleteWorkspace workspaceId userId =>
      snd (deleteWorkspaceService workspaceId userId db)
  | RegisterUser fr email name hashed =>
      snd (registerUserService fr email name hashed db)
  | LoginOrCreateAccount fr provider displayName providerId email =>
      snd (loginOrCreateAccountService fr provider displayName providerId email db)
  end.

(** Calls that run one after another: each has ended, by returning or by
    throwing, before the next starts. What two calls leave whose awaits
    interleave is not a [run]; see [overlapping_joins]. *)
Fixpoint run (rs : list ServiceCall) (db : Database) : Database :=
  match rs with
  | [] => db
  | r :: rest => run rest (handle r db)
  end.

(** A fresh deployment: only the roles are seeded. *)
Definition initial (roles : list RoleDocument) : Database :=
  mkDatabase [] [] [] roles [].

(** *** Facts about the schema setters *)

Lemma lower_case_char_white_space c :
  is_white_space (lower_case_char c) = is_white_space c.
Proof. by destruct c as [[] [] [] [] [] [] [] []]. Qed.

Lemma lower_case_char_idempotent c :
  lower_case_char (lower_case_char c) = lower_case_char c.
Proof. by destruct c as [[] [] [] [] [] [] [] []]. Qed.

Lemma toLowerCase_trimStart s :
  String_toLowerCase (String_trimStart s) = String_trimStart (String_toLowerCase s).
Proof.
  induction s as [|c s IH]; simpl; [done |].
  rewrite lower_case_char_white_space. by destruct (is_white_space c).
Qed.

Lemma toLowerCase_trimEnd s :
  String_toLowerCase (String_trimEnd s) = String_trimEnd (String_toLowerCase s).
Proof.
  induction s as [|c s IH]; simpl; [done |].
  rewrite <- IH, lower_case_char_white_space.
  destruct (String_trimEnd s) as [|d t]; simpl; [| done].
  by destruct (is_white_space c).
Qed.

Lemma userSchema_email_commutes email :
  String_trim (String_toLowerCase email) = String_toLowerCase (String_trim email).
Proof.
  unfold String_trim. by rewrite toLowerCase_trimEnd, toLowerCase_trimStart.
Qed.

Lemma toLowerCase_idempotent s :
  String_toLowerCase (String_toLowerCase s) = String_toLowerCase s.
Proof.
  induction s as [|c s IH]; simpl; [done |].
  by rewrite lower_case_char_idempotent, IH.
Qed.

Lemma trimEnd_idempotent s : String_trimEnd (String_trimEnd s) = String_trimEnd s.
Proof.
  induction s as [|c s IH]; simpl; [done |].
  destruct (String_trimEnd s) as [|d t] eqn:E.
  - destruct (is_white_space c) eqn:Ec; simpl; [done |]. by rewrite Ec.
  - simpl in *. by rewrite IH.
Qed.

(** A string that does not start with white space. *)
Definition starts_clean (s : string) : Prop :=
  match s with
  | EmptyString => True
  | String c _ => is_white_space c = false
  end.

Lemma trimStart_clean s : starts_clean (String_trimStart s).
Proof.
  induction s as [|c s IH]; simpl; [done |].
  destruct (is_white_space c) eqn:E; [done | by simpl].
Qed.

Lemma trimStart_of_clean s : starts_clean s → String_trimStart s = s.
Proof. destruct s as [|c s]; simpl; [done |]. by intros ->. Qed.

Lemma trimEnd_clean s : starts_clean s → starts_clean (String_trimEnd s).
Proof.
  destruct s as [|c s]; simpl; [done |]. intros Hc.
  destruct (String_trimEnd s); simpl; [by rewrite Hc | done].
Qed.

Lemma trim_idempotent s : String_trim (String_trim s) = String_trim s.
Proof.
  unfold String_trim.
  rewrite (trimStart_of_clean (String_trimEnd (String_trimStart s))).
  - apply trimEnd_idempotent.
  - apply trimEnd_clean, trimStart_clean.
Qed.

Lemma userSchema_email_idempotent email :
  userSchema_email (userSchema_email email) = userSchema_email email.
Proof.
  unfold userSchema_email.
  rewrite (userSchema_email_commutes email), toLowerCase_idempotent.
  by rewrite (userSchema_email_commutes (String_trim email)), trim_idempotent.
Qed.

Example email_setters :
  userSchema_email "  Alice@Example.COM " = "alice@example.com".
Proof. reflexivity. Qed.

(** *** Facts about the collection primitives *)

Lemma find_Some_elem {A} (f : A → bool) (l : list A) (x : A) :
  find f l = Some x → x ∈ l ∧ f x = true.
Proof.
  intros H. apply find_some in H as [Hin Hf].
  split; [by apply list_elem_of_In | done].
Qed.

Lemma find_None_elem {A} (f : A → bool) (l : list A) :
  find f l = None → ∀ x, x ∈ l → f x = false.
Proof.
  intros H x Hin. apply (find_none f l H). by apply list_elem_of_In.
Qed.

Lemma find_is_Some {A} (f : A → bool) (l : list A) (x : A) :
  x ∈ l → f x = true → is_Some (find f l).
Proof.
  intros Hin Hf. destruct (find f l) eqn:E; [by eexists |].
  rewrite (find_None_elem f l E x Hin) in Hf. discriminate.
Qed.

Lemma is_member_of_true userId workspaceId m :
  is_member_of userId workspaceId m = true ↔ member_key m = (userId, workspaceId).
Proof.
  unfold is_member_of, member_key.
  rewrite andb_true_iff, !String.eqb_eq. split.
  - by intros [-> ->].
  - intros [= -> ->]. done.
Qed.

Lemma findOne_member_None userId workspaceId ms :
  find (is_member_of userId workspaceId) ms = None ↔
  (userId, workspaceId) ∉ member_key <$> ms.
Proof.
  split.
  - intros H Hin. apply list_elem_of_fmap in Hin as (m & Hk & Hm).
    pose proof (find_None_elem _ _ H m Hm) as Hf.
    symmetry in Hk. apply is_member_of_true in Hk. congruence.
  - intros Hout. destruct (find _ ms) eqn:E; [| done].
    apply find_Some_elem in E as [Hm Hf]. apply is_member_of_true in Hf.
    destruct Hout. apply list_elem_of_fmap. eauto.
Qed.

Lemma insert_unique_Ok {A} (clash : A → bool) (doc : A) (coll c : list A) :
  insert_unique clash doc coll = Ok c →
  c = coll ++ [doc] ∧ ∀ d, d ∈ coll → clash d = false.
Proof.
  unfold insert_unique. destruct (existsb clash coll) eqn:E; [discriminate |].
  intros [= <-]. split; [done |]. intros d Hd.
  destruct (clash d) eqn:Ed; [| done].
  assert (existsb clash coll = true) as Hex.
  { apply existsb_exists. exists d. split; [by apply list_elem_of_In | done]. }
  congruence.
Qed.

Lemma NoDup_fmap_snoc {A B} (f : A → B) (l : list A) (x : A) :
  NoDup (f <$> l) → f x ∉ f <$> l → NoDup (f <$> (l ++ [x])).
Proof.
  intros Hnd Hout. rewrite fmap_app. apply NoDup_app. split; [done |].
  split.
  - intros y Hy Hy'. apply list_elem_of_singleton in Hy'. by subst.
  - apply NoDup_singleton.
Qed.

Lemma NoDup_fmap_filter {A B} (f : A → B) (P : A → Prop)
    `{∀ x, Decision (P x)} (l : list A) :
  NoDup (f <$> l) → NoDup (f <$> filter P l).
Proof.
  induction l as [|x l IH]; simpl; [done |].
  intros Hnd. apply NoDup_cons in Hnd as [Hx Hnd].
  rewrite filter_cons. destruct (decide (P x)); [| by apply IH].
  simpl. apply NoDup_cons. split; [| by apply IH].
  intros Hin. apply Hx. apply list_elem_of_fmap in Hin as (y & -> & Hy).
  apply list_elem_of_filter in Hy as [_ Hy]. apply list_elem_of_fmap. eauto.
Qed.

Lemma NoDup_fmap_inj_on {A B} (f : A → B) (l : list A) (x y : A) :
  NoDup (f <$> l) → x ∈ l → y ∈ l → f x = f y → x = y.
Proof.
  induction l as [|z l IH]; simpl; intros Hnd Hx Hy Hf.
  - inversion Hx.
  - apply NoDup_cons in Hnd as [Hz Hnd].
    apply elem_of_cons in Hx as [->|Hx]; apply elem_of_cons in Hy as [->|Hy].
    + done.
    + destruct Hz. rewrite Hf. apply list_elem_of_fmap. eauto.
    + destruct Hz. rewrite <- Hf. apply list_elem_of_fmap. eauto.
    + by apply IH.
Qed.

(** *** Each request keeps the store consistent *)

Lemma consistent_ext db db' :
  db_members db' = db_members db →
  db_workspaces db' = db_workspaces db →
  consistent db → consistent db'.
Proof.
  intros Hm Hw [H1 H2 H3]. split.
  - unfold at_most_one_membership. by rewrite Hm.
  - unfold member_ids_distinct. by rewrite Hm.
  - unfold members_reference_workspaces, workspace_exists. by rewrite Hm, Hw.
Qed.

Lemma consistent_add_workspace w db :
  consistent db → consistent (set_workspaces (db_workspaces db ++ [w]) db).
Proof.
  intros [H1 H2 H3]. split; [done | done |].
  intros m Hm. destruct (H3 m Hm) as (d & Hd & Hid).
  exists d. split; [| done]. simpl. apply elem_of_app. by left.
Qed.

Lemma consistent_add_member m db :
  consistent db →
  member_key m ∉ member_key <$> db_members db →
  (∀ d, d ∈ db_members db → String.eqb (member_id d) (member_id m) = false) →
  workspace_exists db (member_workspaceId m) →
  consistent (set_members (db_members db ++ [m]) db).
Proof.
  intros [H1 H2 H3] Hkey Hid Hws. split.
  - by apply NoDup_fmap_snoc.
  - apply NoDup_fmap_snoc; [done |]. intros Hin.
    apply list_elem_of_fmap in Hin as (d & Heq & Hd).
    specialize (Hid d Hd). rewrite Heq, String.eqb_refl in Hid. discriminate.
  - intros d Hd. simpl in Hd. apply elem_of_app in Hd as [Hd|Hd].
    + by apply H3.
    + apply list_elem_of_singleton in Hd. by subst.
Qed.

Lemma unreferenced_workspace db workspaceId userId :
  consistent db →
  (∀ d, d ∈ db_workspaces db → ws_id d ≠ workspaceId) →
  (userId, workspaceId) ∉ member_key <$> db_members db.
Proof.
  intros [_ _ H3] Hfresh Hin.
  apply list_elem_of_fmap in Hin as (m & Hk & Hm).
  destruct (H3 m Hm) as (d & Hd & Hid).
  apply (Hfresh d Hd). rewrite Hid. by inversion Hk.
Qed.

Lemma consistent_replace_member m m' db :
  consistent db →
  m ∈ db_members db →
  member_id m' = member_id m →
  member_key m' = member_key m →
  consistent (set_members (replace_by_id member_id m' (db_members db)) db).
Proof.
  intros Hc Hm Hid Hkey.
  assert (∀ d, d ∈ db_members db →
            member_key (if String.eqb (member_id d) (member_id m') then m' else d)
            = member_key d
            ∧ member_id (if String.eqb (member_id d) (member_id m') then m' else d)
              = member_id d) as Hsame.
  { intros d Hd. destruct (String.eqb _ _) eqn:E; [| done].
    apply String.eqb_eq in E. rewrite Hid in E.
    assert (d = m) as -> by (eapply NoDup_fmap_inj_on; eauto; apply Hc).
    done. }
  assert (member_key <$> replace_by_id member_id m' (db_members db)
          = member_key <$> db_members db) as Hkeys.
  { unfold replace_by_id. rewrite <- list_fmap_compose.
    apply list_fmap_ext. intros i d Hd. simpl.
    apply Hsame. eapply list_elem_of_lookup_2; eauto. }
  assert (member_id <$> replace_by_id member_id m' (db_members db)
          = member_id <$> db_members db) as Hids.
  { unfold replace_by_id. rewrite <- list_fmap_compose.
    apply list_fmap_ext. intros i d Hd. simpl.
    apply Hsame. eapply list_elem_of_lookup_2; eauto. }
  destruct Hc as [H1 H2 H3]. split.
  - unfold at_most_one_membership. simpl. by rewrite Hkeys.
  - unfold member_ids_distinct. simpl. by rewrite Hids.
  - intros d Hd. simpl in Hd. unfold replace_by_id in Hd.
    apply list_elem_of_fmap in Hd as (d0 & -> & Hd0).
    destruct (Hsame d0 Hd0) as [Hk _].
    assert (member_workspaceId
              (if String.eqb (member_id d0) (member_id m') then m' else d0)
            = member_workspaceId d0) as -> by (by inversion Hk).
    by apply H3.
Qed.

Lemma consistent_delete_workspace w db :
  consistent db →
  consistent
    (set_workspaces (filter (λ d, ws_id d ≠ ws_id w) (db_workspaces db))
       (set_members
          (filter (λ m, member_workspaceId m ≠ ws_id w) (db_members db)) db)).
Proof.
  intros [H1 H2 H3]. split.
  - by apply NoDup_fmap_filter.
  - by apply NoDup_fmap_filter.
  - intros m Hm. simpl in Hm. apply list_elem_of_filter in Hm as [Hne Hm].
    destruct (H3 m Hm) as (d & Hd & Hid). exists d. split; [| done].
    simpl. apply list_elem_of_filter. split; [congruence | done].
Qed.

Ltac svc_unfold :=
  unfold UserModel_findById, UserModel_findOne_email, WorkspaceModel_findById,
    WorkspaceModel_findOne_inviteCode, RoleModel_findById,
    RoleModel_findOne_name, MemberModel_findOne, MemberModel_findOne_user,
    populate_role, UserModel_insert, UserModel_save, AccountModel_insert,
    WorkspaceModel_insert, MemberModel_insert, MemberModel_save,
    MemberModel_deleteMany_workspace, WorkspaceModel_deleteOne,
    validate_required, UserModel_new, WorkspaceModel_new,
    sbind, ret, throw;
  simpl.

Lemma transaction_consistent {A} (m : Svc A) db :
  consistent db → consistent (snd (m db)) → consistent (snd (transaction m db)).
Proof.
  intros Hc Hm. unfold transaction. destruct (m db) as [[a|e] db']; done.
Qed.

Lemma join_consistent newId userId inviteCode db :
  consistent db →
  consistent (snd (joinWorkspaceByInviteService newId userId inviteCode db)).
Proof.
  intros Hc. unfold joinWorkspaceByInviteService. svc_unfold.
  destruct (find _ (db_workspaces db)) as [w|] eqn:Ew; simpl; [| done].
  destruct (find _ (db_members db)) as [m|] eqn:Em; simpl; [done |].
  destruct (find _ (db_roles db)) as [r|] eqn:Er; simpl; [| done].
  destruct (insert_unique _ _ _) as [c|e] eqn:Ei; simpl; [| done].
  apply insert_unique_Ok in Ei as [-> Hfresh].
  apply consistent_add_member; simpl; try done.
  - by apply findOne_member_None.
  - apply find_Some_elem in Ew as [Hw _]. by exists w.
Qed.

(** What a first save does: it throws and writes nothing, or it appends
    the document, which then passed validation and clashed with no stored
    one. *)
Lemma WorkspaceModel_insert_cases w db :
  (∃ e, WorkspaceModel_insert w db = (Throw e, db))
  ∨ (WorkspaceModel_insert w db
     = (Ok tt, set_workspaces (db_workspaces db ++ [w]) db)
     ∧ ws_name w ≠ ""
     ∧ ∀ d, d ∈ db_workspaces db →
            String.eqb (ws_id d) (ws_id w)
            || String.eqb (ws_inviteCode d) (ws_inviteCode w) = false).
Proof.
  unfold WorkspaceModel_insert, validate_required, sbind, throw, ret.
  destruct (String.eqb (ws_name w) "") eqn:Ev; [left; by eexists |].
  destruct (insert_unique _ _ _) as [c|e] eqn:Ei; [| left; by eexists].
  apply insert_unique_Ok in Ei as [-> Hfresh]. right.
  split; [done |]. split; [| done]. by apply String.eqb_neq.
Qed.

Lemma MemberModel_insert_cases m db :
  (∃ e, MemberModel_insert m db = (Throw e, db))
  ∨ (MemberModel_insert m db = (Ok tt, set_members (db_members db ++ [m]) db)
     ∧ ∀ d, d ∈ db_members db → String.eqb (member_id d) (member_id m) = false).
Proof.
  unfold MemberModel_insert.
  destruct (insert_unique _ _ _) as [c|e] eqn:Ei; [| left; by eexists].
  apply insert_unique_Ok in Ei as [-> Hfresh]. by right.
Qed.

Lemma UserModel_insert_cases u db :
  (∃ e, UserModel_insert u db = (Throw e, db))
  ∨ (UserModel_insert u db = (Ok tt, set_users (db_users db ++ [u]) db)
     ∧ user_email u ≠ ""
     ∧ ∀ d, d ∈ db_users db →
            String.eqb (user_id d) (user_id u)
            || String.eqb (user_email d) (user_email u) = false).
Proof.
  unfold UserModel_insert, validate_required, sbind, throw, ret.
  destruct (String.eqb (user_email u) "") eqn:Ev; [left; by eexists |].
  destruct (insert_unique _ _ _) as [c|e] eqn:Ei; [| left; by eexists].
  apply insert_unique_Ok in Ei as [-> Hfresh]. right.
  split; [done |]. split; [| done]. by apply String.eqb_neq.
Qed.

Lemma AccountModel_insert_cases a db :
  (∃ e, AccountModel_insert a db = (Throw e, db))
  ∨ (AccountModel_insert a db
     = (Ok tt, set_accounts (db_accounts db ++ [a]) db)
     ∧ ∀ d, d ∈ db_accounts db →
            String.eqb (account_id d) (account_id a)
            || String.eqb (account_providerId d) (account_providerId a) = false).
Proof.
  unfold AccountModel_insert, validate_required, sbind, throw, ret.
  destruct (String.eqb (account_provider a) ""); [left; by eexists |].
  destruct (String.eqb (account_providerId a) ""); [left; by eexists |].
  destruct (insert_unique _ _ _) as [c|e] eqn:Ei; [| left; by eexists].
  apply insert_unique_Ok in Ei as [-> Hfresh]. by right.
Qed.

Lemma answered_cases {A} (answer : option Exception) (m : Svc A) db :
  (∃ e, answer = Some e ∧ answered answer m db = (Throw e, db))
  ∨ (answer = None ∧ answered answer m db = m db).
Proof. destruct answer as [e|]; [left; by exists e | by right]. Qed.

Lemma insert_workspace_consistent w db :
  consistent db → consistent (snd (WorkspaceModel_insert w db)).
Proof.
  intros Hc. destruct (WorkspaceModel_insert_cases w db) as [[e ->]|[-> _]];
    [done |]. by apply consistent_add_workspace.
Qed.

(** The owner row of a workspace that has just been stored. *)
Lemma insert_first_member_consistent w m db :
  consistent db →
  member_workspaceId m = ws_id w →
  (∀ d, d ∈ db_workspaces db → String.eqb (ws_id d) (ws_id w) = false) →
  consistent
    (snd (MemberModel_insert m (set_workspaces (db_workspaces db ++ [w]) db))).
Proof.
  intros Hc Hw Hfresh.
  destruct (MemberModel_insert_cases m
              (set_workspaces (db_workspaces db ++ [w]) db)) as [[e ->]|[-> Hid]];
    simpl; [by apply consistent_add_workspace |].
  apply (consistent_add_member m
           (set_workspaces (db_workspaces db ++ [w]) db)); simpl.
  - by apply consistent_add_workspace.
  - unfold member_key. rewrite Hw. apply unreferenced_workspace; [done |].
    intros d Hd Heq. specialize (Hfresh d Hd).
    rewrite Heq, String.eqb_refl in Hfresh. discriminate.
  - done.
  - exists w. split; [| done]. apply elem_of_app; right.
    by apply list_elem_of_singleton.
Qed.

Lemma first_membership_consistent w m aw am db :
  consistent db →
  member_workspaceId m = ws_id w →
  consistent
    (snd ((answered aw (WorkspaceModel_insert w) >>!
           answered am (MemberModel_insert m) >>!
           ret tt) db)).
Proof.
  intros Hc Hw. unfold sbind.
  destruct (answered_cases aw (WorkspaceModel_insert w) db)
    as [(e & _ & ->)|[_ ->]]; [done |].
  destruct (WorkspaceModel_insert_cases w db) as [[e ->]|(-> & _ & Hfresh)];
    [done |].
  pose proof (insert_first_member_consistent w m db Hc Hw) as Hm.
  destruct (answered_cases am (MemberModel_insert m)
              (set_workspaces (db_workspaces db ++ [w]) db))
    as [(e & _ & ->)|[_ ->]]; simpl; [by apply consistent_add_workspace |].
  assert (consistent
            (snd (MemberModel_insert m
                    (set_workspaces (db_workspaces db ++ [w]) db)))) as Hm'.
  { apply Hm. intros d Hd. specialize (Hfresh d Hd).
    by apply orb_false_iff in Hfresh as [? _]. }
  by destruct (MemberModel_insert m _) as [[[]|e] db'].
Qed.

Lemma createWorkspace_consistent fr answers userId name db :
  consistent db →
  consistent (snd (createWorkspaceService fr answers userId name db)).
Proof.
  intros Hc. unfold createWorkspaceService.
  unfold sbind at 1, UserModel_findById.
  destruct (find _ (db_users db)) as [u|] eqn:Eu; [| done].
  unfold sbind at 1, RoleModel_findOne_name.
  destruct (find _ (db_roles db)) as [r|] eqn:Er; [| done].
  cbv zeta.
  pose proof (first_membership_consistent
                (WorkspaceModel_new (fresh_workspace fr) name (user_id u)
                   (fresh_inviteCode fr))
                (mkMember (fresh_member fr) (user_id u) (fresh_workspace fr)
                   (role_id r))
                (workspace_save answers) (member_save answers) db Hc eq_refl)
    as Hfirst.
  revert Hfirst. unfold sbind, ret. cbn [ws_id WorkspaceModel_new].
  destruct (answered (workspace_save answers) _ db) as [[[]|e] db1]; [| done].
  destruct (answered (member_save answers) _ db1) as [[[]|e] db2]; [| done].
  cbn [snd]. intros Hfirst.
  destruct (answered_cases (user_save answers)
              (UserModel_save
                 (mkUser (user_id u) (user_email u) (user_name u)
                    (user_password u) (user_isActive u)
                    (Some (fresh_workspace fr)))) db2)
    as [(e & _ & ->)|[_ ->]]; [done |].
  unfold UserModel_save. cbn [snd]. revert Hfirst. by apply consistent_ext.
Qed.

Lemma changeMemberRole_consistent workspaceId memberId roleId db :
  consistent db →
  consistent (snd (changeMemberRoleService workspaceId memberId roleId db)).
Proof.
  intros Hc. unfold changeMemberRoleService. svc_unfold.
  destruct (find _ (db_workspaces db)) as [w|] eqn:Ew; simpl; [| done].
  destruct (find _ (db_roles db)) as [r|] eqn:Er; simpl; [| done].
  destruct (find _ (db_members db)) as [m|] eqn:Em; simpl; [| done].
  apply find_Some_elem in Em as [Hm _].
  by apply (consistent_replace_member m).
Qed.

Lemma deleteWorkspace_consistent workspaceId userId db :
  consistent db →
  consistent (snd (deleteWorkspaceService workspaceId userId db)).
Proof.
  intros Hc. unfold deleteWorkspaceService.
  apply transaction_consistent; [done |]. svc_unfold.
  destruct (find _ (db_workspaces db)) as [w|] eqn:Ew; simpl; [| done].
  destruct (negb _); simpl; [done |].
  destruct (find _ (db_users db)) as [u|] eqn:Eu; simpl; [| done].
  pose proof (consistent_delete_workspace w db Hc) as Hdel.
  destruct (bool_decide _); simpl; revert Hdel; by apply consistent_ext.
Qed.

Lemma create_first_workspace_consistent fr user db :
  consistent db → consistent (snd (create_first_workspace fr user db)).
Proof.
  intros Hc. unfold create_first_workspace. cbv zeta. unfold sbind at 1.
  destruct (WorkspaceModel_insert_cases
              (WorkspaceModel_new (fresh_workspace fr) "My Workspace"
                 (user_id user) (fresh_inviteCode fr)) db)
    as [[e ->]|(-> & _ & Hfresh)]; [done |].
  unfold sbind at 1, RoleModel_findOne_name. cbn [db_roles set_workspaces].
  destruct (find _ (db_roles db)) as [r|] eqn:Er;
    [| by apply consistent_add_workspace].
  unfold sbind at 1.
  match goal with
  | |- context [MemberModel_insert ?m ?d] =>
      pose proof (insert_first_member_consistent
                    (WorkspaceModel_new (fresh_workspace fr) "My Workspace"
                       (user_id user) (fresh_inviteCode fr)) m db Hc eq_refl)
        as Hm;
      destruct (MemberModel_insert m d) as [[[]|e] db'] eqn:Em
  end; cbn [snd] in *.
  - unfold sbind, UserModel_save, ret. cbn [snd].
    assert (consistent db') as Hc'.
    { apply Hm. intros d Hd. specialize (Hfresh d Hd).
      by apply orb_false_iff in Hfresh as [? _]. }
    revert Hc'. by apply consistent_ext.
  - apply Hm. intros d Hd. specialize (Hfresh d Hd).
    by apply orb_false_iff in Hfresh as [? _].
Qed.

Lemma sign_up_consistent {A} fr user account (k : WorkspaceDocument → Svc A) db :
  consistent db →
  (∀ w db', consistent db' → consistent (snd (k w db'))) →
  consistent
    (snd ((UserModel_insert user >>!
           AccountModel_insert account >>!
           do! workspace := create_first_workspace fr user in
           k workspace) db)).
Proof.
  intros Hc Hk. unfold sbind at 1.
  destruct (UserModel_insert_cases user db) as [[e ->]|(-> & _ & _)]; [done |].
  assert (consistent (set_users (db_users db ++ [user]) db)) as Hc1
    by (revert Hc; by apply consistent_ext).
  unfold sbind at 1.
  destruct (AccountModel_insert_cases account
              (set_users (db_users db ++ [user]) db)) as [[e ->]|(-> & _)];
    [done |].
  match goal with
  | |- context [set_accounts ?c ?d] =>
      assert (consistent (set_accounts c d)) as Hc2
        by (revert Hc1; by apply consistent_ext)
  end.
  unfold sbind.
  match goal with
  | |- context [create_first_workspace fr user ?d] =>
      pose proof (create_first_workspace_consistent fr user d Hc2) as Hw;
      destruct (create_first_workspace fr user d) as [[w|e] db']
  end; cbn [snd] in *; [by apply Hk | done].
Qed.

Lemma registerUser_consistent fr email name hashed db :
  consistent db →
  consistent (snd (registerUserService fr email name hashed db)).
Proof.
  intros Hc. unfold registerUserService.
  apply transaction_consistent; [done |].
  unfold sbind at 1, UserModel_findOne_email.
  destruct (find _ (db_users db)); [done |].
  by apply sign_up_consistent.
Qed.

Lemma loginOrCreateAccount_consistent fr provider displayName providerId email db :
  consistent db →
  consistent
    (snd (loginOrCreateAccountService fr provider displayName providerId email db)).
Proof.
  intros Hc. unfold loginOrCreateAccountService.
  apply transaction_consistent; [done |].
  unfold sbind at 1, UserModel_findOne_email.
  destruct (find _ (db_users db)); [done |].
  by apply sign_up_consistent.
Qed.

Lemma handle_consistent r db : consistent db → consistent (handle r db).
Proof.
  destruct r; simpl.
  - apply join_consistent.
  - apply createWorkspace_consistent.
  - apply changeMemberRole_consistent.
  - apply deleteWorkspace_consistent.
  - apply registerUser_consistent.
  - apply loginOrCreateAccount_consistent.
Qed.

Lemma initial_consistent roles : consistent (initial roles).
Proof.
  split.
  - apply NoDup_nil_2.
  - apply NoDup_nil_2.
  - intros m Hm. inversion Hm.
Qed.

Lemma run_consistent rs db : consistent db → consistent (run rs db).
Proof.
  revert db. induction rs as [|r rs IH]; simpl; [done |].
  intros db Hc. by apply IH, handle_consistent.
Qed.

(** *** Running the services on a small store *)

Definition seeded_roles : list RoleDocument :=
  [ mkRole "r-owner" "OWNER" ["DELETE_WORKSPACE"; "VIEW_ONLY"];
    mkRole "r-member" "MEMBER" ["VIEW_ONLY"] ].

Definition fresh_alice : Fresh := mkFresh "u-alice" "a-alice" "w-alice" "m-alice" "inv-alice".
Definition fresh_bob : Fresh := mkFresh "u-bob" "a-bob" "w-bob" "m-bob" "inv-bob".

(** Alice and Bob register, then Bob joins Alice's workspace. *)
Definition two_users : Database :=
  run [ RegisterUser fresh_alice "alice@example.com" "Alice" "hash-a";
        RegisterUser fresh_bob "bob@example.com" "Bob" "hash-b";
        JoinWorkspace "m-bob-2" "u-bob" "inv-alice" ]
      (initial seeded_roles).

Example two_users_members :
  member_key <$> db_members two_users
  = [("u-alice", "w-alice"); ("u-bob", "w-bob"); ("u-bob", "w-alice")].
Proof. reflexivity. Qed.

Example bob_role_in_alice_workspace :
  getMemberRoleInWorkspace "u-bob" "w-alice" two_users = (Ok (Some "MEMBER"), two_users).
Proof. reflexivity. Qed.

Example alice_role_in_bob_workspace :
  getMemberRoleInWorkspace "u-alice" "w-bob" two_users
  = (Throw (UnauthorizedException "You are not a member of this workspace"), two_users).
Proof. reflexivity. Qed.

Example bob_joins_twice :
  joinWorkspaceByInviteService "m-bob-3" "u-bob" "inv-alice" two_users
  = (Throw (BadRequestException "You are already a member of this workspace"), two_users).
Proof. reflexivity. Qed.

Example alice_deletes_workspace :
  member_key <$> db_members (handle (DeleteWorkspace "w-alice" "u-alice") two_users)
  = [("u-bob", "w-bob")].
Proof. reflexivity. Qed.

(** *** The reads and the write of a join *)

(** [joinWorkspaceByInviteService] awaits three reads and then one write.
    [join_reads] is the part up to the document about to be saved,
    [join_write] the rest. *)
Definition join_reads (newId userId : ObjectId) (inviteCode : string)
    : Svc (MemberDocument * string) :=
  do! workspace := WorkspaceModel_findOne_inviteCode inviteCode in
  match workspace with
  | None => throw (NotFoundException "Invalid invite code or workspace not found")
  | Some workspace =>
      do! existingMember := MemberModel_findOne userId (ws_id workspace) in
      match existingMember with
      | Some _ =>
          throw (BadRequestException "You are already a member of this workspace")
      | None =>
          do! role := RoleModel_findOne_name Roles_MEMBER in
          match role with
          | None => throw (NotFoundException "Role not found")
          | Some role =>
              ret (mkMember newId userId (ws_id workspace) (role_id role),
                   role_name role)
          end
      end
  end.

Definition join_write (p : MemberDocument * string) : Svc (ObjectId * string) :=
  MemberModel_insert (fst p) >>!
  ret (member_workspaceId (fst p), snd p).

Lemma join_is_reads_then_write newId userId inviteCode db :
  joinWorkspaceByInviteService newId userId inviteCode db
  = (do! p := join_reads newId userId inviteCode in join_write p) db.
Proof.
  unfold joinWorkspaceByInviteService, join_reads, join_write. svc_unfold.
  destruct (find _ (db_workspaces db)); simpl; [| done].
  destruct (find _ (db_members db)); simpl; [done |].
  destruct (find _ (db_roles db)); simpl; done.
Qed.

(** The invariant is one of whole service calls. When the reads of two
    joins of the same user both run before either write, both pass the
    membership check and both rows are stored: nothing in the members
    collection refuses the second. *)
Example joins_interleaved :
  let db0 :=
    run [ RegisterUser fresh_alice "alice@example.com" "Alice" "hash-a";
          RegisterUser fresh_bob "bob@example.com" "Bob" "hash-b" ]
      (initial seeded_roles) in
  let p1 := mkMember "m-1" "u-bob" "w-alice" "r-member" in
  let p2 := mkMember "m-2" "u-bob" "w-alice" "r-member" in
  join_reads "m-1" "u-bob" "inv-alice" db0 = (Ok (p1, "MEMBER"), db0)
  ∧ join_reads "m-2" "u-bob" "inv-alice" db0 = (Ok (p2, "MEMBER"), db0)
  ∧ member_key <$>
      db_members
        (snd (join_write (p2, "MEMBER") (snd (join_write (p1, "MEMBER") db0))))
    = [("u-alice", "w-alice"); ("u-bob", "w-bob");
       ("u-bob", "w-alice"); ("u-bob", "w-alice")].
Proof. repeat split. Qed.




(** *** The role resolver *)

(** C1 (counterexample to the claim as stated). In a store with no
    workspace and no membership row, resolving the role of ["u-alice"] in
    ["w-none"] throws [NotFoundException], not [UnauthorizedException]. *)
Lemma getMemberRole_absent_workspace_is_NotFound :
  no_membership (initial seeded_roles) "u-alice" "w-none"
  ∧ getMemberRoleInWorkspace "u-alice" "w-none" (initial seeded_roles)
    = (Throw (NotFoundException "Workspace not found"), initial seeded_roles)
  ∧ ¬ (∃ message,
         fst (getMemberRoleInWorkspace "u-alice" "w-none" (initial seeded_roles))
         = Throw (UnauthorizedException message)).
Proof.
  split; [| split].
  - unfold no_membership. simpl. apply not_elem_of_nil.
  - reflexivity.
  - intros [message H]. discriminate H.
Qed.

(** C1 (as amended). For every pair (identity, workspace) without a
    membership row: if the workspace is stored the resolver throws
    [UnauthorizedException]; if the workspace is not stored it throws
    [NotFoundException]. Either way the store is left as it was. *)
Theorem getMemberRole_without_membership db userId workspaceId :
  no_membership db userId workspaceId →
  (workspace_exists db workspaceId →
   getMemberRoleInWorkspace userId workspaceId db
   = (Throw (UnauthorizedException "You are not a member of this workspace"), db))
  ∧ (¬ workspace_exists db workspaceId →
     getMemberRoleInWorkspace userId workspaceId db
     = (Throw (NotFoundException "Workspace not found"), db)).
Proof.
  intros Hno. apply findOne_member_None in Hno.
  unfold getMemberRoleInWorkspace. svc_unfold. split.
  - intros (w & Hw & Hid).
    destruct (find_is_Some (λ d, String.eqb (ws_id d) workspaceId)
                (db_workspaces db) w Hw) as [w' ->].
    { by apply String.eqb_eq. }
    simpl. by rewrite Hno.
  - intros Hnone.
    destruct (find _ (db_workspaces db)) as [w|] eqn:Ew; [| done].
    apply find_Some_elem in Ew as [Hw Hid]. apply String.eqb_eq in Hid.
    destruct Hnone. by exists w.
Qed.

Lemma getMemberRole_without_membership_witness :
  no_membership two_users "u-alice" "w-bob"
  ∧ workspace_exists two_users "w-bob"
  ∧ getMemberRoleInWorkspace "u-alice" "w-bob" two_users
    = (Throw (UnauthorizedException "You are not a member of this workspace"),
       two_users).
Proof.
  assert (no_membership two_users "u-alice" "w-bob") as Hno.
  { apply findOne_member_None. reflexivity. }
  assert (workspace_exists two_users "w-bob") as Hws.
  { exists (mkWorkspace "w-bob" "My Workspace" "u-bob" "inv-bob").
    split; [| reflexivity].
    apply elem_of_cons; right. apply elem_of_cons; by left. }
  split; [exact Hno | split; [exact Hws |]].
  exact (proj1 (getMemberRole_without_membership two_users "u-alice" "w-bob" Hno) Hws).
Defined.

(** *** The membership invariant *)



End Membership.

(** ** HTTP responses and cookies *)

Module Http.

(** A compact JWS as the three parts it is made of, or any other string.
    A token is only ever compared part by part, so the base64url text of
    the parts is not spelled out. *)
Inductive Algorithm : Type := HS256 | HS384 | HS512 | RS256 | alg_none.

Record JoseHeader : Type := mkHeader {
  hdr_alg : Algorithm;
  hdr_typ : string;
}.

(** The payload of a token: the application's fields and the registered
    claims, each absent or present. Times are seconds since the epoch. *)
Record Claims : Type := mkClaims {
  claim_id : string;
  claim_email : string;
  claim_role : option string;
  claim_iat : Z;
  claim_nbf : option Z;
  claim_exp : option Z;
  claim_iss : option string;
  claim_aud : option string;
}.

Inductive TokenString : Type :=
| Compact (header : JoseHeader) (claims : Claims) (signature : string)
| Opaque (raw : string).

(** JavaScript truthiness of a string. *)
Definition truthy (s : string) : bool := negb (String.eqb s "").

Definition token_truthy (t : TokenString) : bool :=
  match t with
  | Compact _ _ _ => true
  | Opaque raw => truthy raw
  end.

Inductive SameSite : Type := SameSiteLax | SameSiteStrict | SameSiteNone.

Record CookieOptions : Type := mkCookieOptions {
  opt_httpOnly : bool;
  opt_secure : bool;
  opt_sameSite : SameSite;
  opt_maxAge : option Z;
  opt_path : string;
}.

(** What the server puts in its two cookies: the token, and the JSON text
    of [{ id, email, role }]. *)
Inductive CookieValue : Type :=
| TokenValue (token : TokenString)
| UserJson (id email : string) (role : option string).

(** [res.cookie(name, value, options)] and [res.clearCookie(name, options)]
    each append one [Set-Cookie] header. *)
Inductive HeaderOp : Type :=
| SetCookie (name : string) (value : CookieValue) (options : CookieOptions)
| ClearCookie (name : string) (options : CookieOptions).

Inductive Body : Type :=
| JsonMessage (message : string)
| JsonMessageUser (message : string) (user : UserDocument).

Record Response : Type := mkResponse {
  res_headers : list HeaderOp;
  res_status : option N;
  res_body : option Body;
}.

Definition empty_response : Response := mkResponse [] None None.

Definition res_cookie (name : string) (value : CookieValue)
    (options : CookieOptions) (res : Response) : Response :=
  mkResponse (res_headers res ++ [SetCookie name value options])
    (res_status res) (res_body res).

Definition res_clearCookie (name : string) (options : CookieOptions)
    (res : Response) : Response :=
  mkResponse (res_headers res ++ [ClearCookie name options])
    (res_status res) (res_body res).

(** [res.status(code).json(body)] *)
Definition res_status_json (code : N) (body : Body) (res : Response) : Response :=
  mkResponse (res_headers res) (Some code) (Some body).

(** The browser's cookie jar, keyed by name and path. A [Set-Cookie] stores
    the value; a clearing header removes the cookie of that name and path. *)
Definition apply_header (jar : gmap (string * string) CookieValue)
    (op : HeaderOp) : gmap (string * string) CookieValue :=
  match op with
  | SetCookie name value options => <[(name, opt_path options) := value]> jar
  | ClearCookie name options => delete (name, opt_path options) jar
  end.

Definition apply_headers (jar : gmap (string * string) CookieValue)
    (ops : list HeaderOp) : gmap (string * string) CookieValue :=
  foldl apply_header jar ops.

(** How a handler ends: it wrote the response, it passed control on with
    [next()] or [next(err)], or it threw. *)
Inductive Outcome : Type :=
| Responded
| Next
| NextError (err : Exception)
| Threw (err : Exception).

End Http.
Export Http.

(** ** utils/jwt.ts *)

Module Jwt.
Section Jwt.

(** [mac alg key (header, claims)] is the signature the algorithm computes
    over the signing input with the key. *)
Variable mac : Algorithm → string → JoseHeader * Claims → string.

(** config/app.config.ts *)
Variable SESSION_SECRET : string.
Variable NODE_ENV : string.

Definition eqb_opt (o : option string) (s : string) : bool :=
  match o with
  | Some s' => String.eqb s' s
  | None => false
  end.

(** [jwt.sign(payload, secret, { expiresIn, issuer, audience })] of the
    jsonwebtoken library, with the default algorithm HS256; [now] is the
    clock in seconds. The library refuses an empty secret. *)
Definition jwt_sign (id email : string) (role : option string)
    (secret : string) (expiresIn : Z) (issuer audience : string) (now : Z)
    : result TokenString :=
  if negb (truthy secret)
  then Throw (PlainError "secretOrPrivateKey must have a value")
  else
    let header := mkHeader HS256 "JWT" in
    let claims :=
      mkClaims id email role now None (Some (now + expiresIn)%Z)
        (Some issuer) (Some audience) in
    Ok (Compact header claims (mac HS256 secret (header, claims))).

Definition hmac_algorithm (a : Algorithm) : bool :=
  match a with
  | HS256 | HS384 | HS512 => true
  | _ => false
  end.

(** [jwt.verify(token, secret, { issuer, audience })] of the library, in
    the order of its checks: shape, signature present, algorithm allowed
    for a shared secret, signature, not-before, expiry, audience, issuer. *)
Definition jwt_verify (token : TokenString) (secret : string)
    (issuer audience : string) (now : Z) : result Claims :=
  match token with
  | Opaque _ => Throw (JsonWebTokenError "jwt malformed")
  | Compact header claims signature =>
      if negb (truthy secret) then
        Throw (JsonWebTokenError "secret or public key must be provided")
      else if negb (truthy signature) then
        Throw (JsonWebTokenError "jwt signature is required")
      else if negb (hmac_algorithm (hdr_alg header)) then
        Throw (JsonWebTokenError "invalid algorithm")
      else if negb (String.eqb signature
                      (mac (hdr_alg header) secret (header, claims))) then
        Throw (JsonWebTokenError "invalid signature")
      else if match claim_nbf claims with
              | Some nbf => (now <? nbf)%Z
              | None => false
              end then
        Throw (NotBeforeError "jwt not active")
      else if match claim_exp claims with
              | Some exp => (exp <=? now)%Z
              | None => false
              end then
        Throw (TokenExpiredError "jwt expired")
      else if negb (eqb_opt (claim_aud claims) audience) then
        Throw (JsonWebTokenError "jwt audience invalid")
      else if negb (eqb_opt (claim_iss claims) issuer) then
        Throw (JsonWebTokenError "jwt issuer invalid")
      else Ok claims
  end.

(** [JWTPayload] *)
Record JWTPayload : Type := mkPayload {
  payload_id : string;
  payload_email : string;
  payload_role : option string;
}.

(** ['24h'] in seconds. *)
Definition EXPIRES_IN : Z := (24 * 60 * 60)%Z.
Definition ISSUER : string := "team-sync-app".
Definition AUDIENCE : string := "team-sync-users".

Definition generateJWT (payload : JWTPayload) (now : Z) : result TokenString :=
  jwt_sign (payload_id payload) (payload_email payload) (payload_role payload)
    SESSION_SECRET EXPIRES_IN ISSUER AUDIENCE now.

(** The decoded object is used as a [JWTPayload] without a check; the
    registered claims stay on it. *)
Definition verifyJWT (token : TokenString) (now : Z) : result Claims :=
  jwt_verify token SESSION_SECRET ISSUER AUDIENCE now.

Definition as_JWTPayload (decoded : Claims) : JWTPayload :=
  mkPayload (claim_id decoded) (claim_email decoded) (claim_role decoded).

Definition production : bool := String.eqb NODE_ENV "production".

Definition MAX_AGE : Z := (24 * 60 * 60 * 1000)%Z.

Definition setAuthCookies (res : Response) (user : JWTPayload) (now : Z)
    : result Response :=
  let! token := generateJWT user now in
  let res :=
    res_cookie "auth_token" (TokenValue token)
      (mkCookieOptions true production
         (if production then SameSiteNone else SameSiteLax)
         (Some MAX_AGE) "/") res in
  let res :=
    res_cookie "auth_user"
      (UserJson (payload_id user) (payload_email user) (payload_role user))
      (mkCookieOptions false production
         (if production then SameSiteNone else SameSiteLax)
         (Some MAX_AGE) "/") res in
  Ok res.

Definition clear_options : CookieOptions :=
  mkCookieOptions true production
    (if production then SameSiteNone else SameSiteLax) None "/".

(** [{ ...cookieOptions, httpOnly: false }] *)
Definition not_httpOnly (o : CookieOptions) : CookieOptions :=
  mkCookieOptions false (opt_secure o) (opt_sameSite o) (opt_maxAge o) (opt_path o).

Definition clearAuthCookies (res : Response) : Response :=
  let cookieOptions := clear_options in
  let res := res_clearCookie "auth_token" cookieOptions res in
  res_clearCookie "auth_user" (not_httpOnly cookieOptions) res.

(** Whatever [verifyJWT] throws is one of the library's errors, never an
    [UnauthorizedException]. *)
Lemma verifyJWT_throws_library_error token now e :
  verifyJWT token now = Throw e → instanceof_Unauthorized e = false.
Proof.
  unfold verifyJWT, jwt_verify. destruct token as [header claims signature|raw].
  - repeat match goal with
           | |- context [if ?b then _ else _] => destruct b
           end; intros [= <-]; reflexivity.
  - intros [= <-]. reflexivity.
Qed.

Lemma jwt_verify_Ok_inv token secret issuer audience now claims :
  jwt_verify token secret issuer audience now = Ok claims →
  ∃ header signature,
    token = Compact header claims signature
    ∧ hmac_algorithm (hdr_alg header) = true
    ∧ signature = mac (hdr_alg header) secret (header, claims)
    ∧ (∀ exp, claim_exp claims = Some exp → (now < exp)%Z)
    ∧ claim_aud claims = Some audience
    ∧ claim_iss claims = Some issuer.
Proof.
  unfold jwt_verify. destruct token as [header c signature|raw]; [| discriminate].
  destruct (negb (truthy secret)); [discriminate |].
  destruct (negb (truthy signature)); [discriminate |].
  destruct (hmac_algorithm (hdr_alg header)) eqn:Ealg; [| discriminate]. simpl.
  destruct (String.eqb signature _) eqn:Esig; [| discriminate]. simpl.
  destruct (match claim_nbf c with Some _ => _ | None => _ end); [discriminate |].
  destruct (match claim_exp c with Some _ => _ | None => _ end) eqn:Eexp;
    [discriminate |].
  destruct (eqb_opt (claim_aud c) audience) eqn:Eaud; [| discriminate]. simpl.
  destruct (eqb_opt (claim_iss c) issuer) eqn:Eiss; [| discriminate]. simpl.
  intros [= <-]. exists header, signature.
  apply String.eqb_eq in Esig.
  split; [done | split; [done | split; [done | split; [| split]]]].
  - intros exp Hexp. rewrite Hexp in Eexp. lia.
  - unfold eqb_opt in Eaud. destruct (claim_aud c); [| discriminate].
    apply String.eqb_eq in Eaud. by subst.
  - unfold eqb_opt in Eiss. destruct (claim_iss c); [| discriminate].
    apply String.eqb_eq in Eiss. by subst.
Qed.

(** A token past its expiry is refused, whatever else is right about it. *)
Lemma jwt_verify_expired header claims signature secret issuer audience now exp e :
  claim_exp claims = Some exp → (exp ≤ now)%Z →
  jwt_verify (Compact header claims signature) secret issuer audience now
  ≠ Ok e.
Proof.
  intros Hexp Hle H. apply jwt_verify_Ok_inv in H as (h & sg & [= <- <- <-] & H).
  destruct H as (_ & _ & Hlt & _). specialize (Hlt exp Hexp). lia.
Qed.

(** A token whose signature is not the one the secret gives is refused. *)
Lemma jwt_verify_bad_signature header claims signature secret issuer audience now e :
  signature ≠ mac (hdr_alg header) secret (header, claims) →
  jwt_verify (Compact header claims signature) secret issuer audience now
  ≠ Ok e.
Proof.
  intros Hsig H. apply jwt_verify_Ok_inv in H as (h & sg & [= <- <- <-] & H).
  destruct H as (_ & Heq & _). done.
Qed.

(** C6. Token round trip: for every payload [{ id, email, role }] and every
    lifetime [ttl], a token signed at [issuedAt] with the configured secret
    and the fixed issuer and audience verifies at every instant [now]
    before its expiry [issuedAt + ttl], and the decoded object carries the
    payload's three fields unchanged. With the lifetime of 24 hours that
    token is the one [generateJWT] makes. The secret is non-empty and the
    signature algorithm never yields an empty signature. *)
Theorem verify_sign_roundtrip (payload : JWTPayload) (ttl issuedAt now : Z) :
  truthy SESSION_SECRET = true →
  (∀ m, truthy (mac HS256 SESSION_SECRET m) = true) →
  (now < issuedAt + ttl)%Z →
  ∃ token decoded,
    jwt_sign (payload_id payload) (payload_email payload) (payload_role payload)
      SESSION_SECRET ttl ISSUER AUDIENCE issuedAt = Ok token
    ∧ (ttl = EXPIRES_IN → generateJWT payload issuedAt = Ok token)
    ∧ verifyJWT token now = Ok decoded
    ∧ as_JWTPayload decoded = payload
    ∧ claim_exp decoded = Some (issuedAt + ttl)%Z.
Proof.
  intros Hsecret Hmac Hnow.
  unfold generateJWT, verifyJWT, jwt_sign. rewrite Hsecret. simpl.
  eexists. eexists. split; [reflexivity |].
  split; [by intros -> |].
  unfold jwt_verify. rewrite Hsecret, Hmac. simpl.
  rewrite String.eqb_refl. simpl.
  assert ((issuedAt + ttl <=? now)%Z = false) as -> by lia.
  unfold ISSUER, AUDIENCE. simpl.
  split; [reflexivity |]. split; [| reflexivity].
  by destruct payload.
Qed.

End Jwt.

(** A stand-in signature function to run the code with. *)
Definition toy_mac (a : Algorithm) (key : string) (m : JoseHeader * Claims)
    : string :=
  String.append "sig/"
    (String.append key (String.append "/" (claim_id (snd m)))).

Definition alice_payload : JWTPayload :=
  mkPayload "u-alice" "alice@example.com" None.

Definition alice_token : TokenString :=
  Compact (mkHeader HS256 "JWT")
    (mkClaims "u-alice" "alice@example.com" None 1000 None (Some 87400%Z)
       (Some "team-sync-app") (Some "team-sync-users"))
    "sig/s3cret/u-alice".

Example generateJWT_alice :
  generateJWT toy_mac "s3cret" alice_payload 1000 = Ok alice_token.
Proof. reflexivity. Qed.

Example verifyJWT_alice :
  as_JWTPayload <$> thrown_or (verifyJWT toy_mac "s3cret" alice_token 5000)
  = Some alice_payload.
Proof. reflexivity. Qed.

Example verifyJWT_alice_expired :
  verifyJWT toy_mac "s3cret" alice_token 87400
  = Throw (TokenExpiredError "jwt expired").
Proof. reflexivity. Qed.

Example verifyJWT_alice_other_secret :
  verifyJWT toy_mac "other" alice_token 5000
  = Throw (JsonWebTokenError "invalid signature").
Proof. reflexivity. Qed.

Lemma verify_sign_roundtrip_witness :
  truthy "s3cret" = true
  ∧ (1500 < 1000 + 3600)%Z
  ∧ ∃ token decoded,
      jwt_sign toy_mac "u-alice" "alice@example.com" None "s3cret" 3600
        ISSUER AUDIENCE 1000 = Ok token
      ∧ (3600%Z = EXPIRES_IN → generateJWT toy_mac "s3cret" alice_payload 1000 = Ok token)
      ∧ verifyJWT toy_mac "s3cret" token 1500 = Ok decoded
      ∧ as_JWTPayload decoded = alice_payload
      ∧ claim_exp decoded = Some (1000 + 3600)%Z.
Proof.
  split; [reflexivity | split; [lia |]].
  apply (verify_sign_roundtrip toy_mac "s3cret" alice_payload 3600 1000 1500).
  - reflexivity.
  - intros m. reflexivity.
  - lia.
Defined.

End Jwt.
Export Jwt.

(** ** middlewares/auth.middleware.ts *)

Module AuthMiddleware.
Section AuthMiddleware.

Variable mac : Algorithm → string → JoseHeader * Claims → string.
Variable SESSION_SECRET : string.

(** [process.env.NODE_ENV] *)
Variable process_env_NODE_ENV : option string.

(** [UserModel.findById(id)]: one read of the user collection, which
    returns the document, returns [null], or fails. *)
Variable findById : string → result (option UserDocument).

(** models/user.model.ts: the paths that [userSchema] declares, and those
    Mongoose adds to every schema with timestamps. *)
Definition userSchema_paths : list string :=
  [ "name"; "email"; "password"; "profilePicture"; "currentWorkspace";
    "isActive"; "lastLogin"; "_id"; "createdAt"; "updatedAt"; "__v" ].

Definition strict_populate_error (path : string) : Exception :=
  StrictPopulateError
    (String.append "Cannot populate path `"
       (String.append path
          "` because it is not in your schema. Set the `strictPopulate` option to false to override.")).

(** [.populate('memberships.workspace')] on the result of the query: a
    [null] result is left alone; for a document, Mongoose (whose
    [strictPopulate] is on unless switched off) refuses a path that starts
    at no path of the schema. The populated fields themselves are not part
    of [UserDocument]. *)
Definition populate_memberships_workspace (doc : option UserDocument)
    : result (option UserDocument) :=
  match doc with
  | None => Ok None
  | Some d =>
      if bool_decide ("memberships" ∈ userSchema_paths)
      then Ok (Some d)
      else Throw (strict_populate_error "memberships.workspace")
  end.

Definition UserModel_findById_populate (id : string)
    : result (option UserDocument) :=
  let! doc := findById id in
  populate_memberships_workspace doc.

(** [req.cookies] as a cookie parser fills it; only [auth_token] is read. *)
Record Cookies : Type := mkCookies {
  cookies_auth_token : option TokenString;
}.

(** What the middleware reads of the request: the user that the session
    layer attached, and [req.cookies], which is [undefined] unless a
    cookie parser has run. *)
Record Request : Type := mkRequest {
  req_user : option UserDocument;
  req_cookies : option Cookies;
}.

(** Calls to collaborators, in the order they happen. *)
Inductive Event : Type :=
| EvVerifyJWT (token : TokenString)
| EvFindById (id : string)
| EvConsoleError (message : string) (hasToken : bool).

(** A computation that may throw and records its calls. *)
Definition Traced (A : Type) : Type := result A * list Event.

Definition tret {A} (a : A) : Traced A := (Ok a, []).
Definition tthrow {A} (e : Exception) : Traced A := (Throw e, []).
Definition tbind {A B} (m : Traced A) (k : A → Traced B) : Traced B :=
  match m with
  | (Ok a, t) => let (r, t') := k a in (r, t ++ t')
  | (Throw e, t) => (Throw e, t)
  end.

Notation "'tr!' x ':=' m 'in' k" := (tbind m (λ x, k))
  (at level 10, x name, m at level 100, k at level 200, only parsing).

Definition call_verifyJWT (token : TokenString) (now : Z) : Traced Claims :=
  (verifyJWT mac SESSION_SECRET token now, [EvVerifyJWT token]).

Definition call_findById (id : string) : Traced (option UserDocument) :=
  (UserModel_findById_populate id, [EvFindById id]).

(** [req.user && req.user._id] *)
Definition session_attached (req : Request) : bool :=
  match req_user req with
  | Some user => truthy (user_id user)
  | None => false
  end.

(** [cookies.auth_token], when it is not falsy. *)
Definition presented_token (cookies : Cookies) : option TokenString :=
  match cookies_auth_token cookies with
  | Some token => if token_truthy token then Some token else None
  | None => None
  end.

(** What reading a property of [undefined] throws, in the words of V8. *)
Definition cookies_undefined : Exception :=
  TypeError "Cannot read properties of undefined (reading 'auth_token')".

(** The [try] block. [Ok req'] stands for a call of [next()] with the
    request as it then is. *)
Definition try_block (req : Request) (now : Z) : Traced Request :=
  if session_attached req then tret req
  else
    match req_cookies req with
    | None => tthrow cookies_undefined
    | Some cookies =>
        match presented_token cookies with
        | None => tthrow (UnauthorizedException "Unauthorized. Please log in.")
        | Some token =>
            tr! decoded := call_verifyJWT token now in
            tr! user := call_findById (claim_id decoded) in
            match user with
            | None =>
                tthrow
                  (UnauthorizedException "User not found. Please log in again.")
            | Some user => tret (mkRequest (Some user) (req_cookies req))
            end
        end
    end.

Definition env_production : bool :=
  match process_env_NODE_ENV with
  | Some v => String.eqb v "production"
  | None => false
  end.

Record Run : Type := mkRun {
  run_outcome : Outcome;
  run_req : Request;
  run_res : Response;
  run_trace : list Event;
}.

Definition middleware_cookieOptions : CookieOptions :=
  mkCookieOptions true env_production
    (if env_production then SameSiteNone else SameSiteLax) None "/".

Definition invalid_token_message : string :=
  "Invalid authentication token. Please log in again.".

(** The [catch] block builds the object it logs before anything else, and
    that object reads [req.cookies.auth_token] again: with [req.cookies]
    undefined the block throws there, before it logs, tests the error or
    clears a cookie. *)
Definition requireAuth (req : Request) (res : Response) (now : Z) : Run :=
  match try_block req now with
  | (Ok req', trace) => mkRun Next req' res trace
  | (Throw error, trace) =>
      match req_cookies req with
      | None => mkRun (Threw cookies_undefined) req res trace
      | Some cookies =>
          let trace :=
            trace ++ [EvConsoleError (message_of error)
                        (bool_decide (is_Some (presented_token cookies)))] in
          if instanceof_Unauthorized error then mkRun (Threw error) req res trace
          else
            let cookieOptions := middleware_cookieOptions in
            let res := res_clearCookie "auth_token" cookieOptions res in
            let res :=
              res_clearCookie "auth_user" (not_httpOnly cookieOptions) res in
            mkRun (Threw (UnauthorizedException invalid_token_message)) req res
              trace
      end
  end.

(** index.ts: what the application hands to [requireAuth] for a browser
    with the cookie jar [jar] whose session holds [session_user]. The
    middleware registered before it are [helmet], the rate limiter,
    [express.json], [express.urlencoded], [session], [passport.initialize],
    [passport.session] and [cors]; none of them fills [req.cookies], and no
    cookie parser is registered, so [req.cookies] is [undefined] whatever
    the jar holds. *)
Definition request_from (session_user : option UserDocument)
    (jar : gmap (string * string) CookieValue) : Request :=
  mkRequest session_user None.

(** The request a cookie parser in front of [requireAuth] would make of the
    same browser. *)
Definition parsed_request (session_user : option UserDocument)
    (jar : gmap (string * string) CookieValue) : Request :=
  mkRequest session_user
    (Some (mkCookies
             match jar !! ("auth_token", "/") with
             | Some (TokenValue token) => Some token
             | _ => None
             end)).

(** The reads of the credential store and the token verifications that a
    run made. *)
Definition store_reads (trace : list Event) : list string :=
  omap (λ ev, match ev with EvFindById id => Some id | _ => None end) trace.

Definition verifications (trace : list Event) : list TokenString :=
  omap (λ ev, match ev with EvVerifyJWT t => Some t | _ => None end) trace.

(** The outcome is a rejection with [UnauthorizedException]. *)
Definition rejected (r : Run) : Prop :=
  ∃ message, run_outcome r = Threw (UnauthorizedException message).

(** [after] is [before] with the two clearing headers appended. *)
Definition cleared_both (before after : Response) : Prop :=
  res_headers after
  = res_headers before
    ++ [ClearCookie "auth_token" middleware_cookieOptions;
        ClearCookie "auth_user" (not_httpOnly middleware_cookieOptions)]
  ∧ res_status after = res_status before
  ∧ res_body after = res_body before.

(** Neither credential cookie is left in the browser's jar. *)
Definition credentials_absent (jar : gmap (string * string) CookieValue) : Prop :=
  jar !! ("auth_token", "/") = None ∧ jar !! ("auth_user", "/") = None.

Lemma cleared_both_absent before after jar :
  cleared_both before after →
  credentials_absent (apply_headers jar (res_headers after)).
Proof.
  intros (Hh & _ & _). rewrite Hh. unfold apply_headers.
  rewrite foldl_app. simpl. split.
  - rewrite lookup_delete_ne by done. apply lookup_delete_eq.
  - apply lookup_delete_eq.
Qed.

Lemma clearing_path res :
  cleared_both res
    (res_clearCookie "auth_user" (not_httpOnly middleware_cookieOptions)
       (res_clearCookie "auth_token" middleware_cookieOptions res)).
Proof. unfold cleared_both, res_clearCookie. simpl. by rewrite <- app_assoc. Qed.

(** The populate step fails for every document. *)
Lemma populate_stored d :
  populate_memberships_workspace (Some d)
  = Throw (strict_populate_error "memberships.workspace").
Proof. reflexivity. Qed.

Lemma findById_populate_never_a_document id user :
  UserModel_findById_populate id ≠ Ok (Some user).
Proof.
  unfold UserModel_findById_populate.
  destruct (findById id) as [[d|]|e]; simpl; discriminate.
Qed.

Lemma try_block_session req now :
  session_attached req = true → try_block req now = (Ok req, []).
Proof. intros Hs. unfold try_block. by rewrite Hs. Qed.

(** Without a session user the [try] block always throws. *)
Lemma try_block_no_session req now :
  session_attached req = false → ∃ e trace, try_block req now = (Throw e, trace).
Proof.
  intros Hs. unfold try_block. rewrite Hs.
  destruct (req_cookies req) as [cookies|]; [| by eexists _, _].
  destruct (presented_token cookies) as [token|]; [| by eexists _, _].
  unfold tbind, call_verifyJWT, call_findById, UserModel_findById_populate.
  destruct (verifyJWT _ _ _ _) as [decoded|e]; [| by eexists _, _].
  destruct (findById (claim_id decoded)) as [[user|]|e]; simpl; by eexists _, _.
Qed.

(** With no session user and [req.cookies] undefined, the middleware throws
    the [TypeError] of the property read: it verifies nothing, reads
    nothing, logs nothing and leaves the response as it is. *)
Lemma requireAuth_cookies_undefined req res now :
  session_attached req = false →
  req_cookies req = None →
  requireAuth req res now = mkRun (Threw cookies_undefined) req res [].
Proof.
  intros Hs Hc. unfold requireAuth, try_block. by rewrite Hs, Hc.
Qed.

(** Behind a cookie parser: when no session user is attached and the
    presented token fails verification, the middleware appends the
    clearing headers for [auth_token] and [auth_user] to the response, so
    that neither cookie stays in the browser's jar, and throws
    [UnauthorizedException]; when no token is presented it throws
    [UnauthorizedException] and leaves the response untouched. *)
Lemma invalid_token_clears_both_cookies req res now cookies :
  session_attached req = false →
  req_cookies req = Some cookies →
  (∀ token e,
     presented_token cookies = Some token →
     verifyJWT mac SESSION_SECRET token now = Throw e →
     run_outcome (requireAuth req res now)
     = Threw (UnauthorizedException invalid_token_message)
     ∧ cleared_both res (run_res (requireAuth req res now))
     ∧ ∀ jar, credentials_absent
                (apply_headers jar (res_headers (run_res (requireAuth req res now)))))
  ∧ (presented_token cookies = None →
     run_outcome (requireAuth req res now)
     = Threw (UnauthorizedException "Unauthorized. Please log in.")
     ∧ run_res (requireAuth req res now) = res).
Proof.
  intros Hsession Hcookies. split.
  - intros token e Htoken Hverify.
    assert (run_outcome (requireAuth req res now)
            = Threw (UnauthorizedException invalid_token_message)
            ∧ cleared_both res (run_res (requireAuth req res now))) as [Ho Hc].
    { unfold requireAuth, try_block. rewrite Hsession, Hcookies, Htoken.
      unfold tbind, call_verifyJWT. rewrite Hverify.
      rewrite (verifyJWT_throws_library_error _ _ _ _ _ Hverify). simpl.
      split; [reflexivity | apply clearing_path]. }
    split; [done | split; [done |]].
    intros jar. by eapply cleared_both_absent.
  - intros Htoken. unfold requireAuth, try_block.
    rewrite Hsession, Hcookies, Htoken. simpl. done.
Qed.

(** C5. Session first: when a session user is attached, the middleware
    calls [next()] at once with the request unchanged; it verifies no
    token, reads no user and writes nothing to the response. In every run
    the user collection is read at most once. *)
Theorem session_first_short_circuit req res now :
  (session_attached req = true →
   requireAuth req res now = mkRun Next req res []
   ∧ verifications (run_trace (requireAuth req res now)) = []
   ∧ store_reads (run_trace (requireAuth req res now)) = [])
  ∧ (length (store_reads (run_trace (requireAuth req res now))) ≤ 1)%nat.
Proof.
  split.
  - intros Hsession. unfold requireAuth, try_block. rewrite Hsession. done.
  - unfold requireAuth, try_block.
    destruct (session_attached req); [simpl; lia |].
    destruct (req_cookies req) as [cookies|]; [| simpl; lia].
    destruct (presented_token cookies) as [token|]; [| simpl; lia].
    unfold tbind, call_verifyJWT, call_findById.
    destruct (verifyJWT _ _ _ _) as [decoded|e].
    + destruct (UserModel_findById_populate _) as [[user|]|e]; simpl;
        try destruct (instanceof_Unauthorized _); simpl; lia.
    + simpl. destruct (instanceof_Unauthorized _); simpl; lia.
Qed.

(** Behind a cookie parser, on the token path: once the token has passed
    verification, the middleware reads the user of the id in the token
    exactly once, and rejects the request whatever the read returns. When
    the document is gone it throws [UnauthorizedException] and leaves the
    response untouched. When the document is stored, active or not, the
    populate step fails, and the middleware clears both cookies and throws
    [UnauthorizedException]. The [isActive] flag is not consulted. *)
Lemma token_fallback_refetch req res now cookies token decoded :
  session_attached req = false →
  req_cookies req = Some cookies →
  presented_token cookies = Some token →
  verifyJWT mac SESSION_SECRET token now = Ok decoded →
  store_reads (run_trace (requireAuth req res now)) = [claim_id decoded]
  ∧ rejected (requireAuth req res now)
  ∧ run_req (requireAuth req res now) = req
  ∧ (∀ user,
       findById (claim_id decoded) = Ok (Some user) →
       run_outcome (requireAuth req res now)
       = Threw (UnauthorizedException invalid_token_message)
       ∧ cleared_both res (run_res (requireAuth req res now)))
  ∧ (findById (claim_id decoded) = Ok None →
     run_outcome (requireAuth req res now)
     = Threw (UnauthorizedException "User not found. Please log in again.")
     ∧ run_res (requireAuth req res now) = res).
Proof.
  intros Hsession Hcookies Htoken Hverify.
  unfold rejected, requireAuth, try_block. rewrite Hsession, Hcookies, Htoken.
  unfold tbind, call_verifyJWT, call_findById, UserModel_findById_populate.
  rewrite Hverify.
  destruct (findById (claim_id decoded)) as [[user|]|e] eqn:Eread; simpl.
  - split; [done |]. split; [by eexists |]. split; [done |].
    split; [| done]. intros ? _. split; [done | apply clearing_path].
  - split; [done |]. split; [by eexists |]. split; [done |]. done.
  - destruct (instanceof_Unauthorized e) eqn:Ee; simpl.
    + split; [done |]. split; [| done].
      destruct e; try discriminate. by eexists.
    + split; [done |]. split; [by eexists | done].
Qed.

(** Every run ends in [next()], in an [UnauthorizedException], or, with
    [req.cookies] undefined, in the [TypeError]; and it ends in [next()]
    only for a session user. *)
Lemma requireAuth_outcomes req res now :
  (run_outcome (requireAuth req res now) = Next ∧ session_attached req = true)
  ∨ (run_outcome (requireAuth req res now) = Threw cookies_undefined
     ∧ session_attached req = false ∧ req_cookies req = None)
  ∨ (rejected (requireAuth req res now)
     ∧ session_attached req = false ∧ is_Some (req_cookies req)).
Proof.
  unfold rejected, requireAuth, try_block.
  destruct (session_attached req); [by left |]. right.
  destruct (req_cookies req) as [cookies|]; [right | by left].
  split; [| split; [done | by eexists]].
  destruct (presented_token cookies) as [token|]; [| by eexists].
  unfold tbind, call_verifyJWT, call_findById, UserModel_findById_populate.
  destruct (verifyJWT _ _ _ _) as [decoded|e] eqn:Ev.
  - destruct (findById (claim_id decoded)) as [[user|]|e]; simpl;
      [by eexists | by eexists |].
    destruct (instanceof_Unauthorized e) eqn:Ee; simpl; [| by eexists].
    destruct e; try discriminate. by eexists.
  - rewrite (verifyJWT_throws_library_error _ _ _ _ _ Ev). simpl. by eexists.
Qed.

End AuthMiddleware.

(** *** Running the middleware *)

Definition alice_active : UserDocument :=
  mkUser "u-alice" "alice@example.com" "Alice" (Some "hash-a") true
    (Some "w-alice").

Definition inactive_alice : UserDocument :=
  mkUser "u-alice" "alice@example.com" "Alice" (Some "hash-a") false
    (Some "w-alice").

(** What [findById] answers on a user collection that holds Alice's
    account. *)
Definition users_active_alice (id : string) : result (option UserDocument) :=
  Ok (find (λ u, String.eqb (user_id u) id) [alice_active]).

(** What [findById] answers on a user collection in which Alice's account
    has been deactivated. *)
Definition users_inactive_alice (id : string) : result (option UserDocument) :=
  Ok (find (λ u, String.eqb (user_id u) id) [inactive_alice]).

Definition no_users (id : string) : result (option UserDocument) := Ok None.

Definition forged_token : TokenString :=
  Compact (mkHeader HS256 "JWT")
    (mkClaims "u-alice" "alice@example.com" None 1000 None (Some 87400%Z)
       (Some "team-sync-app") (Some "team-sync-users"))
    "sig/guess/u-alice".

(** The jar of a browser that holds Alice's cookies, and one in which the
    token has been replaced by a forged one. *)
Definition alice_jar : gmap (string * string) CookieValue :=
  {[ ("auth_token", "/") := TokenValue alice_token;
     ("auth_user", "/") := UserJson "u-alice" "alice@example.com" None ]}.

Definition forged_jar : gmap (string * string) CookieValue :=
  {[ ("auth_token", "/") := TokenValue forged_token;
     ("auth_user", "/") := UserJson "u-alice" "alice@example.com" None ]}.

Definition alice_claims : Claims :=
  mkClaims "u-alice" "alice@example.com" None 1000 None (Some 87400%Z)
    (Some "team-sync-app") (Some "team-sync-users").

Example parsed_forged_token :
  requireAuth toy_mac "s3cret" None users_inactive_alice
    (parsed_request None forged_jar) empty_response 5000
  = mkRun (Threw (UnauthorizedException invalid_token_message))
      (mkRequest None (Some (mkCookies (Some forged_token))))
      (mkResponse
         [ClearCookie "auth_token" (mkCookieOptions true false SameSiteLax None "/");
          ClearCookie "auth_user" (mkCookieOptions false false SameSiteLax None "/")]
         None None)
      [EvVerifyJWT forged_token; EvConsoleError "invalid signature" true].
Proof. reflexivity. Qed.

Example parsed_no_credentials :
  requireAuth toy_mac "s3cret" None users_inactive_alice
    (parsed_request None ∅) empty_response 5000
  = mkRun (Threw (UnauthorizedException "Unauthorized. Please log in."))
      (mkRequest None (Some (mkCookies None))) empty_response
      [EvConsoleError "Unauthorized. Please log in." false].
Proof. reflexivity. Qed.

Example parsed_deleted_user :
  run_outcome (requireAuth toy_mac "s3cret" None no_users
                 (parsed_request None alice_jar) empty_response 5000)
  = Threw (UnauthorizedException "User not found. Please log in again.").
Proof. reflexivity. Qed.

(** C2 (the code at the failing input). A browser without session sends a
    forged token. As the application is wired, [req.cookies] is undefined:
    the middleware throws a [TypeError] from the [try] block and again from
    the [catch] block, the token is never verified, the response gets no
    clearing header, so both cookies stay in the jar, and the error is not
    an [UnauthorizedException]. *)
Theorem forged_token_is_not_cleared :
  verifyJWT toy_mac "s3cret" forged_token 5000
  = Throw (JsonWebTokenError "invalid signature")
  ∧ requireAuth toy_mac "s3cret" None users_inactive_alice
      (request_from None forged_jar) empty_response 5000
    = mkRun
        (Threw (TypeError "Cannot read properties of undefined (reading 'auth_token')"))
        (mkRequest None None) empty_response []
  ∧ apply_headers forged_jar
      (res_headers
         (run_res (requireAuth toy_mac "s3cret" None users_inactive_alice
                     (request_from None forged_jar) empty_response 5000)))
    = forged_jar.
Proof. repeat split. Qed.

(** C3 (the code at the failing input). Alice's account is stored and
    active and her browser holds a token that verifies. As the application
    is wired, the request without session ends in the [TypeError]: the
    token is not verified and the user is not read. Behind a cookie parser
    the token is verified and the user read once, and then the populate
    step fails for the stored document: the request is rejected and both
    cookies are cleared. *)
Theorem valid_token_of_stored_user_is_rejected :
  verifyJWT toy_mac "s3cret" alice_token 5000 = Ok alice_claims
  ∧ users_active_alice "u-alice" = Ok (Some alice_active)
  ∧ user_isActive alice_active = true
  ∧ requireAuth toy_mac "s3cret" None users_active_alice
      (request_from None alice_jar) empty_response 5000
    = mkRun
        (Threw (TypeError "Cannot read properties of undefined (reading 'auth_token')"))
        (mkRequest None None) empty_response []
  ∧ requireAuth toy_mac "s3cret" None users_active_alice
      (parsed_request None alice_jar) empty_response 5000
    = mkRun (Threw (UnauthorizedException invalid_token_message))
        (mkRequest None (Some (mkCookies (Some alice_token))))
        (mkResponse
           [ClearCookie "auth_token" (mkCookieOptions true false SameSiteLax None "/");
            ClearCookie "auth_user" (mkCookieOptions false false SameSiteLax None "/")]
           None None)
        [EvVerifyJWT alice_token; EvFindById "u-alice";
         EvConsoleError
           "Cannot populate path `memberships.workspace` because it is not in your schema. Set the `strictPopulate` option to false to override."
           true].
Proof. repeat split. Qed.

(** An inactive account fares no differently. *)
Example parsed_inactive_user :
  run_outcome (requireAuth toy_mac "s3cret" None users_inactive_alice
                 (parsed_request None alice_jar) empty_response 5000)
  = Threw (UnauthorizedException invalid_token_message).
Proof. reflexivity. Qed.

Definition session_request : Request :=
  request_from (Some inactive_alice) forged_jar.

Lemma session_first_short_circuit_witness :
  session_attached session_request = true
  ∧ requireAuth toy_mac "s3cret" None no_users session_request empty_response 5000
    = mkRun Next session_request empty_response [].
Proof.
  split; [reflexivity |].
  apply (proj1 (session_first_short_circuit toy_mac "s3cret" None no_users
                  session_request empty_response 5000) eq_refl).
Defined.

End AuthMiddleware.

(** ** config/passport.config.ts and controllers/auth.controller.ts *)

Module AuthController.
Section AuthController.

Variable mac : Algorithm → string → JoseHeader * Claims → string.
Variable SESSION_SECRET : string.
Variable NODE_ENV : string.

(** The arguments a strategy hands to [done], and the arguments Passport
    then hands to the callback given to [passport.authenticate]. *)
Record Verified : Type := mkVerified {
  v_err : option Exception;
  v_user : option UserDocument;
  v_info : option string;
}.

(** The verify function of the local strategy: the service's result, or
    [done(error, false, { message: error?.message })]. *)
Definition localStrategy (verify : result UserDocument) : Verified :=
  match verify with
  | Ok user => mkVerified None (Some user) None
  | Throw error => mkVerified (Some error) None (Some (message_of error))
  end.

(** Passport's dispatch of [done]: an error goes to the callback alone; a
    missing user is a failure, passed with its info; else success. *)
Definition passport_authenticate (d : Verified) : Verified :=
  match v_err d with
  | Some e => mkVerified (Some e) None None
  | None => mkVerified None (v_user d) (v_info d)
  end.

(** What a run of the login callback leaves: how it ended, the response,
    and the user for whom [req.logIn] established a login session in this
    run. *)
Record LoginRun : Type := mkLoginRun {
  login_outcome : Outcome;
  login_res : Response;
  login_session : option UserDocument;
}.

Definition default_login_message : string := "Invalid email or password".

(** The callback of [passport.authenticate("local", ...)] in
    [loginController]. [logIn_err] is the error [req.logIn] reports, if
    any; [now] is the clock read by the token signer. *)
Definition loginController (err : option Exception)
    (user : option UserDocument) (info : option string)
    (logIn_err : option Exception) (res : Response) (now : Z) : LoginRun :=
  match err with
  | Some e => mkLoginRun (NextError e) res None
  | None =>
      match user with
      | None =>
          let message :=
            match info with
            | Some m => if truthy m then m else default_login_message
            | None => default_login_message
            end in
          mkLoginRun Responded
            (res_status_json HTTP_UNAUTHORIZED (JsonMessage message) res) None
      | Some user =>
          match logIn_err with
          | Some e => mkLoginRun (NextError e) res None
          | None =>
              match setAuthCookies mac SESSION_SECRET NODE_ENV res
                      (mkPayload (user_id user) (user_email user) None) now with
              | Throw e => mkLoginRun (Threw e) res (Some user)
              | Ok res =>
                  mkLoginRun Responded
                    (res_status_json HTTP_OK
                       (JsonMessageUser "Logged in successfully" user) res)
                    (Some user)
              end
          end
      end
  end.

(** A login request from the strategy to the callback: the service
    verifies the credentials against the store, the local strategy reports
    to Passport, Passport calls the callback. *)
Definition login (compareValue : string → option string → bool)
    (email password : string) (logIn_err : option Exception)
    (db : Database) (res : Response) (now : Z) : LoginRun :=
  let verified :=
    passport_authenticate
      (localStrategy (fst (verifyUserService compareValue email password db))) in
  loginController (v_err verified) (v_user verified) (v_info verified)
    logIn_err res now.

(** The request as [logOutController] reads it: the id of the session
    object attached to it, if one is, and the attached user. *)
Record LogoutRequest : Type := mkLogoutRequest {
  lo_session : option string;
  lo_user : option UserDocument;
}.

(** The session store and the console. *)
Record Server : Type := mkServer {
  srv_sessions : gmap string UserDocument;
  srv_console : list string;
}.

Record LogoutRun : Type := mkLogoutRun {
  logout_outcome : Outcome;
  logout_req : LogoutRequest;
  logout_res : Response;
  logout_server : Server;
}.

(** [req.session.destroy(cb)] detaches the session object from the request
    and asks the store to drop it; [destroy_err] is the error the store
    reports, in which case the stored session stays. The controller is
    written for any session store. *)
Definition session_destroy (destroy_err : option Exception) (sid : string)
    (srv : Server) : Server :=
  match destroy_err with
  | Some err =>
      mkServer (srv_sessions srv)
        (srv_console srv ++ ["Session destruction error:"])
  | None => mkServer (delete sid (srv_sessions srv)) (srv_console srv)
  end.

Definition logOutController (destroy_err : option Exception)
    (req : LogoutRequest) (res : Response) (srv : Server) : LogoutRun :=
  let res := clearAuthCookies NODE_ENV res in
  let (req, srv) :=
    match lo_session req with
    | Some sid =>
        (mkLogoutRequest None (lo_user req), session_destroy destroy_err sid srv)
    | None => (req, srv)
    end in
  let req :=
    match lo_user req with
    | Some _ => mkLogoutRequest (lo_session req) None
    | None => req
    end in
  mkLogoutRun Responded req
    (res_status_json HTTP_OK (JsonMessage "Logged out successfully") res) srv.

(** *** Two logouts in a row, seen from outside *)

(** What can be observed: the browser's cookie jar and the session store. *)
Record World : Type := mkWorld {
  w_jar : gmap (string * string) CookieValue;
  w_sessions : gmap string UserDocument;
}.

(** A logout request of the browser whose session cookie names [sid]: the
    session layer attaches the session object and the user stored under
    it; the browser then applies the response's [Set-Cookie] headers. *)
Definition logout (destroy_err : option Exception) (sid : string) (w : World)
    : World :=
  let req := mkLogoutRequest (Some sid) (w_sessions w !! sid) in
  let r :=
    logOutController destroy_err req empty_response
      (mkServer (w_sessions w) []) in
  mkWorld (apply_headers (w_jar w) (res_headers (logout_res r)))
    (srv_sessions (logout_server r)).

(** index.ts gives [session({ ... })] no [store], so the sessions are kept
    by the [MemoryStore] of express-session, whose [destroy(sid, callback)]
    deletes the entry and calls back without an error. *)
Definition MemoryStore_destroy : option Exception := None.

(** A logout request as the application serves it. *)
Definition app_logout (sid : string) (w : World) : World :=
  logout MemoryStore_destroy sid w.

Definition cookies_absent (w : World) : Prop :=
  w_jar w !! ("auth_token", "/") = None ∧ w_jar w !! ("auth_user", "/") = None.

Definition session_absent (sid : string) (w : World) : Prop :=
  w_sessions w !! sid = None.

(** The local strategy hands a failed verification to Passport as an
    error, so it reaches the login callback as [err]. *)
Lemma failed_verification_reaches_callback_as_error e :
  passport_authenticate (localStrategy (Throw e)) = mkVerified (Some e) None None.
Proof. reflexivity. Qed.


Lemma clearAuthCookies_headers res :
  res_headers (clearAuthCookies NODE_ENV res)
  = res_headers res
    ++ [ClearCookie "auth_token" (clear_options NODE_ENV);
        ClearCookie "auth_user" (not_httpOnly (clear_options NODE_ENV))].
Proof. unfold clearAuthCookies, res_clearCookie. simpl. by rewrite <- app_assoc. Qed.

Lemma clearAuthCookies_jar jar res :
  let jar' := apply_headers jar (res_headers (clearAuthCookies NODE_ENV res)) in
  jar' !! ("auth_token", "/") = None ∧ jar' !! ("auth_user", "/") = None.
Proof.
  cbv zeta. rewrite clearAuthCookies_headers. unfold apply_headers.
  rewrite foldl_app. simpl. split.
  - rewrite lookup_delete_ne by done. apply lookup_delete_eq.
  - apply lookup_delete_eq.
Qed.

Lemma logOutController_res destroy_err req res srv :
  logout_res (logOutController destroy_err req res srv)
  = res_status_json HTTP_OK (JsonMessage "Logged out successfully")
      (clearAuthCookies NODE_ENV res).
Proof.
  unfold logOutController.
  destruct (lo_session req); simpl; destruct (lo_user req); reflexivity.
Qed.

Lemma logOutController_server destroy_err req res srv :
  logout_server (logOutController destroy_err req res srv)
  = match lo_session req with
    | Some sid => session_destroy destroy_err sid srv
    | None => srv
    end.
Proof.
  unfold logOutController.
  destruct (lo_session req); simpl; destruct (lo_user req); reflexivity.
Qed.

(** C8. Logout never fails: whatever the session store answers to the
    destroy, the controller ends by writing the response, with status 200
    and the success message, after appending the clearing headers for both
    credential cookies, so that neither stays in the browser's jar. When
    the destroy reports an error, the error is written to the console and
    nothing else changes: the outcome and the response are those of a
    destroy that succeeded. *)
Theorem logout_never_fails destroy_err req res srv :
  logout_outcome (logOutController destroy_err req res srv) = Responded
  ∧ res_status (logout_res (logOutController destroy_err req res srv))
    = Some HTTP_OK
  ∧ res_body (logout_res (logOutController destroy_err req res srv))
    = Some (JsonMessage "Logged out successfully")
  ∧ res_headers (logout_res (logOutController destroy_err req res srv))
    = res_headers res
      ++ [ClearCookie "auth_token" (clear_options NODE_ENV);
          ClearCookie "auth_user" (not_httpOnly (clear_options NODE_ENV))]
  ∧ (∀ jar,
       let jar' :=
         apply_headers jar
           (res_headers (logout_res (logOutController destroy_err req res srv))) in
       jar' !! ("auth_token", "/") = None ∧ jar' !! ("auth_user", "/") = None)
  ∧ lo_user (logout_req (logOutController destroy_err req res srv)) = None
  ∧ (∀ err sid,
       destroy_err = Some err → lo_session req = Some sid →
       srv_console (logout_server (logOutController destroy_err req res srv))
       = srv_console srv ++ ["Session destruction error:"]
       ∧ logout_outcome (logOutController destroy_err req res srv)
         = logout_outcome (logOutController None req res srv)
       ∧ logout_res (logOutController destroy_err req res srv)
         = logout_res (logOutController None req res srv)).
Proof.
  split; [| split; [| split; [| split; [| split; [| split]]]]].
  - unfold logOutController. by destruct (lo_session req).
  - by rewrite logOutController_res.
  - by rewrite logOutController_res.
  - rewrite logOutController_res. simpl. apply clearAuthCookies_headers.
  - intros jar. rewrite logOutController_res. simpl. apply clearAuthCookies_jar.
  - unfold logOutController.
    destruct (lo_session req); simpl; by destruct (lo_user req) eqn:E.
  - intros err sid -> Hsid. rewrite !logOutController_res.
    rewrite logOutController_server, Hsid. simpl.
    split; [done |]. split; [| done].
    unfold logOutController. rewrite Hsid. done.
Qed.

Lemma logout_jar_eq destroy_err sid w :
  w_jar (logout destroy_err sid w)
  = delete ("auth_user", "/") (delete ("auth_token", "/") (w_jar w)).
Proof.
  unfold logout. cbn [w_jar]. rewrite logOutController_res.
  cbn [res_headers res_status_json]. by rewrite clearAuthCookies_headers.
Qed.

Lemma logout_jar destroy_err sid w :
  cookies_absent (logout destroy_err sid w).
Proof.
  unfold cookies_absent. rewrite logout_jar_eq. split.
  - rewrite lookup_delete_ne by done. apply lookup_delete_eq.
  - apply lookup_delete_eq.
Qed.

Lemma logout_sessions destroy_err sid w :
  w_sessions (logout destroy_err sid w)
  = match destroy_err with
    | Some _ => w_sessions w
    | None => delete sid (w_sessions w)
    end.
Proof.
  unfold logout. cbn [w_sessions]. rewrite logOutController_server.
  cbn [lo_session]. by destruct destroy_err.
Qed.

Lemma clear_twice (jar : gmap (string * string) CookieValue) :
  delete ("auth_user", "/")
    (delete ("auth_token", "/")
       (delete ("auth_user", "/") (delete ("auth_token", "/") jar)))
  = delete ("auth_user", "/") (delete ("auth_token", "/") jar).
Proof.
  apply map_eq. intros k. rewrite !lookup_delete.
  repeat case_decide; done.
Qed.

Lemma World_eq (w w' : World) :
  w_jar w = w_jar w' → w_sessions w = w_sessions w' → w = w'.
Proof. destruct w, w'. simpl. by intros -> ->. Qed.

(** For any session store: after one logout both credential cookies are
    absent from the browser, and a second logout leaves the cookie jar as
    the first left it, whatever the store answers. When the first destroy
    succeeded the session is absent too, and a second logout, arriving
    with the same session id or with one the store does not hold, changes
    nothing that can be observed. *)
Lemma logout_twice_same_as_once first second sid sid' w :
  cookies_absent (logout first sid w)
  ∧ w_jar (logout second sid' (logout first sid w)) = w_jar (logout first sid w)
  ∧ (first = None →
     w_sessions (logout first sid w) !! sid' = None →
     session_absent sid (logout first sid w)
     ∧ logout second sid' (logout first sid w) = logout first sid w).
Proof.
  split; [apply logout_jar | split].
  - rewrite !logout_jar_eq. apply clear_twice.
  - intros -> Hfresh. split.
    + unfold session_absent. rewrite logout_sessions. apply lookup_delete_eq.
    + apply World_eq.
      * rewrite !logout_jar_eq. apply clear_twice.
      * rewrite (logout_sessions second). destruct second; [done |].
        by apply delete_id.
Qed.

(** C9. Logging out twice in a row leaves what logging out once leaves:
    both credential cookies absent from the browser and the session absent
    from the store. The second request may carry the same session id or,
    as the session layer gives it a new session, one the store does not
    hold. *)
Theorem logout_is_idempotent sid w :
  app_logout sid (app_logout sid w) = app_logout sid w
  ∧ cookies_absent (app_logout sid w)
  ∧ session_absent sid (app_logout sid w)
  ∧ ∀ sid', w_sessions (app_logout sid w) !! sid' = None →
            app_logout sid' (app_logout sid w) = app_logout sid w.
Proof.
  unfold app_logout, MemoryStore_destroy.
  assert (∀ sid', w_sessions (logout None sid w) !! sid' = None →
                  logout None sid' (logout None sid w) = logout None sid w) as Hfresh.
  { intros sid' Hnone. apply World_eq.
    - rewrite !logout_jar_eq. apply clear_twice.
    - rewrite (logout_sessions None sid'). by apply delete_id. }
  assert (session_absent sid (logout None sid w)) as Habsent.
  { unfold session_absent. rewrite logout_sessions. apply lookup_delete_eq. }
  split; [by apply Hfresh |]. split; [apply logout_jar |]. split; done.
Qed.

(** A login attempt whose verification produced no user issues no
    credentials: no login session is established and no header is added to
    the response. If Passport reported no error the callback answers 401
    with a message; if it reported one, the callback hands the error to
    [next] and writes nothing. In every run, a header is added to the
    response only after [req.logIn] has succeeded for a verified user. *)
Lemma failed_login_issues_no_credentials err user info logIn_err res now :
  (user = None →
   login_session (loginController err user info logIn_err res now) = None
   ∧ res_headers (login_res (loginController err user info logIn_err res now))
     = res_headers res
   ∧ (err = None →
      login_outcome (loginController err user info logIn_err res now) = Responded
      ∧ res_status (login_res (loginController err user info logIn_err res now))
        = Some HTTP_UNAUTHORIZED)
   ∧ (∀ e, err = Some e →
           loginController err user info logIn_err res now
           = mkLoginRun (NextError e) res None))
  ∧ (res_headers (login_res (loginController err user info logIn_err res now))
     ≠ res_headers res →
     err = None ∧ logIn_err = None
     ∧ ∃ u, user = Some u
            ∧ login_session (loginController err user info logIn_err res now)
              = Some u).
Proof.
  split.
  - intros ->. unfold loginController. destruct err as [e|]; simpl.
    + split; [done |]. split; [done |]. split; [done |]. by intros ? [= <-].
    + done.
  - unfold loginController. destruct err as [e|]; simpl; [done |].
    destruct user as [u|]; simpl; [| done].
    destruct logIn_err as [e|]; simpl; [done |].
    destruct (setAuthCookies _ _ _ _ _ _) as [res'|e]; simpl; [| done].
    intros _. split; [done |]. split; [done |]. by exists u.
Qed.

End AuthController.

(** *** Running the controllers *)

Definition alice : UserDocument :=
  mkUser "u-alice" "alice@example.com" "Alice" None true (Some "w-alice").

Definition logged_in : World :=
  mkWorld
    {[ ("auth_token", "/") := TokenValue alice_token;
       ("auth_user", "/") := UserJson "u-alice" "alice@example.com" None ]}
    {[ "sid-1" := alice ]}.

Definition store_down : Exception := PlainError "store unavailable".

Example login_success :
  loginController toy_mac "s3cret" "development" None (Some alice) None None
    empty_response 1000
  = mkLoginRun Responded
      (mkResponse
         [SetCookie "auth_token" (TokenValue alice_token)
            (mkCookieOptions true false SameSiteLax (Some 86400000%Z) "/");
          SetCookie "auth_user" (UserJson "u-alice" "alice@example.com" None)
            (mkCookieOptions false false SameSiteLax (Some 86400000%Z) "/")]
         (Some 200%N) (Some (JsonMessageUser "Logged in successfully" alice)))
      (Some alice).
Proof. reflexivity. Qed.

Example login_missing_credentials :
  loginController toy_mac "s3cret" "development" None None
    (Some "Missing credentials") None empty_response 1000
  = mkLoginRun Responded
      (mkResponse [] (Some 401%N) (Some (JsonMessage "Missing credentials")))
      None.
Proof. reflexivity. Qed.

Definition toy_compare (password : string) (hash : option string) : bool :=
  match hash with
  | Some h => String.eqb h (String.append "hash-" password)
  | None => false
  end.

Example verify_alice :
  fst (verifyUserService toy_compare "alice@example.com" "a" Membership.two_users)
  = Ok (mkUser "u-alice" "alice@example.com" "Alice" None true (Some "w-alice")).
Proof. reflexivity. Qed.

Example login_wrong_password :
  login toy_mac "s3cret" "development" toy_compare "alice@example.com" "guess"
    None Membership.two_users empty_response 1000
  = mkLoginRun (NextError (UnauthorizedException "Invalid email or password"))
      empty_response None.
Proof. reflexivity. Qed.

Example login_unknown_email :
  login toy_mac "s3cret" "development" toy_compare "carol@example.com" "c"
    None Membership.two_users empty_response 1000
  = mkLoginRun (NextError (NotFoundException "Invalid email or password"))
      empty_response None.
Proof. reflexivity. Qed.

Definition store_lost : Exception := MongoServerError "connection lost".

(** The verification fails because the store cannot be read: the strategy
    reports the error, the callback receives it as [err] with no user, and
    hands it to [next]; it writes no status. *)
Example login_error_is_forwarded :
  passport_authenticate (localStrategy (Throw store_lost))
  = mkVerified (Some store_lost) None None
  ∧ loginController toy_mac "s3cret" "development" (Some store_lost) None None
      None empty_response 1000
    = mkLoginRun (NextError store_lost) empty_response None
  ∧ res_status
      (login_res
         (loginController toy_mac "s3cret" "development" (Some store_lost) None
            None None empty_response 1000))
    ≠ Some HTTP_UNAUTHORIZED.
Proof. split; [reflexivity | split; [reflexivity | discriminate]]. Qed.

Example login_without_user_issues_nothing :
  login_session
    (loginController toy_mac "s3cret" "development" None None
       (Some "Missing credentials") None empty_response 1000) = None
  ∧ res_headers
      (login_res
         (loginController toy_mac "s3cret" "development" None None
            (Some "Missing credentials") None empty_response 1000)) = [].
Proof.
  pose proof (proj1 (failed_login_issues_no_credentials toy_mac "s3cret"
                       "development" None None (Some "Missing credentials") None
                       empty_response 1000) eq_refl) as (Hs & Hh & _).
  split; [exact Hs | exact Hh].
Qed.

Example logout_store_down :
  logOutController "development" (Some store_down)
    (mkLogoutRequest (Some "sid-1") (Some alice)) empty_response
    (mkServer {[ "sid-1" := alice ]} [])
  = mkLogoutRun Responded (mkLogoutRequest None None)
      (mkResponse
         [ClearCookie "auth_token" (mkCookieOptions true false SameSiteLax None "/");
          ClearCookie "auth_user" (mkCookieOptions false false SameSiteLax None "/")]
         (Some 200%N) (Some (JsonMessage "Logged out successfully")))
      (mkServer {[ "sid-1" := alice ]} ["Session destruction error:"]).
Proof. reflexivity. Qed.

Lemma logout_never_fails_witness :
  srv_console
    (logout_server
       (logOutController "development" (Some store_down)
          (mkLogoutRequest (Some "sid-1") (Some alice)) empty_response
          (mkServer {[ "sid-1" := alice ]} [])))
  = ["Session destruction error:"]
  ∧ res_status
      (logout_res
         (logOutController "development" (Some store_down)
            (mkLogoutRequest (Some "sid-1") (Some alice)) empty_response
            (mkServer {[ "sid-1" := alice ]} [])))
    = Some HTTP_OK.
Proof.
  pose proof (logout_never_fails "development" (Some store_down)
                (mkLogoutRequest (Some "sid-1") (Some alice)) empty_response
                (mkServer {[ "sid-1" := alice ]} [])) as (_ & Hst & _ & _ & _ & _ & Herr).
  split; [| exact Hst].
  exact (proj1 (Herr store_down "sid-1" eq_refl eq_refl)).
Defined.

(** With a session store whose destroy can fail, which the store that
    index.ts configures cannot: the store fails the first destroy and
    serves the second, so that after one logout the session is still
    stored and after two it is gone. *)
Example logout_twice_differs_when_destroy_fails :
  w_sessions (logout "development" (Some store_down) "sid-1" logged_in) !! "sid-1"
  = Some alice
  ∧ w_sessions
      (logout "development" None "sid-1"
         (logout "development" (Some store_down) "sid-1" logged_in)) !! "sid-1"
    = None
  ∧ logout "development" None "sid-1"
      (logout "development" (Some store_down) "sid-1" logged_in)
    ≠ logout "development" (Some store_down) "sid-1" logged_in.
Proof.
  assert (w_sessions (logout "development" (Some store_down) "sid-1" logged_in)
            !! "sid-1" = Some alice) as H1 by reflexivity.
  assert (w_sessions
            (logout "development" None "sid-1"
               (logout "development" (Some store_down) "sid-1" logged_in))
            !! "sid-1" = None) as H2 by reflexivity.
  split; [exact H1 | split; [exact H2 |]].
  intros Heq. rewrite Heq in H2. rewrite H1 in H2. discriminate.
Qed.

Example logout_twice :
  w_sessions
    (app_logout "development" "sid-1" (app_logout "development" "sid-1" logged_in))
    !! "sid-1" = None
  ∧ w_jar
      (app_logout "development" "sid-1" (app_logout "development" "sid-1" logged_in))
      !! ("auth_token", "/") = None
  ∧ w_jar
      (app_logout "development" "sid-1" (app_logout "development" "sid-1" logged_in))
      !! ("auth_user", "/") = None.
Proof. repeat split. Qed.

End AuthController.

(** ** What the services guarantee to their callers *)

Module ServiceProperties.
Import Membership.

(** *** Lookups in a collection that has just been written *)

Lemma find_snoc_new {A} (f : A → bool) (l : list A) (x : A) :
  (∀ d, d ∈ l → f d = false) → f x = true → find f (l ++ [x]) = Some x.
Proof.
  intros Hold Hx. induction l as [|d l IH]; simpl.
  - by rewrite Hx.
  - rewrite (Hold d) by (by left). apply IH. intros d' Hd'. apply Hold. by right.
Qed.

Lemma find_snoc_old {A} (f : A → bool) (l : list A) (x y : A) :
  find f l = Some y → find f (l ++ [x]) = Some y.
Proof.
  induction l as [|d l IH]; simpl; [discriminate |].
  destruct (f d); [done | apply IH].
Qed.

Lemma find_snoc_is_Some {A} (f : A → bool) (l : list A) (x : A) :
  f x = true → is_Some (find f (l ++ [x])).
Proof.
  intros Hx. induction l as [|d l IH]; simpl.
  - rewrite Hx. by eexists.
  - destruct (f d); [by eexists | done].
Qed.

Lemma find_by_id_distinct {A} (id_of : A → ObjectId) (l : list A) (x : A) :
  NoDup (id_of <$> l) → x ∈ l →
  find (λ d, String.eqb (id_of d) (id_of x)) l = Some x.
Proof.
  intros Hnd Hx.
  destruct (find_is_Some (λ d, String.eqb (id_of d) (id_of x)) l x Hx
              (String.eqb_refl _)) as [y Hy].
  rewrite Hy. f_equal.
  apply find_Some_elem in Hy as [Hyl Heq]. apply String.eqb_eq in Heq.
  by apply (NoDup_fmap_inj_on id_of l).
Qed.

(** Replacing a document in place keeps it the answer of a query that found
    the old one, when the new one still matches. *)
Lemma find_replace {A} (f : A → bool) (g : A → A) (l : list A) (m m' : A) :
  find f l = Some m → g m = m' → f m' = true →
  (∀ d, g d = d ∨ g d = m') →
  find f (map g l) = Some m'.
Proof.
  intros Hfind Hg Hm' Hcases. induction l as [|d l IH]; simpl in *; [discriminate |].
  destruct (f d) eqn:Ed.
  - injection Hfind as ->. by rewrite Hg, Hm'.
  - destruct (Hcases d) as [->| ->].
    + rewrite Ed. by apply IH.
    + by rewrite Hm'.
Qed.

Lemma find_role_by_name name roles r :
  find (λ d, String.eqb (role_name d) name) roles = Some r →
  r ∈ roles ∧ role_name r = name.
Proof.
  intros H. apply find_Some_elem in H as [Hin Heq].
  by apply String.eqb_eq in Heq.
Qed.

(** [.populate("role")] on a membership that stores the id of a role found
    in the collection gives that role back, when role ids are distinct. *)
Lemma populate_found_role roles r :
  NoDup (role_id <$> roles) → r ∈ roles →
  find (λ d, String.eqb (role_id d) (role_id r)) roles = Some r.
Proof. apply (find_by_id_distinct role_id). Qed.

(** *** Joining by invite code *)

Lemma join_cases newId userId inviteCode db :
  (∃ e, joinWorkspaceByInviteService newId userId inviteCode db = (Throw e, db))
  ∨ (∃ w r,
       find (λ d, String.eqb (ws_inviteCode d) inviteCode) (db_workspaces db)
       = Some w
       ∧ no_membership db userId (ws_id w)
       ∧ find (λ d, String.eqb (role_name d) Roles_MEMBER) (db_roles db) = Some r
       ∧ joinWorkspaceByInviteService newId userId inviteCode db
         = (Ok (ws_id w, role_name r),
            set_members
              (db_members db ++ [mkMember newId userId (ws_id w) (role_id r)])
              db)).
Proof.
  unfold joinWorkspaceByInviteService. svc_unfold.
  destruct (find _ (db_workspaces db)) as [w|] eqn:Ew; simpl; [| by left; eexists].
  destruct (find _ (db_members db)) as [m|] eqn:Em; simpl; [by left; eexists |].
  destruct (find _ (db_roles db)) as [r|] eqn:Er; simpl; [| by left; eexists].
  destruct (insert_unique _ _ _) as [c|e] eqn:Ei; simpl; [| by left; eexists].
  apply insert_unique_Ok in Ei as [-> _].
  right. exists w, r. split; [done |]. split; [| done].
  by apply findOne_member_None.
Qed.

(** A join either throws and leaves the store as it was, or appends exactly
    one member row: the caller, in the workspace that owns the invite
    code, with the role named MEMBER; the caller had no row there. *)
Theorem join_adds_one_row_or_nothing newId userId inviteCode db :
  (∃ e, joinWorkspaceByInviteService newId userId inviteCode db = (Throw e, db))
  ∨ (∃ w r,
       find (λ d, String.eqb (ws_inviteCode d) inviteCode) (db_workspaces db)
       = Some w
       ∧ no_membership db userId (ws_id w)
       ∧ find (λ d, String.eqb (role_name d) Roles_MEMBER) (db_roles db) = Some r
       ∧ joinWorkspaceByInviteService newId userId inviteCode db
         = (Ok (ws_id w, role_name r),
            set_members
              (db_members db ++ [mkMember newId userId (ws_id w) (role_id r)])
              db)).
Proof. apply join_cases. Qed.

(** After a join that returned, the role resolver answers MEMBER for the
    caller in the joined workspace (role ids being distinct, as the [_id]
    index makes them). *)
Theorem join_then_role_is_member newId userId inviteCode db wid roleName db' :
  NoDup (role_id <$> db_roles db) →
  joinWorkspaceByInviteService newId userId inviteCode db
  = (Ok (wid, roleName), db') →
  roleName = Roles_MEMBER
  ∧ getMemberRoleInWorkspace userId wid db' = (Ok (Some Roles_MEMBER), db').
Proof.
  intros Hroles Hjoin.
  destruct (join_cases newId userId inviteCode db)
    as [[e He]|(w & r & Hw & Hno & Hr & Hok)]; [congruence |].
  rewrite Hok in Hjoin. injection Hjoin as <- <- <-.
  apply find_role_by_name in Hr as [Hrin Hname].
  split; [done |].
  apply find_Some_elem in Hw as [Hwin _].
  unfold getMemberRoleInWorkspace. svc_unfold.
  destruct (find_is_Some (λ d, String.eqb (ws_id d) (ws_id w))
              (db_workspaces db) w Hwin (String.eqb_refl _)) as [w' ->].
  simpl.
  rewrite (find_snoc_new (is_member_of userId (ws_id w)) (db_members db)
             (mkMember newId userId (ws_id w) (role_id r))).
  - simpl. rewrite (populate_found_role _ r Hroles Hrin). simpl. by rewrite Hname.
  - intros d Hd. destruct (is_member_of userId (ws_id w) d) eqn:E; [| done].
    apply is_member_of_true in E. destruct Hno.
    apply list_elem_of_fmap. eauto.
  - apply is_member_of_true. reflexivity.
Qed.

Definition alice_and_bob : Database :=
  run [ RegisterUser fresh_alice "alice@example.com" "Alice" "hash-a";
        RegisterUser fresh_bob "bob@example.com" "Bob" "hash-b" ]
      (initial seeded_roles).

Lemma seeded_role_ids_distinct : NoDup (role_id <$> db_roles alice_and_bob).
Proof. apply (bool_decide_unpack _). vm_compute. exact I. Qed.

Lemma join_then_role_is_member_witness :
  NoDup (role_id <$> db_roles alice_and_bob)
  ∧ joinWorkspaceByInviteService "m-bob-2" "u-bob" "inv-alice" alice_and_bob
    = (Ok ("w-alice", "MEMBER"), two_users)
  ∧ getMemberRoleInWorkspace "u-bob" "w-alice" two_users
    = (Ok (Some "MEMBER"), two_users).
Proof.
  split; [exact seeded_role_ids_distinct | split; [reflexivity |]].
  apply (join_then_role_is_member "m-bob-2" "u-bob" "inv-alice" alice_and_bob
           "w-alice" "MEMBER" two_users seeded_role_ids_distinct eq_refl).
Defined.

(** *** Registration and verification *)

Lemma replace_by_id_snoc_fresh {A} (id_of : A → ObjectId) (l : list A) (x x' : A) :
  (∀ d, d ∈ l → id_of d ≠ id_of x) → id_of x' = id_of x →
  replace_by_id id_of x' (l ++ [x]) = l ++ [x'].
Proof.
  intros Hfresh Hid. unfold replace_by_id. rewrite map_app. simpl.
  rewrite Hid, String.eqb_refl. f_equal.
  induction l as [|d l IH]; simpl; [done |].
  rewrite IH by (intros d' Hd'; apply Hfresh; by right).
  destruct (String.eqb (id_of d) (id_of x)) eqn:E; [| done].
  apply String.eqb_eq in E. destruct (Hfresh d); [by left | done].
Qed.

Lemma trim_My_Workspace : String_trim "My Workspace" = "My Workspace".
Proof. reflexivity. Qed.

Lemma register_Ok_inv fr email name hashed db r db' :
  registerUserService fr email name hashed db = (Ok r, db') →
  ∃ ownerRole,
    find (λ u, String.eqb (user_email u) (userSchema_email email)) (db_users db)
    = None
    ∧ (∀ d, d ∈ db_users db → user_id d ≠ fresh_user fr)
    ∧ (∀ d, d ∈ db_accounts db → account_providerId d ≠ email)
    ∧ (∀ d, d ∈ db_workspaces db → ws_id d ≠ fresh_workspace fr)
    ∧ find (λ d, String.eqb (role_name d) Roles_OWNER) (db_roles db) = Some ownerRole
    ∧ r = (fresh_user fr, fresh_workspace fr)
    ∧ db' = mkDatabase
              (db_users db ++ [mkUser (fresh_user fr) (userSchema_email email)
                                 (String_trim name) (Some hashed) true
                                 (Some (fresh_workspace fr))])
              (db_accounts db ++ [mkAccount (fresh_account fr) (fresh_user fr)
                                    ProviderEnum_EMAIL email])
              (db_workspaces db ++ [mkWorkspace (fresh_workspace fr) "My Workspace"
                                      (fresh_user fr) (fresh_inviteCode fr)])
              (db_roles db)
              (db_members db ++ [mkMember (fresh_member fr) (fresh_user fr)
                                   (fresh_workspace fr) (role_id ownerRole)]).
Proof.
  unfold registerUserService, transaction, create_first_workspace. svc_unfold.
  destruct (find _ (db_users db)) as [u|] eqn:Eu; simpl; [discriminate |].
  destruct (String.eqb (userSchema_email email) ""); simpl; [discriminate |].
  destruct (insert_unique _ _ (db_users db)) as [c|e] eqn:Iu; simpl; [| discriminate].
  destruct (String.eqb email ""); simpl; [discriminate |].
  destruct (insert_unique _ _ (db_accounts db)) as [c1|e] eqn:Ia; simpl; [| discriminate].
  destruct (insert_unique _ _ (db_workspaces db)) as [c2|e] eqn:Iw; simpl; [| discriminate].
  destruct (find _ (db_roles db)) as [r0|] eqn:Er; simpl; [| discriminate].
  destruct (insert_unique _ _ (db_members db)) as [c3|e] eqn:Im; simpl; [| discriminate].
  apply insert_unique_Ok in Iu as [-> Hu].
  apply insert_unique_Ok in Ia as [-> Ha].
  apply insert_unique_Ok in Iw as [-> Hw].
  apply insert_unique_Ok in Im as [-> Hm].
  intros [= <- <-]. exists r0.
  split; [done |]. split; [| split; [| split; [| split; [done | split; [done |]]]]].
  - intros d Hd Heq. specialize (Hu d Hd). simpl in Hu.
    apply orb_false_iff in Hu as [Hu _]. rewrite Heq, String.eqb_refl in Hu. done.
  - intros d Hd Heq. specialize (Ha d Hd). simpl in Ha.
    apply orb_false_iff in Ha as [_ Ha]. rewrite Heq, String.eqb_refl in Ha. done.
  - intros d Hd Heq. specialize (Hw d Hd). simpl in Hw.
    apply orb_false_iff in Hw as [Hw _]. rewrite Heq, String.eqb_refl in Hw. done.
  - unfold set_members, set_workspaces, set_accounts, set_users. simpl. f_equal.
    apply (replace_by_id_snoc_fresh user_id (db_users db)
             (mkUser (fresh_user fr) (userSchema_email email) (String_trim name)
                (Some hashed) true None)); [| done].
    intros d Hd Heq. specialize (Hu d Hd). simpl in Hu.
    apply orb_false_iff in Hu as [Hu _]. rewrite Heq, String.eqb_refl in Hu. done.
Qed.

(** Registration is all or nothing: either it throws and the store is as
    before, or it returns and the store has exactly one more user, account,
    workspace and member row, and the same roles. *)
Theorem register_all_or_nothing fr email name hashed db :
  (∃ e, registerUserService fr email name hashed db = (Throw e, db))
  ∨ (∃ r db', registerUserService fr email name hashed db = (Ok r, db')
              ∧ length (db_users db') = S (length (db_users db))
              ∧ length (db_accounts db') = S (length (db_accounts db))
              ∧ length (db_workspaces db') = S (length (db_workspaces db))
              ∧ length (db_members db') = S (length (db_members db))
              ∧ db_roles db' = db_roles db).
Proof.
  destruct (registerUserService fr email name hashed db) as [[r|e] db'] eqn:E.
  - right. exists r, db'. split; [done |].
    apply register_Ok_inv in E as (o & _ & _ & _ & _ & _ & _ & ->). simpl.
    rewrite !length_app. simpl. repeat split; lia.
  - left. exists e. unfold registerUserService, transaction in E.
    destruct (sbind _ _ db) as [[r|e'] db'']; congruence.
Qed.

(** After a registration that returned [(uid, wid)], the role resolver
    answers OWNER for [uid] in [wid], and the stored user has [wid] as its
    current workspace; it is stored with the email trimmed and in lower
    case and the name trimmed, as the schema's setters leave them. *)
Theorem register_then_owner fr email name hashed db uid wid db' :
  consistent db →
  NoDup (role_id <$> db_roles db) →
  registerUserService fr email name hashed db = (Ok (uid, wid), db') →
  getMemberRoleInWorkspace uid wid db' = (Ok (Some Roles_OWNER), db')
  ∧ UserModel_findById uid db'
    = (Ok (Some (mkUser uid (String_trim (String_toLowerCase email))
                   (String_trim name) (Some hashed) true (Some wid))), db').
Proof.
  intros Hc Hroles Hreg.
  apply register_Ok_inv in Hreg as (o & _ & Hu & _ & Hw & Ho & [= -> ->] & ->).
  apply find_role_by_name in Ho as [Hoin Hname].
  split.
  - unfold getMemberRoleInWorkspace. svc_unfold.
    destruct (find_snoc_is_Some (λ d, String.eqb (ws_id d) (fresh_workspace fr))
                (db_workspaces db)
                (mkWorkspace (fresh_workspace fr) "My Workspace" (fresh_user fr)
                   (fresh_inviteCode fr)) (String.eqb_refl _)) as [w' ->].
    simpl.
    rewrite (find_snoc_new (is_member_of (fresh_user fr) (fresh_workspace fr))
               (db_members db)
               (mkMember (fresh_member fr) (fresh_user fr) (fresh_workspace fr)
                  (role_id o))).
    + simpl. rewrite (populate_found_role _ o Hroles Hoin). simpl. by rewrite Hname.
    + intros d Hd. destruct (is_member_of _ _ d) eqn:E; [| done].
      apply is_member_of_true in E.
      destruct (unreferenced_workspace db (fresh_workspace fr) (fresh_user fr) Hc Hw).
      apply list_elem_of_fmap. eauto.
    + apply is_member_of_true. reflexivity.
  - unfold UserModel_findById. simpl. f_equal. f_equal.
    apply find_snoc_new; [| apply String.eqb_refl].
    intros d Hd. apply String.eqb_neq. by apply Hu.
Qed.

(** An email registers once: after a registration that returned, every
    further registration with that email throws [BadRequestException] and
    writes nothing. *)
Theorem register_same_email_rejected fr email name hashed db r db' fr' name' hashed' :
  registerUserService fr email name hashed db = (Ok r, db') →
  registerUserService fr' email name' hashed' db'
  = (Throw (BadRequestException "Email already exists"), db').
Proof.
  intros Hreg.
  apply register_Ok_inv in Hreg as (o & _ & _ & _ & _ & _ & _ & ->).
  unfold registerUserService, transaction. svc_unfold.
  destruct (find_snoc_is_Some
              (λ u, String.eqb (user_email u) (userSchema_email email))
              (db_users db)
              (mkUser (fresh_user fr) (userSchema_email email) (String_trim name)
                 (Some hashed) true (Some (fresh_workspace fr)))
              (String.eqb_refl _)) as [u ->].
  done.
Qed.

(** After a registration that returned, verifying the email as it was
    typed at registration succeeds exactly when the password matches the
    stored hash, and then returns the new user without its password, with
    the email trimmed and in lower case and the name trimmed; otherwise it
    throws [UnauthorizedException]. *)
Theorem register_then_verify compareValue fr email name hashed db r db' password :
  registerUserService fr email name hashed db = (Ok r, db') →
  verifyUserService compareValue email password db'
  = (if compareValue password (Some hashed)
     then Ok (mkUser (fresh_user fr) (String_trim (String_toLowerCase email))
                (String_trim name) None true (Some (fresh_workspace fr)))
     else Throw (UnauthorizedException "Invalid email or password"),
     db').
Proof.
  intros Hreg.
  apply register_Ok_inv in Hreg as (o & _ & Hu & Ha & _ & _ & _ & ->).
  unfold verifyUserService. svc_unfold.
  rewrite (find_snoc_new _ (db_accounts db)
             (mkAccount (fresh_account fr) (fresh_user fr) ProviderEnum_EMAIL email)).
  - simpl.
    rewrite (find_snoc_new (λ u, String.eqb (user_id u) (fresh_user fr))
               (db_users db)
               (mkUser (fresh_user fr) (userSchema_email email) (String_trim name)
                  (Some hashed) true (Some (fresh_workspace fr)))).
    + simpl. by destruct (compareValue password (Some hashed)).
    + intros d Hd. apply String.eqb_neq. by apply Hu.
    + apply String.eqb_refl.
  - intros d Hd. apply andb_false_iff. right. apply String.eqb_neq. by apply Ha.
  - simpl. by rewrite String.eqb_refl.
Qed.

(** Verification never writes, and a user it returns has no password field
    and is the stored user of an EMAIL account with that address whose
    stored hash the password matched. *)
Theorem verifyUser_reads_only compareValue email password db :
  snd (verifyUserService compareValue email password db) = db
  ∧ ∀ user,
      fst (verifyUserService compareValue email password db) = Ok user →
      user_password user = None
      ∧ ∃ account stored,
          account ∈ db_accounts db
          ∧ account_provider account = ProviderEnum_EMAIL
          ∧ account_providerId account = email
          ∧ stored ∈ db_users db
          ∧ user_id stored = account_userId account
          ∧ compareValue password (user_password stored) = true
          ∧ user = omitPassword stored.
Proof.
  unfold verifyUserService. svc_unfold.
  destruct (find _ (db_accounts db)) as [a|] eqn:Ea; simpl; [| done].
  destruct (find _ (db_users db)) as [u|] eqn:Eu; simpl; [| done].
  destruct (compareValue password (user_password u)) eqn:Ec; simpl; [| done].
  split; [done |]. intros user [= <-]. split; [done |].
  apply find_Some_elem in Ea as [Ha Hp]. apply andb_true_iff in Hp as [Hp1 Hp2].
  apply String.eqb_eq in Hp1, Hp2.
  apply find_Some_elem in Eu as [Hu Hid]. apply String.eqb_eq in Hid.
  exists a, u. done.
Qed.

(** For a caller and an owner role that are stored, the service is its
    three saves in a row. *)
Lemma createWorkspace_found fr answers userId name db u o :
  find (λ d, String.eqb (user_id d) userId) (db_users db) = Some u →
  find (λ d, String.eqb (role_name d) Roles_OWNER) (db_roles db) = Some o →
  createWorkspaceService fr answers userId name db
  = (let workspace :=
       mkWorkspace (fresh_workspace fr) (String_trim name) userId
         (fresh_inviteCode fr) in
     answered (workspace_save answers) (WorkspaceModel_insert workspace) >>!
     answered (member_save answers)
       (MemberModel_insert
          (mkMember (fresh_member fr) userId (fresh_workspace fr) (role_id o))) >>!
     answered (user_save answers)
       (UserModel_save
          (mkUser (user_id u) (user_email u) (user_name u) (user_password u)
             (user_isActive u) (Some (fresh_workspace fr)))) >>!
     ret workspace) db.
Proof.
  intros Eu Eo. unfold createWorkspaceService.
  unfold sbind at 1. unfold UserModel_findById. rewrite Eu.
  unfold sbind at 1. unfold RoleModel_findOne_name. rewrite Eo.
  apply find_Some_elem in Eu as [_ Huid]. apply String.eqb_eq in Huid.
  by rewrite Huid.
Qed.

(** What [createWorkspaceService] leaves, save by save. *)
Lemma createWorkspace_steps fr answers userId name db u o :
  find (λ d, String.eqb (user_id d) userId) (db_users db) = Some u →
  find (λ d, String.eqb (role_name d) Roles_OWNER) (db_roles db) = Some o →
  let workspace :=
    mkWorkspace (fresh_workspace fr) (String_trim name) userId
      (fresh_inviteCode fr) in
  let member :=
    mkMember (fresh_member fr) userId (fresh_workspace fr) (role_id o) in
  let db1 := set_workspaces (db_workspaces db ++ [workspace]) db in
  let db2 := set_members (db_members db ++ [member]) db1 in
  (∃ e, createWorkspaceService fr answers userId name db = (Throw e, db))
  ∨ (String_trim name ≠ ""
     ∧ (∀ d, d ∈ db_workspaces db → ws_id d ≠ fresh_workspace fr)
     ∧ ((∃ e, createWorkspaceService fr answers userId name db = (Throw e, db1))
        ∨ (∃ e, user_save answers = Some e
                ∧ createWorkspaceService fr answers userId name db
                  = (Throw e, db2))
        ∨ createWorkspaceService fr answers userId name db
          = (Ok workspace,
             set_users
               (replace_by_id user_id
                  (mkUser (user_id u) (user_email u) (user_name u)
                     (user_password u) (user_isActive u)
                     (Some (fresh_workspace fr)))
                  (db_users db)) db2))).
Proof.
  intros Eu Eo. cbv zeta. rewrite (createWorkspace_found _ _ _ _ _ u o Eu Eo).
  cbv zeta. unfold sbind, ret.
  destruct (answered_cases (workspace_save answers)
              (WorkspaceModel_insert
                 (mkWorkspace (fresh_workspace fr) (String_trim name) userId
                    (fresh_inviteCode fr))) db)
    as [(e & _ & Hw)|[_ Hw]]; rewrite Hw; [left; by eexists |].
  destruct (WorkspaceModel_insert_cases
              (mkWorkspace (fresh_workspace fr) (String_trim name) userId
                 (fresh_inviteCode fr)) db)
    as [[e Hi]|(Hi & Hname & Hfresh)]; rewrite Hi; [left; by eexists |].
  right. split; [done |]. split.
  { intros d Hd Heq. specialize (Hfresh d Hd). simpl in Hfresh.
    apply orb_false_iff in Hfresh as [Hne _].
    rewrite Heq, String.eqb_refl in Hne. discriminate. }
  set (db1 := set_workspaces _ db).
  destruct (answered_cases (member_save answers)
              (MemberModel_insert
                 (mkMember (fresh_member fr) userId (fresh_workspace fr)
                    (role_id o))) db1)
    as [(e & _ & Hm)|[_ Hm]]; rewrite Hm; [left; by eexists |].
  destruct (MemberModel_insert_cases
              (mkMember (fresh_member fr) userId (fresh_workspace fr) (role_id o))
              db1) as [[e Hj]|[Hj _]]; rewrite Hj; [left; by eexists |].
  right. set (db2 := set_members _ db1).
  destruct (answered_cases (user_save answers)
              (UserModel_save
                 (mkUser (user_id u) (user_email u) (user_name u)
                    (user_password u) (user_isActive u)
                    (Some (fresh_workspace fr)))) db2)
    as [(e & He & Hu)|[_ Hu]]; rewrite Hu.
  - left. by exists e.
  - right. reflexivity.
Qed.

(** After a workspace creation that returned, the workspace carries the
    trimmed name, which is not empty, and is owned by the caller; the role
    resolver answers OWNER for the caller in it, and it is the caller's
    current workspace. *)
Theorem createWorkspace_then_owner fr answers userId name db workspace db' :
  consistent db →
  NoDup (role_id <$> db_roles db) →
  createWorkspaceService fr answers userId name db = (Ok workspace, db') →
  workspace
  = mkWorkspace (fresh_workspace fr) (String_trim name) userId (fresh_inviteCode fr)
  ∧ String_trim name ≠ ""
  ∧ getMemberRoleInWorkspace userId (ws_id workspace) db'
    = (Ok (Some Roles_OWNER), db')
  ∧ ∃ user, UserModel_findById userId db' = (Ok (Some user), db')
            ∧ user_currentWorkspace user = Some (ws_id workspace).
Proof.
  intros Hc Hroles Hok.
  destruct (find (λ d, String.eqb (user_id d) userId) (db_users db)) as [u|] eqn:Eu.
  2: { revert Hok. unfold createWorkspaceService, sbind at 1, UserModel_findById.
       by rewrite Eu. }
  destruct (find (λ d, String.eqb (role_name d) Roles_OWNER) (db_roles db))
    as [o|] eqn:Eo.
  2: { revert Hok. unfold createWorkspaceService, sbind at 1, UserModel_findById.
       rewrite Eu. unfold sbind at 1, RoleModel_findOne_name. by rewrite Eo. }
  destruct (createWorkspace_steps fr answers userId name db u o Eu Eo)
    as [[e He]|(Hname & Hw & [[e He]|[(e & _ & He)|He]])]; try congruence.
  rewrite He in Hok. injection Hok as <- <-.
  pose proof Eu as Eu'. apply find_Some_elem in Eu' as [Huin Huid].
  apply String.eqb_eq in Huid.
  apply find_role_by_name in Eo as [Hoin Hname'].
  split; [done |]. split; [done |]. split.
  - unfold getMemberRoleInWorkspace. svc_unfold.
    destruct (find_snoc_is_Some (λ d, String.eqb (ws_id d) (fresh_workspace fr))
                (db_workspaces db)
                (mkWorkspace (fresh_workspace fr) (String_trim name) userId
                   (fresh_inviteCode fr))
                (String.eqb_refl _)) as [w' ->].
    simpl.
    rewrite (find_snoc_new (is_member_of userId (fresh_workspace fr))
               (db_members db)
               (mkMember (fresh_member fr) userId (fresh_workspace fr)
                  (role_id o))).
    + simpl. rewrite (populate_found_role _ o Hroles Hoin). simpl.
      by rewrite Hname'.
    + intros d Hd. destruct (is_member_of _ _ d) eqn:E; [| done].
      apply is_member_of_true in E.
      destruct (unreferenced_workspace db (fresh_workspace fr) userId Hc Hw).
      apply list_elem_of_fmap. eauto.
    + apply is_member_of_true. reflexivity.
  - exists (mkUser (user_id u) (user_email u) (user_name u) (user_password u)
              (user_isActive u) (Some (fresh_workspace fr))).
    split; [| reflexivity].
    unfold UserModel_findById. simpl. f_equal. f_equal.
    unfold replace_by_id. subst userId.
    apply (find_replace _ _ _ u); simpl.
    + done.
    + by rewrite String.eqb_refl.
    + apply String.eqb_refl.
    + intros d. destruct (String.eqb (user_id d) (user_id u)); auto.
Qed.

(** Workspace creation runs outside a transaction. When it throws, the
    users and the roles are as before, and of the new documents the store
    holds nothing, or the workspace alone, which then has no member row at
    all, or the workspace with the caller's owner row: the last when it was
    the final save of the user that failed, so that the workspace is not
    the caller's current one. *)
Theorem createWorkspace_failure fr answers userId name db e db' :
  consistent db →
  createWorkspaceService fr answers userId name db = (Throw e, db') →
  let workspace :=
    mkWorkspace (fresh_workspace fr) (String_trim name) userId
      (fresh_inviteCode fr) in
  db_users db' = db_users db
  ∧ db_roles db' = db_roles db
  ∧ ((db_workspaces db' = db_workspaces db ∧ db_members db' = db_members db)
     ∨ (db_workspaces db' = db_workspaces db ++ [workspace]
        ∧ db_members db' = db_members db
        ∧ ∀ u, no_membership db' u (fresh_workspace fr))
     ∨ (∃ ownerRole,
          user_save answers = Some e
          ∧ find (λ d, String.eqb (role_name d) Roles_OWNER) (db_roles db)
            = Some ownerRole
          ∧ db_workspaces db' = db_workspaces db ++ [workspace]
          ∧ db_members db'
            = db_members db
              ++ [mkMember (fresh_member fr) userId (fresh_workspace fr)
                    (role_id ownerRole)])).
Proof.
  intros Hc Hthrow. cbv zeta.
  destruct (find (λ d, String.eqb (user_id d) userId) (db_users db)) as [u|] eqn:Eu.
  2: { revert Hthrow. unfold createWorkspaceService, sbind at 1, UserModel_findById.
       rewrite Eu. intros [= <- <-]. auto. }
  destruct (find (λ d, String.eqb (role_name d) Roles_OWNER) (db_roles db))
    as [o|] eqn:Eo.
  2: { revert Hthrow. unfold createWorkspaceService, sbind at 1, UserModel_findById.
       rewrite Eu. unfold sbind at 1, RoleModel_findOne_name. rewrite Eo.
       intros [= <- <-]. auto. }
  destruct (createWorkspace_steps fr answers userId name db u o Eu Eo)
    as [[e' He]|(Hname & Hw & [[e' He]|[(e' & Hs & He)|He]])];
    rewrite He in Hthrow; try discriminate; injection Hthrow as <- <-.
  - auto.
  - split; [done |]. split; [done |]. right. left.
    split; [done |]. split; [done |].
    intros u'. unfold no_membership. cbn [db_members set_workspaces].
    by apply unreferenced_workspace.
  - split; [done |]. split; [done |]. right. right. by exists o.
Qed.

(** *** Changing a role and deleting a workspace *)



(** Only the owner deletes: for a stored workspace whose owner is not the
    caller the service throws [BadRequestException] and writes nothing. *)
Theorem deleteWorkspace_by_non_owner workspaceId userId db w :
  find (λ d, String.eqb (ws_id d) workspaceId) (db_workspaces db) = Some w →
  ws_owner w ≠ userId →
  deleteWorkspaceService workspaceId userId db
  = (Throw (BadRequestException "You are not authorized to delete this workspace"),
     db).
Proof.
  intros Hw Hne. unfold deleteWorkspaceService, transaction. svc_unfold.
  rewrite Hw. simpl.
  apply String.eqb_neq in Hne. rewrite Hne. done.
Qed.

Lemma deleteWorkspace_Ok_inv workspaceId userId db cur db' :
  deleteWorkspaceService workspaceId userId db = (Ok cur, db') →
  (∃ w, w ∈ db_workspaces db ∧ ws_id w = workspaceId ∧ ws_owner w = userId)
  ∧ db_workspaces db' = filter (λ d, ws_id d ≠ workspaceId) (db_workspaces db)
  ∧ db_members db' = filter (λ m, member_workspaceId m ≠ workspaceId) (db_members db)
  ∧ cur ≠ Some workspaceId
  ∧ ∀ u, getMemberRoleInWorkspace u workspaceId db'
         = (Throw (NotFoundException "Workspace not found"), db').
Proof.
  unfold deleteWorkspaceService, transaction. svc_unfold.
  destruct (find _ (db_workspaces db)) as [w|] eqn:Ew; simpl; [| discriminate].
  apply find_Some_elem in Ew as [Hw Hid]. apply String.eqb_eq in Hid.
  destruct (String.eqb (ws_owner w) userId) eqn:Eo; simpl; [| discriminate].
  apply String.eqb_eq in Eo.
  destruct (find _ (db_users db)) as [u|] eqn:Eu; simpl; [| discriminate].
  assert (∀ db0 u0,
            db_workspaces db0 = filter (λ d, ws_id d ≠ workspaceId) (db_workspaces db) →
            getMemberRoleInWorkspace u0 workspaceId db0
            = (Throw (NotFoundException "Workspace not found"), db0)) as Hgone.
  { intros db0 u0 Hws. unfold getMemberRoleInWorkspace. svc_unfold. rewrite Hws.
    destruct (find _ (filter _ _)) as [w'|] eqn:E; [| done].
    apply find_Some_elem in E as [Hin Heq]. apply String.eqb_eq in Heq.
    apply list_elem_of_filter in Hin as [Hne _]. done. }
  destruct (bool_decide _) eqn:Ecur; simpl.
  - intros [= <- <-]. rewrite Hid. simpl.
    split; [by exists w |]. split; [done |]. split; [done |]. split.
    + destruct (find _ (filter _ (db_members db))) as [m|] eqn:Em; [| done].
      apply find_Some_elem in Em as [Hm _].
      apply list_elem_of_filter in Hm as [Hne _]. simpl. congruence.
    + intros u0. by apply Hgone.
  - intros [= <- <-]. rewrite Hid. simpl.
    split; [by exists w |]. split; [done |]. split; [done |]. split.
    + apply bool_decide_eq_false in Ecur. done.
    + intros u0. by apply Hgone.
Qed.

(** After a deletion that returned, the caller was the owner, the
    workspace and every membership row of it are gone while all other
    workspaces and rows are kept, the current workspace reported back is
    not the deleted one, and the role resolver answers NotFound there for
    everybody. *)
Theorem deleteWorkspace_removes_workspace_and_members workspaceId userId db cur db' :
  deleteWorkspaceService workspaceId userId db = (Ok cur, db') →
  (∃ w, w ∈ db_workspaces db ∧ ws_id w = workspaceId ∧ ws_owner w = userId)
  ∧ db_workspaces db' = filter (λ d, ws_id d ≠ workspaceId) (db_workspaces db)
  ∧ db_members db' = filter (λ m, member_workspaceId m ≠ workspaceId) (db_members db)
  ∧ cur ≠ Some workspaceId
  ∧ ∀ u, getMemberRoleInWorkspace u workspaceId db'
         = (Throw (NotFoundException "Workspace not found"), db').
Proof. apply deleteWorkspace_Ok_inv. Qed.

(** *** Listing a user's workspaces (services/workspace.service.ts) *)

(** [MemberModel.find({ userId })] *)
Definition MemberModel_find_user (userId : ObjectId) : Svc (list MemberDocument) :=
  λ db, (Ok (filter (λ m, member_userId m = userId) (db_members db)), db).

(** [.populate("workspaceId")]: each row's workspace document, or [null]. *)
Definition populate_workspaceId (memberships : list MemberDocument)
    : Svc (list (option WorkspaceDocument)) :=
  λ db, (Ok ((λ m, find (λ w, String.eqb (ws_id w) (member_workspaceId m))
                      (db_workspaces db)) <$> memberships), db).

(** The result is the list [memberships.map(m => m.workspaceId)]. *)
Definition getAllWorkspacesUserIsMemberService (userId : ObjectId)
    : Svc (list (option WorkspaceDocument)) :=
  do! memberships := MemberModel_find_user userId in
  do! populated := populate_workspaceId memberships in
  ret populated.

Lemma populate_all_found db (ms : list MemberDocument) :
  members_reference_workspaces db →
  (∀ m, m ∈ ms → m ∈ db_members db) →
  ∃ ws : list WorkspaceDocument,
    (λ m, find (λ w, String.eqb (ws_id w) (member_workspaceId m))
            (db_workspaces db)) <$> ms = Some <$> ws
    ∧ ws_id <$> ws = member_workspaceId <$> ms
    ∧ ∀ w, w ∈ ws → w ∈ db_workspaces db.
Proof.
  intros Href. induction ms as [|m ms IH]; intros Hsub.
  - exists []. repeat split. intros w Hw. inversion Hw.
  - destruct IH as (ws & Hmap & Hids & Hin).
    { intros m' Hm'. apply Hsub. by right. }
    destruct (Href m) as (w & Hw & Hid); [apply Hsub; by left |].
    destruct (find_is_Some (λ d, String.eqb (ws_id d) (member_workspaceId m))
                (db_workspaces db) w Hw) as [w' Hw'].
    { by apply String.eqb_eq. }
    pose proof Hw' as Hw''. apply find_Some_elem in Hw'' as [Hin' Heq].
    apply String.eqb_eq in Heq.
    exists (w' :: ws). rewrite !fmap_cons. rewrite Hw', Hmap, Hids, Heq.
    repeat split. intros w0 Hw0. apply elem_of_cons in Hw0 as [->|Hw0]; auto.
Qed.

(** In a consistent store the workspaces listed for a user are all stored
    workspaces (no [null] entry), each listed once, and they are exactly
    the workspaces in which the user has a membership row. *)
Theorem workspaces_of_user_listed_once userId db :
  consistent db →
  ∃ ws,
    getAllWorkspacesUserIsMemberService userId db = (Ok (Some <$> ws), db)
    ∧ (∀ w, w ∈ ws → w ∈ db_workspaces db)
    ∧ NoDup (ws_id <$> ws)
    ∧ ∀ wid, wid ∈ ws_id <$> ws ↔ ¬ no_membership db userId wid.
Proof.
  intros [Hone _ Href].
  set (ms := filter (λ m, member_userId m = userId) (db_members db)).
  destruct (populate_all_found db ms Href) as (ws & Hmap & Hids & Hin).
  { intros m Hm. by apply list_elem_of_filter in Hm as [_ Hm]. }
  exists ws. split; [| split; [done | split]].
  - unfold getAllWorkspacesUserIsMemberService, MemberModel_find_user,
      populate_workspaceId, sbind, ret. simpl. fold ms. by rewrite Hmap.
  - rewrite Hids.
    apply (NoDup_fmap_1 (λ wid, (userId, wid))). rewrite <- list_fmap_compose.
    assert ((λ wid, (userId, wid)) ∘ member_workspaceId <$> ms = member_key <$> ms)
      as ->.
    { apply list_fmap_ext. intros i m Hm. simpl.
      apply list_elem_of_lookup_2 in Hm. apply list_elem_of_filter in Hm as [<- _].
      done. }
    by apply NoDup_fmap_filter.
  - intros wid. rewrite Hids. unfold no_membership. split.
    + intros Hwid Hno. apply Hno.
      apply list_elem_of_fmap in Hwid as (m & -> & Hm).
      apply list_elem_of_filter in Hm as [<- Hm].
      apply list_elem_of_fmap. by exists m.
    + intros Hmem. destruct (decide ((userId, wid) ∈ member_key <$> db_members db))
        as [Hin'|Hout]; [| done].
      apply list_elem_of_fmap in Hin' as (m & Hk & Hm). inversion Hk; subst.
      apply list_elem_of_fmap. exists m. split; [done |].
      by apply list_elem_of_filter.
Qed.

(** *** The theorems at work on the small store *)

Definition alice_only : Database :=
  run [ RegisterUser fresh_alice "alice@example.com" "Alice" "hash-a" ]
      (initial seeded_roles).

Lemma register_then_owner_witness :
  consistent (initial seeded_roles)
  ∧ NoDup (role_id <$> db_roles (initial seeded_roles))
  ∧ registerUserService fresh_alice "alice@example.com" "Alice" "hash-a"
      (initial seeded_roles) = (Ok ("u-alice", "w-alice"), alice_only)
  ∧ getMemberRoleInWorkspace "u-alice" "w-alice" alice_only
    = (Ok (Some "OWNER"), alice_only).
Proof.
  split; [apply initial_consistent |].
  split; [exact seeded_role_ids_distinct |].
  split; [reflexivity |].
  exact (proj1 (register_then_owner fresh_alice "alice@example.com" "Alice"
                  "hash-a" (initial seeded_roles) "u-alice" "w-alice" alice_only
                  (initial_consistent seeded_roles) seeded_role_ids_distinct
                  eq_refl)).
Defined.

Lemma register_same_email_rejected_witness :
  registerUserService fresh_alice "alice@example.com" "Alice" "hash-a"
    (initial seeded_roles) = (Ok ("u-alice", "w-alice"), alice_only)
  ∧ registerUserService fresh_bob "alice@example.com" "Bob" "hash-b" alice_only
    = (Throw (BadRequestException "Email already exists"), alice_only).
Proof.
  split; [reflexivity |].
  exact (register_same_email_rejected fresh_alice "alice@example.com" "Alice"
           "hash-a" (initial seeded_roles) ("u-alice", "w-alice") alice_only
           fresh_bob "Bob" "hash-b" eq_refl).
Defined.

Lemma register_then_verify_witness :
  registerUserService fresh_alice "alice@example.com" "Alice" "hash-a"
    (initial seeded_roles) = (Ok ("u-alice", "w-alice"), alice_only)
  ∧ verifyUserService AuthController.toy_compare "alice@example.com" "guess" alice_only
    = (Throw (UnauthorizedException "Invalid email or password"), alice_only).
Proof.
  split; [reflexivity |].
  exact (register_then_verify AuthController.toy_compare fresh_alice "alice@example.com"
           "Alice" "hash-a" (initial seeded_roles) ("u-alice", "w-alice")
           alice_only "guess" eq_refl).
Defined.

(** The account keeps the address as it was typed while the user keeps it
    trimmed and in lower case: after a registration as "Alice@Example.com"
    the user is stored as "alice@example.com", a verification under the
    typed spelling finds the account, and one under the stored spelling
    does not. *)
Example verify_needs_the_typed_spelling :
  let db :=
    snd (registerUserService fresh_alice "Alice@Example.com" " Alice " "hash-a"
           (initial seeded_roles)) in
  db_users db
  = [mkUser "u-alice" "alice@example.com" "Alice" (Some "hash-a") true
       (Some "w-alice")]
  ∧ fst (verifyUserService AuthController.toy_compare "Alice@Example.com" "a" db)
    = Ok (mkUser "u-alice" "alice@example.com" "Alice" None true (Some "w-alice"))
  ∧ fst (verifyUserService AuthController.toy_compare "alice@example.com" "a" db)
    = Throw (NotFoundException "Invalid email or password")
  ∧ fst (registerUserService fresh_bob "ALICE@example.com" "Bob" "hash-b" db)
    = Throw (BadRequestException "Email already exists").
Proof. repeat split. Qed.

Lemma verifyUser_reads_only_witness :
  fst (verifyUserService AuthController.toy_compare "alice@example.com" "a" alice_only)
  = Ok (mkUser "u-alice" "alice@example.com" "Alice" None true (Some "w-alice"))
  ∧ user_password
      (mkUser "u-alice" "alice@example.com" "Alice" None true (Some "w-alice"))
    = None.
Proof.
  split; [reflexivity |].
  exact (proj1 (proj2 (verifyUser_reads_only AuthController.toy_compare "alice@example.com" "a"
                         alice_only) _ eq_refl)).
Defined.

Definition fresh_second : Fresh :=
  mkFresh "u-none" "a-none" "w-second" "m-second" "inv-second".

(** A member [_id] that is already taken makes the last insert fail. *)
Definition fresh_clash : Fresh :=
  mkFresh "u-none" "a-none" "w-second" "m-alice" "inv-second".

Lemma alice_only_consistent : consistent alice_only.
Proof. apply run_consistent, initial_consistent. Qed.

Lemma createWorkspace_then_owner_witness :
  consistent alice_only
  ∧ NoDup (role_id <$> db_roles alice_only)
  ∧ fst (createWorkspaceService fresh_second all_saved "u-alice" "  Second "
           alice_only)
    = Ok (mkWorkspace "w-second" "Second" "u-alice" "inv-second")
  ∧ getMemberRoleInWorkspace "u-alice" "w-second"
      (snd (createWorkspaceService fresh_second all_saved "u-alice" "  Second "
              alice_only))
    = (Ok (Some "OWNER"),
       snd (createWorkspaceService fresh_second all_saved "u-alice" "  Second "
              alice_only)).
Proof.
  split; [exact alice_only_consistent |].
  split; [exact seeded_role_ids_distinct |].
  split; [reflexivity |].
  exact (proj1 (proj2 (proj2
           (createWorkspace_then_owner fresh_second all_saved "u-alice"
              "  Second " alice_only _ _ alice_only_consistent
              seeded_role_ids_distinct eq_refl)))).
Defined.

Definition connection_lost : Exception := MongoServerError "connection lost".

(** The save of the user fails after the workspace and the owner row have
    been stored. *)
Lemma createWorkspace_failure_witness :
  consistent alice_only
  ∧ createWorkspaceService fresh_second
      (mkAnswers None None (Some connection_lost)) "u-alice" "Second" alice_only
    = (Throw connection_lost,
       set_members
         (db_members alice_only
          ++ [mkMember "m-second" "u-alice" "w-second" "r-owner"])
         (set_workspaces
            (db_workspaces alice_only
             ++ [mkWorkspace "w-second" "Second" "u-alice" "inv-second"])
            alice_only))
  ∧ db_users
      (snd (createWorkspaceService fresh_second
              (mkAnswers None None (Some connection_lost)) "u-alice" "Second"
              alice_only))
    = db_users alice_only.
Proof.
  split; [exact alice_only_consistent |]. split; [reflexivity |].
  exact (proj1 (createWorkspace_failure fresh_second
                  (mkAnswers None None (Some connection_lost)) "u-alice"
                  "Second" alice_only connection_lost _ alice_only_consistent
                  eq_refl)).
Defined.

(** A member [_id] that is already taken: the workspace stays without any
    member row. *)
Example createWorkspace_member_clash :
  fst (createWorkspaceService fresh_clash all_saved "u-alice" "Second" alice_only)
  = Throw duplicate_key
  ∧ db_members
      (snd (createWorkspaceService fresh_clash all_saved "u-alice" "Second"
              alice_only))
    = db_members alice_only
  ∧ db_workspaces
      (snd (createWorkspaceService fresh_clash all_saved "u-alice" "Second"
              alice_only))
    = db_workspaces alice_only
      ++ [mkWorkspace "w-second" "Second" "u-alice" "inv-second"].
Proof. repeat split. Qed.

(** A name of white space only is refused by validation. *)
Example createWorkspace_blank_name :
  createWorkspaceService fresh_second all_saved "u-alice" "   " alice_only
  = (Throw (required_error "Workspace" "name"), alice_only).
Proof. reflexivity. Qed.

Lemma two_users_consistent : consistent two_users.
Proof. apply run_consistent, initial_consistent. Qed.


Example bob_promoted :
  getMemberRoleInWorkspace "u-bob" "w-alice"
    (snd (changeMemberRoleService "w-alice" "u-bob" "r-owner" two_users))
  = (Ok (Some "OWNER"),
     snd (changeMemberRoleService "w-alice" "u-bob" "r-owner" two_users)).
Proof. reflexivity. Qed.

Lemma deleteWorkspace_by_non_owner_witness :
  find (λ d, String.eqb (ws_id d) "w-alice") (db_workspaces two_users)
  = Some (mkWorkspace "w-alice" "My Workspace" "u-alice" "inv-alice")
  ∧ "u-alice" ≠ "u-bob"
  ∧ deleteWorkspaceService "w-alice" "u-bob" two_users
    = (Throw (BadRequestException
                "You are not authorized to delete this workspace"),
       two_users).
Proof.
  split; [reflexivity |]. split; [discriminate |].
  apply (deleteWorkspace_by_non_owner "w-alice" "u-bob" two_users
           (mkWorkspace "w-alice" "My Workspace" "u-alice" "inv-alice")).
  - reflexivity.
  - discriminate.
Defined.

Lemma deleteWorkspace_removes_workspace_and_members_witness :
  fst (deleteWorkspaceService "w-alice" "u-alice" two_users) = Ok None
  ∧ getMemberRoleInWorkspace "u-bob" "w-alice"
      (snd (deleteWorkspaceService "w-alice" "u-alice" two_users))
    = (Throw (NotFoundException "Workspace not found"),
       snd (deleteWorkspaceService "w-alice" "u-alice" two_users)).
Proof.
  split; [reflexivity |].
  pose proof (deleteWorkspace_removes_workspace_and_members "w-alice" "u-alice"
                two_users None _ eq_refl) as (_ & _ & _ & _ & Hgone).
  exact (Hgone "u-bob").
Defined.

Lemma workspaces_of_user_listed_once_witness :
  consistent two_users
  ∧ ∃ ws,
      getAllWorkspacesUserIsMemberService "u-bob" two_users
      = (Ok (Some <$> ws), two_users)
      ∧ (∀ w, w ∈ ws → w ∈ db_workspaces two_users)
      ∧ NoDup (ws_id <$> ws)
      ∧ ∀ wid, wid ∈ ws_id <$> ws ↔ ¬ no_membership two_users "u-bob" wid.
Proof.
  split; [exact two_users_consistent |].
  exact (workspaces_of_user_listed_once "u-bob" two_users two_users_consistent).
Defined.

Example bob_workspaces :
  fst (getAllWorkspacesUserIsMemberService "u-bob" two_users)
  = Ok [ Some (mkWorkspace "w-bob" "My Workspace" "u-bob" "inv-bob");
         Some (mkWorkspace "w-alice" "My Workspace" "u-alice" "inv-alice") ].
Proof. reflexivity. Qed.

End ServiceProperties.

(** ** controllers/workspace.controller.ts *)

Module WorkspaceController.
Import RoleGuard Membership ServiceProperties.

(** What a controller sends: the status and the JSON body. *)
Record Sent (A : Type) : Type := mkSent {
  sent_status : N;
  sent_message : string;
  sent_data : A;
}.
Arguments mkSent {A} _ _ _.
Arguments sent_status {A} _.
Arguments sent_message {A} _.
Arguments sent_data {A} _.

Section WorkspaceController.

Context {PermissionType : Type} `{EqDecision PermissionType}.
Variable RolePermissions : gmap string (list PermissionType).

(** The members of [Permissions] the controllers below require. *)
Variable Permissions_CHANGE_MEMBER_ROLE : PermissionType.
Variable Permissions_DELETE_WORKSPACE : PermissionType.

(** A value used as a property key: [undefined] reads the key "undefined". *)
Definition property_key (role : option string) : string :=
  default "undefined" role.

(** A synchronous call inside a service computation. *)
Definition lift {A} (r : result A) : Svc A := λ db, (r, db).

(** The two lines every guarded controller starts with:
    [const { role } = await getMemberRoleInWorkspace(userId, workspaceId);
     roleGuard(role, [permission]);] *)
Definition authorize (userId workspaceId : ObjectId)
    (requiredPermissions : list PermissionType) : Svc unit :=
  do! role := getMemberRoleInWorkspace userId workspaceId in
  lift (roleGuard RolePermissions (property_key role) requiredPermissions).

Definition changeWorkspaceMemberRoleController
    (userId workspaceId memberId roleId : ObjectId) : Svc (Sent MemberDocument) :=
  authorize userId workspaceId [Permissions_CHANGE_MEMBER_ROLE] >>!
  do! member := changeMemberRoleService workspaceId memberId roleId in
  ret (mkSent HTTP_OK "Member Role changed successfully" member).

Definition deleteWorkspaceByIdController (userId workspaceId : ObjectId)
    : Svc (Sent (option ObjectId)) :=
  authorize userId workspaceId [Permissions_DELETE_WORKSPACE] >>!
  do! currentWorkspace := deleteWorkspaceService workspaceId userId in
  ret (mkSent HTTP_OK "Workspace deleted successfully" currentWorkspace).

(** The caller has a membership row in the workspace whose role, as the
    resolver names it, is granted the permission by the table. *)
Definition granted (db : Database) (userId workspaceId : ObjectId)
    (permission : PermissionType) : Prop :=
  ∃ m ps,
    find (is_member_of userId workspaceId) (db_members db) = Some m
    ∧ RolePermissions
        !! property_key
             (role_name <$> find (λ r, String.eqb (role_id r) (member_role m))
                              (db_roles db)) = Some ps
    ∧ permission ∈ ps.

Lemma authorize_reads_only userId workspaceId required db :
  snd (authorize userId workspaceId required db) = db.
Proof.
  unfold authorize, getMemberRoleInWorkspace, lift. svc_unfold.
  destruct (find _ (db_workspaces db)); simpl; [| done].
  destruct (find _ (db_members db)); simpl; done.
Qed.

(** The guard on one permission, for a role that is in the table. *)
Lemma roleGuard_single key ps permission :
  RolePermissions !! key = Some ps →
  roleGuard RolePermissions key [permission]
  = if includes ps permission then Ok tt
    else Throw (UnauthorizedException roleGuard_message).
Proof.
  intros Hk. unfold roleGuard. rewrite Hk. simpl.
  by destruct (includes ps permission).
Qed.

Lemma authorize_decision userId workspaceId permission db :
  snd (authorize userId workspaceId [permission] db) = db
  ∧ (fst (authorize userId workspaceId [permission] db) = Ok tt
     ↔ workspace_exists db workspaceId
       ∧ granted db userId workspaceId permission).
Proof.
  split; [apply authorize_reads_only |].
  unfold authorize, getMemberRoleInWorkspace, lift, granted. svc_unfold.
  destruct (find _ (db_workspaces db)) as [w|] eqn:Ew; simpl.
  - apply find_Some_elem in Ew as [Hw Hid]. apply String.eqb_eq in Hid.
    assert (workspace_exists db workspaceId) as Hex by (by exists w).
    destruct (find _ (db_members db)) as [m|] eqn:Em; simpl.
    + set (key := property_key _).
      destruct (RolePermissions !! key) as [ps|] eqn:Ek.
      * rewrite (roleGuard_single key ps permission Ek).
        destruct (includes ps permission) eqn:Ei.
        -- apply includes_spec in Ei. split; [| done].
           intros _. split; [done |]. by exists m, ps.
        -- split; [discriminate |].
           intros (_ & m' & ps' & [= <-] & Hps & Hin).
           subst key. rewrite Ek in Hps. injection Hps as <-.
           apply includes_spec in Hin. congruence.
      * unfold roleGuard. rewrite Ek. simpl. split; [discriminate |].
        intros (_ & m' & ps' & [= <-] & Hps & _). subst key. congruence.
    + split; [discriminate |]. intros (_ & m' & ps' & Hm' & _). discriminate.
  - split; [discriminate |]. intros ((w & Hw & Hid) & _).
    pose proof (find_None_elem _ _ Ew w Hw) as Hf. simpl in Hf.
    rewrite Hid, String.eqb_refl in Hf. discriminate.
Qed.

(** The guard of a controller reads the store without writing, and lets
    the caller through exactly when the workspace is stored and the caller
    has a membership row there whose role the table grants the required
    permission. *)
Theorem authorize_iff_granted userId workspaceId permission db :
  snd (authorize userId workspaceId [permission] db) = db
  ∧ (fst (authorize userId workspaceId [permission] db) = Ok tt
     ↔ workspace_exists db workspaceId
       ∧ granted db userId workspaceId permission).
Proof. apply authorize_decision. Qed.

Lemma authorize_result userId workspaceId required db :
  authorize userId workspaceId required db
  = (fst (authorize userId workspaceId required db), db).
Proof.
  rewrite <- (authorize_reads_only userId workspaceId required db) at 3.
  by destruct (authorize userId workspaceId required db).
Qed.

Lemma guarded_refused {A} (k : Svc A) userId workspaceId permission db :
  ¬ (workspace_exists db workspaceId ∧ granted db userId workspaceId permission) →
  ∃ e, (authorize userId workspaceId [permission] >>! k) db = (Throw e, db).
Proof.
  intros Hno. unfold sbind. rewrite authorize_result.
  destruct (fst (authorize userId workspaceId [permission] db)) as [[]|e] eqn:E.
  - destruct Hno. by apply authorize_decision.
  - by exists e.
Qed.

Lemma guarded_passed {A} (k : Svc A) userId workspaceId permission db a db' :
  (authorize userId workspaceId [permission] >>! k) db = (Ok a, db') →
  granted db userId workspaceId permission ∧ k db = (Ok a, db').
Proof.
  unfold sbind. rewrite authorize_result.
  destruct (fst (authorize userId workspaceId [permission] db)) as [[]|e] eqn:E;
    [| discriminate].
  intros Hk. split; [| done]. by apply authorize_decision.
Qed.

(** A member whose role is in the table without the required permission
    is refused with the role guard's [UnauthorizedException]; nothing is
    written. *)
Theorem member_without_permission_is_refused
    userId workspaceId permission db m r ps :
  workspace_exists db workspaceId →
  find (is_member_of userId workspaceId) (db_members db) = Some m →
  find (λ d, String.eqb (role_id d) (member_role m)) (db_roles db) = Some r →
  RolePermissions !! role_name r = Some ps →
  permission ∉ ps →
  authorize userId workspaceId [permission] db
  = (Throw (UnauthorizedException roleGuard_message), db).
Proof.
  intros (w & Hw & Hid) Hm Hr Hps Hout.
  unfold authorize, getMemberRoleInWorkspace, lift. svc_unfold.
  destruct (find_is_Some (λ d, String.eqb (ws_id d) workspaceId)
              (db_workspaces db) w Hw) as [w' ->].
  { by apply String.eqb_eq. }
  simpl. rewrite Hm. simpl. rewrite Hr. simpl. f_equal.
  rewrite (roleGuard_single (role_name r) ps permission Hps).
  destruct (includes ps permission) eqn:Ei; [| done].
  apply includes_spec in Ei. done.
Qed.

(** The role-change controller writes nothing and throws unless the
    caller is granted CHANGE_MEMBER_ROLE in the workspace; when it answers,
    the caller was granted it, the status is 200 and the body carries the
    member the service returned. *)
Theorem change_role_controller_is_guarded userId workspaceId memberId roleId db :
  (¬ (workspace_exists db workspaceId
      ∧ granted db userId workspaceId Permissions_CHANGE_MEMBER_ROLE) →
   ∃ e, changeWorkspaceMemberRoleController userId workspaceId memberId roleId db
        = (Throw e, db))
  ∧ (∀ sent db',
       changeWorkspaceMemberRoleController userId workspaceId memberId roleId db
       = (Ok sent, db') →
       granted db userId workspaceId Permissions_CHANGE_MEMBER_ROLE
       ∧ sent_status sent = HTTP_OK
       ∧ changeMemberRoleService workspaceId memberId roleId db
         = (Ok (sent_data sent), db')).
Proof.
  unfold changeWorkspaceMemberRoleController. split.
  - apply guarded_refused.
  - intros sent db' Hrun. apply guarded_passed in Hrun as [Hg Hk].
    split; [done |]. unfold sbind, ret in Hk.
    destruct (changeMemberRoleService workspaceId memberId roleId db)
      as [[member|e] db'']; [| discriminate].
    by injection Hk as <- <-.
Qed.

(** The delete controller is all or nothing: it throws with the store
    untouched unless the caller is granted DELETE_WORKSPACE, and whenever
    it throws; when it answers, the caller was granted the permission and
    owned the workspace, the status is 200, the workspace is gone and the
    current workspace reported is another one or none. *)
Theorem delete_controller_is_guarded userId workspaceId db :
  (¬ (workspace_exists db workspaceId
      ∧ granted db userId workspaceId Permissions_DELETE_WORKSPACE) →
   ∃ e, deleteWorkspaceByIdController userId workspaceId db = (Throw e, db))
  ∧ (∀ e db', deleteWorkspaceByIdController userId workspaceId db = (Throw e, db') →
              db' = db)
  ∧ (∀ sent db',
       deleteWorkspaceByIdController userId workspaceId db = (Ok sent, db') →
       granted db userId workspaceId Permissions_DELETE_WORKSPACE
       ∧ (∃ w, w ∈ db_workspaces db ∧ ws_id w = workspaceId ∧ ws_owner w = userId)
       ∧ sent_status sent = HTTP_OK
       ∧ sent_data sent ≠ Some workspaceId
       ∧ ¬ workspace_exists db' workspaceId).
Proof.
  unfold deleteWorkspaceByIdController. split; [apply guarded_refused | split].
  - intros e db'. unfold sbind at 1. rewrite authorize_result.
    destruct (fst (authorize _ _ _ db)) as [[]|e']; [| by intros [= _ <-]].
    unfold sbind, ret.
    destruct (deleteWorkspaceService workspaceId userId db) as [[cur|e'] db'']
      eqn:Ed; [discriminate |].
    intros [= _ <-]. unfold deleteWorkspaceService, transaction in Ed.
    destruct (sbind _ _ db) as [[?|?] ?]; congruence.
  - intros sent db' Hrun. apply guarded_passed in Hrun as [Hg Hk].
    split; [done |]. unfold sbind, ret in Hk.
    destruct (deleteWorkspaceService workspaceId userId db) as [[cur|e] db'']
      eqn:Ed; [| discriminate].
    injection Hk as <- <-.
    apply deleteWorkspace_Ok_inv in Ed as (Hw & Hws & _ & Hcur & _).
    split; [done |]. split; [done |]. split; [done |].
    intros (w & Hin & Hid). rewrite Hws in Hin.
    apply list_elem_of_filter in Hin as [Hne _]. done.
Qed.

End WorkspaceController.

(** *** The controllers on the small store *)

Lemma bob_is_member :
  find (is_member_of "u-bob" "w-alice") (db_members two_users)
  = Some (mkMember "m-bob-2" "u-bob" "w-alice" "r-member").
Proof. reflexivity. Qed.

Example owner_deletes :
  fst (deleteWorkspaceByIdController sample_table "DELETE_WORKSPACE"
         "u-alice" "w-alice" two_users)
  = Ok (mkSent 200%N "Workspace deleted successfully" None).
Proof. reflexivity. Qed.

Example role_outside_table :
  authorize (∅ : gmap string (list string)) "u-bob" "w-alice" ["VIEW_ONLY"]
    two_users
  = (Throw (TypeError "Cannot read properties of undefined"), two_users).
Proof. reflexivity. Qed.

Lemma member_without_permission_is_refused_witness :
  workspace_exists two_users "w-alice"
  ∧ sample_table !! "MEMBER" = Some ["VIEW_ONLY"]
  ∧ ("DELETE_WORKSPACE" ∉ ["VIEW_ONLY"])
  ∧ authorize sample_table "u-bob" "w-alice" ["DELETE_WORKSPACE"] two_users
    = (Throw (UnauthorizedException roleGuard_message), two_users).
Proof.
  assert (workspace_exists two_users "w-alice") as Hws.
  { exists (mkWorkspace "w-alice" "My Workspace" "u-alice" "inv-alice").
    split; [by left | reflexivity]. }
  assert ("DELETE_WORKSPACE" ∉ ["VIEW_ONLY"]) as Hout.
  { intros H. apply list_elem_of_singleton in H. discriminate H. }
  split; [exact Hws | split; [reflexivity | split; [exact Hout |]]].
  exact (member_without_permission_is_refused sample_table "u-bob" "w-alice"
           "DELETE_WORKSPACE" two_users
           (mkMember "m-bob-2" "u-bob" "w-alice" "r-member")
           (mkRole "r-member" "MEMBER" ["VIEW_ONLY"]) ["VIEW_ONLY"]
           Hws eq_refl eq_refl eq_refl Hout).
Defined.

Lemma bob_not_granted permission :
  permission ≠ "VIEW_ONLY" →
  ¬ (workspace_exists two_users "w-alice"
     ∧ granted sample_table two_users "u-bob" "w-alice" permission).
Proof.
  intros Hne (_ & m & ps & Hm & Hps & Hin).
  rewrite bob_is_member in Hm. injection Hm as <-.
  vm_compute in Hps. injection Hps as <-.
  apply list_elem_of_singleton in Hin. done.
Qed.

Lemma change_role_controller_is_guarded_witness :
  ¬ (workspace_exists two_users "w-alice"
     ∧ granted sample_table two_users "u-bob" "w-alice" "CHANGE_MEMBER_ROLE")
  ∧ ∃ e, changeWorkspaceMemberRoleController sample_table "CHANGE_MEMBER_ROLE"
           "u-bob" "w-alice" "u-bob" "r-owner" two_users
         = (Throw e, two_users).
Proof.
  assert (¬ (workspace_exists two_users "w-alice"
             ∧ granted sample_table two_users "u-bob" "w-alice"
                 "CHANGE_MEMBER_ROLE")) as Hno
    by (apply bob_not_granted; discriminate).
  split; [exact Hno |].
  exact (proj1 (change_role_controller_is_guarded sample_table
                  "CHANGE_MEMBER_ROLE" "u-bob" "w-alice" "u-bob" "r-owner"
                  two_users) Hno).
Defined.

Lemma delete_controller_is_guarded_witness :
  ¬ (workspace_exists two_users "w-alice"
     ∧ granted sample_table two_users "u-bob" "w-alice" "DELETE_WORKSPACE")
  ∧ ∃ e, deleteWorkspaceByIdController sample_table "DELETE_WORKSPACE"
           "u-bob" "w-alice" two_users
         = (Throw e, two_users).
Proof.
  assert (¬ (workspace_exists two_users "w-alice"
             ∧ granted sample_table two_users "u-bob" "w-alice"
                 "DELETE_WORKSPACE")) as Hno
    by (apply bob_not_granted; discriminate).
  split; [exact Hno |].
  exact (proj1 (delete_controller_is_guarded sample_table "DELETE_WORKSPACE"
                  "u-bob" "w-alice" two_users) Hno).
Defined.

End WorkspaceController.

(** ** From issuing credentials to using and revoking them *)

Module CredentialFlow.
Import AuthMiddleware AuthController.
Section CredentialFlow.

Variable mac : Algorithm → string → JoseHeader * Claims → string.
Variable SESSION_SECRET : string.
Variable NODE_ENV : string.

Hypothesis secret_set : truthy SESSION_SECRET = true.
Hypothesis mac_nonempty : ∀ m, truthy (mac HS256 SESSION_SECRET m) = true.

(** The token [generateJWT] makes for a payload at [now]. *)
Definition issued_token (user : JWTPayload) (now : Z) : TokenString :=
  let header := mkHeader HS256 "JWT" in
  let claims :=
    mkClaims (payload_id user) (payload_email user) (payload_role user) now None
      (Some (now + EXPIRES_IN)%Z) (Some ISSUER) (Some AUDIENCE) in
  Compact header claims (mac HS256 SESSION_SECRET (header, claims)).

Lemma generateJWT_issued user now :
  generateJWT mac SESSION_SECRET user now = Ok (issued_token user now).
Proof. unfold generateJWT, jwt_sign. by rewrite secret_set. Qed.

Definition issue_options (httpOnly : bool) : CookieOptions :=
  mkCookieOptions httpOnly (production NODE_ENV)
    (if production NODE_ENV then SameSiteNone else SameSiteLax)
    (Some MAX_AGE) "/".

Lemma setAuthCookies_headers res user now :
  setAuthCookies mac SESSION_SECRET NODE_ENV res user now
  = Ok (mkResponse
          (res_headers res
           ++ [SetCookie "auth_token" (TokenValue (issued_token user now))
                 (issue_options true);
               SetCookie "auth_user"
                 (UserJson (payload_id user) (payload_email user)
                    (payload_role user))
                 (issue_options false)])
          (res_status res) (res_body res)).
Proof.
  unfold setAuthCookies. rewrite generateJWT_issued. simpl.
  unfold res_cookie. simpl. by rewrite <- app_assoc.
Qed.

(** Same attributes but for the lifetime. *)
Definition same_scope (issued cleared : CookieOptions) : Prop :=
  opt_httpOnly issued = opt_httpOnly cleared
  ∧ opt_secure issued = opt_secure cleared
  ∧ opt_sameSite issued = opt_sameSite cleared
  ∧ opt_path issued = opt_path cleared.

(** Issuing appends two cookies, [auth_token] readable by the server only
    and [auth_user] readable by scripts, with the same lifetime; clearing
    appends one clearing header for each, with the same path, secure flag,
    same-site policy and http-only flag as the cookie it clears. *)
Theorem issued_cookies_are_cleared_alike res res0 user now :
  ∃ res' token user_json o_token o_user c_token c_user,
    setAuthCookies mac SESSION_SECRET NODE_ENV res user now = Ok res'
    ∧ res_headers res'
      = res_headers res
        ++ [SetCookie "auth_token" token o_token;
            SetCookie "auth_user" user_json o_user]
    ∧ res_headers (clearAuthCookies NODE_ENV res0)
      = res_headers res0
        ++ [ClearCookie "auth_token" c_token; ClearCookie "auth_user" c_user]
    ∧ same_scope o_token c_token
    ∧ same_scope o_user c_user
    ∧ opt_httpOnly o_token = true
    ∧ opt_httpOnly o_user = false
    ∧ opt_maxAge o_token = Some MAX_AGE
    ∧ opt_maxAge o_user = Some MAX_AGE.
Proof.
  do 7 eexists. rewrite setAuthCookies_headers.
  split; [reflexivity |]. split; [reflexivity |]. split.
  { unfold clearAuthCookies, res_clearCookie. simpl. by rewrite <- app_assoc. }
  unfold same_scope, issue_options, clear_options, not_httpOnly. simpl.
  repeat split.
Qed.

(** After issuing, the browser holds both cookies; the token verifies at
    every instant before its expiry and decodes to the very id, email and
    role that the [auth_user] cookie shows; and the clearing headers
    remove exactly these two cookies. *)
Theorem cookies_carry_one_identity res user now res' :
  setAuthCookies mac SESSION_SECRET NODE_ENV res user now = Ok res' →
  ∀ jar,
    ∃ token decoded,
      apply_headers jar (res_headers res') !! ("auth_token", "/")
      = Some (TokenValue token)
      ∧ apply_headers jar (res_headers res') !! ("auth_user", "/")
        = Some (UserJson (payload_id user) (payload_email user) (payload_role user))
      ∧ (∀ t, (t < now + EXPIRES_IN)%Z →
              verifyJWT mac SESSION_SECRET token t = Ok decoded)
      ∧ as_JWTPayload decoded = user
      ∧ apply_headers (apply_headers jar (res_headers res'))
          (res_headers (clearAuthCookies NODE_ENV empty_response))
        = delete ("auth_user", "/")
            (delete ("auth_token", "/") (apply_headers jar (res_headers res))).
Proof.
  rewrite setAuthCookies_headers. intros [= <-] jar. simpl.
  exists (issued_token user now).
  eexists. unfold apply_headers. rewrite !foldl_app. simpl.
  split; [| split; [| split; [| split]]].
  - rewrite lookup_insert_ne by done. apply lookup_insert_eq.
  - apply lookup_insert_eq.
  - intros t Ht. unfold verifyJWT, issued_token, jwt_verify.
    rewrite secret_set, mac_nonempty. simpl. rewrite String.eqb_refl. simpl.
    assert ((now + EXPIRES_IN <=? t)%Z = false) as -> by lia.
    reflexivity.
  - by destruct user.
  - apply map_eq. intros k. rewrite !lookup_delete, !lookup_insert.
    repeat case_decide; simplify_eq; done.
Qed.

(** *** From login to the next request *)

Variable process_env_NODE_ENV : option string.
Variable findById : string → result (option UserDocument).

Abbreviation requireAuth' :=
  (requireAuth mac SESSION_SECRET process_env_NODE_ENV findById).

Lemma verify_issued user now t :
  (t < now + EXPIRES_IN)%Z →
  verifyJWT mac SESSION_SECRET (issued_token user now) t
  = Ok (mkClaims (payload_id user) (payload_email user) (payload_role user) now
          None (Some (now + EXPIRES_IN)%Z) (Some ISSUER) (Some AUDIENCE)).
Proof.
  intros Ht. unfold verifyJWT, issued_token, jwt_verify.
  rewrite secret_set, mac_nonempty. simpl. rewrite String.eqb_refl. simpl.
  assert ((now + EXPIRES_IN <=? t)%Z = false) as -> by lia.
  reflexivity.
Qed.

Lemma verify_issued_expired user now t :
  (now + EXPIRES_IN ≤ t)%Z →
  verifyJWT mac SESSION_SECRET (issued_token user now) t
  = Throw (TokenExpiredError "jwt expired").
Proof.
  intros Ht. unfold verifyJWT, issued_token, jwt_verify.
  rewrite secret_set, mac_nonempty. simpl. rewrite String.eqb_refl. simpl.
  assert ((now + EXPIRES_IN <=? t)%Z = true) as -> by lia.
  reflexivity.
Qed.

(** The [try] block behind a cookie parser, for a request that carries a
    token and no session. *)
Lemma try_block_token_only token later :
  token_truthy token = true →
  try_block mac SESSION_SECRET findById
    (mkRequest None (Some (mkCookies (Some token)))) later
  = match verifyJWT mac SESSION_SECRET token later with
    | Ok decoded =>
        (match findById (claim_id decoded) with
         | Ok (Some user) => Throw (strict_populate_error "memberships.workspace")
         | Ok None =>
             Throw (UnauthorizedException "User not found. Please log in again.")
         | Throw e => Throw e
         end,
         [EvVerifyJWT token; EvFindById (claim_id decoded)])
    | Throw e => (Throw e, [EvVerifyJWT token])
    end.
Proof.
  intros Ht. unfold try_block, session_attached, presented_token.
  cbn [req_user req_cookies cookies_auth_token]. rewrite Ht.
  unfold tbind, call_verifyJWT, call_findById, UserModel_findById_populate.
  destruct (verifyJWT mac SESSION_SECRET token later) as [decoded|e]; [| done].
  by destruct (findById (claim_id decoded)) as [[user'|]|e].
Qed.

Lemma cleared_jar res jar1 :
  credentials_absent
    (apply_headers jar1
       (res_headers
          (res_clearCookie "auth_user"
             (not_httpOnly (middleware_cookieOptions process_env_NODE_ENV))
             (res_clearCookie "auth_token"
                (middleware_cookieOptions process_env_NODE_ENV) res)))).
Proof.
  eapply cleared_both_absent. apply clearing_path.
Qed.

(** A login that succeeded answers 200, establishes the session and
    leaves in the browser a token that verifies for 24 hours. A later
    request that has the token and no session is nevertheless rejected. As
    the application is wired it ends in the [TypeError] of the undefined
    [req.cookies], with nothing verified, read or cleared. Behind a cookie
    parser the token is verified and the user read once, and the request
    is rejected all the same: with both cookies cleared when the user is
    stored or the token has expired, with "User not found" when the user
    is gone. *)
Theorem login_token_alone_is_rejected user info res now jar res1 later :
  let r := loginController mac SESSION_SECRET NODE_ENV None (Some user) info None
             res now in
  let jar' := apply_headers jar (res_headers (login_res r)) in
  let token :=
    issued_token (mkPayload (user_id user) (user_email user) None) now in
  login_outcome r = Responded
  ∧ res_status (login_res r) = Some HTTP_OK
  ∧ login_session r = Some user
  ∧ jar' !! ("auth_token", "/") = Some (TokenValue token)
  ∧ ((later < now + EXPIRES_IN)%Z →
     is_ok (verifyJWT mac SESSION_SECRET token later) = true)
  ∧ requireAuth' (request_from None jar') res1 later
    = mkRun (Threw cookies_undefined) (request_from None jar') res1 []
  ∧ (∀ stored,
       (later < now + EXPIRES_IN)%Z →
       findById (user_id user) = Ok (Some stored) →
       run_outcome (requireAuth' (parsed_request None jar') res1 later)
       = Threw (UnauthorizedException invalid_token_message)
       ∧ store_reads (run_trace (requireAuth' (parsed_request None jar') res1 later))
         = [user_id user]
       ∧ ∀ jar1,
           credentials_absent
             (apply_headers jar1
                (res_headers
                   (run_res (requireAuth' (parsed_request None jar') res1 later)))))
  ∧ ((later < now + EXPIRES_IN)%Z →
     findById (user_id user) = Ok None →
     run_outcome (requireAuth' (parsed_request None jar') res1 later)
     = Threw (UnauthorizedException "User not found. Please log in again."))
  ∧ ((now + EXPIRES_IN ≤ later)%Z →
     run_outcome (requireAuth' (parsed_request None jar') res1 later)
     = Threw (UnauthorizedException invalid_token_message)
     ∧ ∀ jar1,
         credentials_absent
           (apply_headers jar1
              (res_headers
                 (run_res (requireAuth' (parsed_request None jar') res1 later))))).
Proof.
  intros r jar' token.
  assert (r = mkLoginRun Responded
                (res_status_json HTTP_OK
                   (JsonMessageUser "Logged in successfully" user)
                   (mkResponse
                      (res_headers res
                       ++ [SetCookie "auth_token" (TokenValue token)
                             (issue_options true);
                           SetCookie "auth_user"
                             (UserJson (user_id user) (user_email user) None)
                             (issue_options false)])
                      (res_status res) (res_body res)))
                (Some user)) as Hr.
  { subst r token. unfold loginController. by rewrite setAuthCookies_headers. }
  subst jar'. rewrite Hr. clear Hr r.
  cbn [login_outcome login_res login_session res_status res_headers
         res_status_json].
  split; [done |]. split; [done |]. split; [done |].
  assert (apply_headers jar
            (res_headers res
             ++ [SetCookie "auth_token" (TokenValue token) (issue_options true);
                 SetCookie "auth_user"
                   (UserJson (user_id user) (user_email user) None)
                   (issue_options false)]) !! ("auth_token", "/")
          = Some (TokenValue token)) as Hjar.
  { unfold apply_headers. rewrite foldl_app. simpl.
    rewrite lookup_insert_ne by done. by rewrite lookup_insert_eq. }
  subst token.
  split; [exact Hjar |].
  split; [intros Ht; by rewrite (verify_issued _ _ _ Ht) |].
  split; [reflexivity |].
  unfold parsed_request. rewrite Hjar.
  split; [| split].
  - intros stored Ht Hread. unfold requireAuth.
    rewrite try_block_token_only by done.
    rewrite (verify_issued _ _ _ Ht). cbn [claim_id payload_id].
    rewrite Hread. cbn [req_cookies].
    split; [done |]. split; [done |]. intros jar1. apply cleared_jar.
  - intros Ht Hread. unfold requireAuth.
    rewrite try_block_token_only by done.
    rewrite (verify_issued _ _ _ Ht). cbn [claim_id payload_id].
    rewrite Hread. done.
  - intros Ht. unfold requireAuth.
    rewrite try_block_token_only by done.
    rewrite (verify_issued_expired _ _ _ Ht). cbn [req_cookies].
    split; [done |]. intros jar1. apply cleared_jar.
Qed.

(** After a logout, the next request of that browser is rejected: it
    carries neither session user nor token. As the application is wired it
    ends in the [TypeError] of the undefined [req.cookies]; behind a
    cookie parser it ends in [UnauthorizedException]. *)
Theorem logout_then_request sid w res1 later :
  let w' := app_logout NODE_ENV sid w in
  let session_user := w_sessions w' !! sid in
  requireAuth' (request_from session_user (w_jar w')) res1 later
  = mkRun (Threw cookies_undefined) (request_from session_user (w_jar w')) res1 []
  ∧ requireAuth' (parsed_request session_user (w_jar w')) res1 later
    = mkRun (Threw (UnauthorizedException "Unauthorized. Please log in."))
        (parsed_request session_user (w_jar w')) res1
        [EvConsoleError "Unauthorized. Please log in." false].
Proof.
  intros w' session_user. subst session_user.
  assert (w_sessions w' !! sid = None) as ->.
  { subst w'. unfold app_logout. rewrite logout_sessions. apply lookup_delete_eq. }
  assert (w_jar w' !! ("auth_token", "/") = None) as Hjar.
  { subst w'. apply logout_jar. }
  split; [reflexivity |]. unfold parsed_request. rewrite Hjar. reflexivity.
Qed.

(** After a logout whose session destroy failed, both cookies are gone
    but the next request of that browser still passes the middleware, as
    the session user. *)
Theorem logout_with_failed_destroy_keeps_session sid w res1 later err user :
  w_sessions w !! sid = Some user →
  truthy (user_id user) = true →
  let w' := logout NODE_ENV (Some err) sid w in
  let req := request_from (w_sessions w' !! sid) (w_jar w') in
  cookies_absent w'
  ∧ requireAuth' req res1 later = mkRun Next req res1 []
  ∧ req_user req = Some user.
Proof.
  intros Hs Hid w' req. subst req.
  split; [apply logout_jar |].
  assert (w_sessions w' !! sid = Some user) as ->.
  { subst w'. by rewrite logout_sessions. }
  unfold requireAuth, try_block, session_attached, request_from. simpl.
  by rewrite Hid.
Qed.


(** *** What the middleware does to the request and the response *)

(** The middleware calls [next()] exactly for a request with a session
    user, and then leaves request and response as they are. Without one,
    it throws the [TypeError] of the property read when [req.cookies] is
    undefined, touching nothing; and when [req.cookies] is there it throws
    [UnauthorizedException] with the request untouched and the response
    either untouched or extended by the two clearing headers. It never
    attaches a user and never sets a cookie. *)
Theorem requireAuth_passes_only_sessions req res now :
  (run_outcome (requireAuth' req res now) = Next ↔ session_attached req = true)
  ∧ (session_attached req = true →
     requireAuth' req res now = mkRun Next req res [])
  ∧ (session_attached req = false → req_cookies req = None →
     requireAuth' req res now = mkRun (Threw cookies_undefined) req res [])
  ∧ (session_attached req = false → is_Some (req_cookies req) →
     ∃ message,
       run_outcome (requireAuth' req res now)
       = Threw (UnauthorizedException message)
       ∧ run_req (requireAuth' req res now) = req
       ∧ (run_res (requireAuth' req res now) = res
          ∨ cleared_both process_env_NODE_ENV res (run_res (requireAuth' req res now)))).
Proof.
  destruct (session_attached req) eqn:Es.
  { unfold requireAuth. rewrite (try_block_session _ _ _ _ _ Es).
    split; [done |]. split; [done |]. split; discriminate. }
  destruct (req_cookies req) as [cookies|] eqn:Ec.
  2: { rewrite (requireAuth_cookies_undefined mac SESSION_SECRET
                  process_env_NODE_ENV findById req res now Es Ec).
       split; [split; discriminate |]. split; [discriminate |].
       split; [done |]. by intros _ [? ?]. }
  unfold requireAuth.
  destruct (try_block_no_session mac SESSION_SECRET findById req now Es)
    as (e & trace & ->).
  rewrite Ec. split.
  { split; [| discriminate]. destruct (instanceof_Unauthorized e); discriminate. }
  split; [discriminate |]. split; [discriminate |]. intros _ _.
  destruct (instanceof_Unauthorized e) eqn:Ee; simpl.
  - destruct e; try discriminate. eauto.
  - eexists. split; [done |]. split; [done |]. right. apply clearing_path.
Qed.

(** A token that [verifyJWT] accepts is a compact token under an HMAC
    algorithm whose signature is the one the configured secret gives, not
    yet expired, issued by team-sync-app for team-sync-users. *)
Lemma verifyJWT_accepts_only token now decoded :
  verifyJWT mac SESSION_SECRET token now = Ok decoded →
  ∃ header signature,
    token = Compact header decoded signature
    ∧ hmac_algorithm (hdr_alg header) = true
    ∧ signature = mac (hdr_alg header) SESSION_SECRET (header, decoded)
    ∧ (∀ exp, claim_exp decoded = Some exp → (now < exp)%Z)
    ∧ claim_aud decoded = Some "team-sync-users"
    ∧ claim_iss decoded = Some "team-sync-app".
Proof. apply jwt_verify_Ok_inv. Qed.

End CredentialFlow.

(** *** The flows with the stand-in signature *)

Definition alice_doc : UserDocument :=
  mkUser "u-alice" "alice@example.com" "Alice" None true (Some "w-alice").

(** What [findById] answers on a user collection that holds Alice. *)
Definition users_alice (id : string) : result (option UserDocument) :=
  Ok (find (λ u, String.eqb (user_id u) id) [alice_doc]).

Lemma toy_mac_nonempty key m : truthy (toy_mac HS256 key m) = true.
Proof. reflexivity. Qed.

Lemma issued_cookies_are_cleared_alike_witness :
  truthy "s3cret" = true
  ∧ ∃ res' token user_json o_token o_user c_token c_user,
      setAuthCookies toy_mac "s3cret" "production" empty_response alice_payload
        1000 = Ok res'
      ∧ res_headers res'
        = res_headers empty_response
          ++ [SetCookie "auth_token" token o_token;
              SetCookie "auth_user" user_json o_user]
      ∧ res_headers (clearAuthCookies "production" empty_response)
        = res_headers empty_response
          ++ [ClearCookie "auth_token" c_token; ClearCookie "auth_user" c_user]
      ∧ same_scope o_token c_token
      ∧ same_scope o_user c_user
      ∧ opt_httpOnly o_token = true
      ∧ opt_httpOnly o_user = false
      ∧ opt_maxAge o_token = Some MAX_AGE
      ∧ opt_maxAge o_user = Some MAX_AGE.
Proof.
  split; [reflexivity |].
  exact (issued_cookies_are_cleared_alike toy_mac "s3cret" "production" eq_refl
           empty_response empty_response alice_payload 1000).
Defined.

Lemma cookies_carry_one_identity_witness :
  truthy "s3cret" = true
  ∧ setAuthCookies toy_mac "s3cret" "development" empty_response alice_payload 1000
    = Ok (mkResponse
            [SetCookie "auth_token" (TokenValue alice_token)
               (mkCookieOptions true false SameSiteLax (Some 86400000%Z) "/");
             SetCookie "auth_user" (UserJson "u-alice" "alice@example.com" None)
               (mkCookieOptions false false SameSiteLax (Some 86400000%Z) "/")]
            None None)
  ∧ ∃ token decoded,
      (∀ t, (t < 1000 + EXPIRES_IN)%Z →
            verifyJWT toy_mac "s3cret" token t = Ok decoded)
      ∧ as_JWTPayload decoded = alice_payload.
Proof.
  split; [reflexivity |]. split; [reflexivity |].
  destruct (cookies_carry_one_identity toy_mac "s3cret" "development" eq_refl
              (toy_mac_nonempty "s3cret") empty_response alice_payload 1000 _
              eq_refl ∅) as (token & decoded & _ & _ & Hv & Hp & _).
  exists token, decoded. split; [exact Hv | exact Hp].
Defined.

Lemma login_token_alone_is_rejected_witness :
  truthy "s3cret" = true
  ∧ (5000 < 1000 + EXPIRES_IN)%Z
  ∧ users_alice "u-alice" = Ok (Some alice_doc)
  ∧ run_outcome
      (requireAuth toy_mac "s3cret" None users_alice
         (parsed_request None
            (apply_headers ∅
               (res_headers
                  (login_res
                     (loginController toy_mac "s3cret" "development" None
                        (Some alice_doc) None None empty_response 1000)))))
         empty_response 5000)
    = Threw (UnauthorizedException invalid_token_message)
  ∧ requireAuth toy_mac "s3cret" None users_alice
      (request_from None
         (apply_headers ∅
            (res_headers
               (login_res
                  (loginController toy_mac "s3cret" "development" None
                     (Some alice_doc) None None empty_response 1000)))))
      empty_response 5000
    = mkRun (Threw (cookies_undefined)) (mkRequest None None) empty_response [].
Proof.
  split; [reflexivity |]. split; [reflexivity |]. split; [reflexivity |].
  destruct (login_token_alone_is_rejected toy_mac "s3cret" "development" eq_refl
              (toy_mac_nonempty "s3cret") None users_alice alice_doc None
              empty_response 1000 ∅ empty_response 5000)
    as (_ & _ & _ & _ & _ & Hwired & Hstored & _).
  split; [exact (proj1 (Hstored alice_doc eq_refl eq_refl)) | exact Hwired].
Defined.

Lemma logout_with_failed_destroy_keeps_session_witness :
  w_sessions logged_in !! "sid-1" = Some alice
  ∧ truthy (user_id alice) = true
  ∧ cookies_absent (logout "development" (Some store_down) "sid-1" logged_in)
  ∧ run_outcome
      (requireAuth toy_mac "s3cret" None users_alice
         (request_from
            (w_sessions (logout "development" (Some store_down) "sid-1" logged_in)
               !! "sid-1")
            (w_jar (logout "development" (Some store_down) "sid-1" logged_in)))
         empty_response 5000)
    = Next.
Proof.
  split; [reflexivity |]. split; [reflexivity |].
  destruct (logout_with_failed_destroy_keeps_session toy_mac "s3cret"
              "development" None users_alice "sid-1" logged_in empty_response
              5000 store_down alice eq_refl eq_refl) as (Hc & Hrun & _).
  split; [exact Hc |]. by rewrite Hrun.
Defined.

End CredentialFlow.

(** ** middlewares/async-handler and error-handler *)

Module ErrorHandling.
Import RoleGuard Membership ServiceProperties WorkspaceController AuthController.

(** What reaches the error middleware: a [SyntaxError], as the JSON body
    parser raises, or one of the exceptions of the application. *)
Inductive Raised : Type :=
| RaisedSyntaxError (message : string)
| RaisedException (e : Exception).

(** The answer of the error middleware: the status, the [message] field of
    the body and whether the body discloses the stack. *)
Record ErrorAnswer : Type := mkErrorAnswer {
  ans_status : N;
  ans_message : string;
  ans_stack : bool;
}.

(** middlewares/error-handler.middleware.ts *)
Definition errorHandler (process_env_NODE_ENV : option string) (err : Raised)
    : ErrorAnswer :=
  match err with
  | RaisedSyntaxError _ =>
      mkErrorAnswer HTTP_BAD_REQUEST "Invalid JSON payload" false
  | RaisedException e =>
      mkErrorAnswer HTTP_INTERNAL_SERVER_ERROR
        (if truthy (message_of e) then message_of e else "Internal Server Error")
        (bool_decide (process_env_NODE_ENV = Some "development"))
  end.

(** middlewares/async-handler.middleware.ts: the controller answered, or
    what it threw went to [next]. *)
Inductive Handled (A : Type) : Type :=
| Answered (sent : Sent A)
| PassedOn (error : Exception).
Arguments Answered {A} sent.
Arguments PassedOn {A} error.

Definition asyncHandler {A} (controller : Svc (Sent A))
    : Database → Handled A * Database :=
  λ db, match controller db with
        | (Ok sent, db') => (Answered sent, db')
        | (Throw error, db') => (PassedOn error, db')
        end.

(** The status the client receives from a wrapped controller followed by
    the error middleware. *)
Definition final_status {A} (process_env_NODE_ENV : option string)
    (h : Handled A) : N :=
  match h with
  | Answered sent => sent_status sent
  | PassedOn error =>
      ans_status (errorHandler process_env_NODE_ENV (RaisedException error))
  end.

(** The status the client receives from the login route. *)
Definition login_status (process_env_NODE_ENV : option string) (r : LoginRun)
    : option N :=
  match login_outcome r with
  | Responded => res_status (login_res r)
  | NextError e =>
      Some (ans_status (errorHandler process_env_NODE_ENV (RaisedException e)))
  | _ => None
  end.

Section ErrorHandling.
Context {PermissionType : Type} `{EqDecision PermissionType}.
Variable RolePermissions : gmap string (list PermissionType).
Variable process_env_NODE_ENV : option string.

(** A guarded controller behind [asyncHandler] and the error middleware:
    a caller who is not granted the permission receives status 500,
    whatever status the exception carries, and nothing is written. *)
Theorem refused_caller_is_answered_500 {A} (k : Svc (Sent A))
    userId workspaceId permission db :
  ¬ (workspace_exists db workspaceId
     ∧ granted RolePermissions db userId workspaceId permission) →
  final_status process_env_NODE_ENV
    (fst (asyncHandler (authorize RolePermissions userId workspaceId [permission] >>! k) db))
  = HTTP_INTERNAL_SERVER_ERROR
  ∧ snd (asyncHandler (authorize RolePermissions userId workspaceId [permission] >>! k) db)
    = db.
Proof.
  intros Hno.
  destruct (guarded_refused RolePermissions k userId workspaceId permission db Hno)
    as [e He].
  unfold asyncHandler. rewrite He. done.
Qed.

End ErrorHandling.

Section LoginStatus.
Variable mac : Algorithm → string → JoseHeader * Claims → string.
Variable SESSION_SECRET NODE_ENV : string.
Variable process_env_NODE_ENV : option string.

End LoginStatus.

Example syntax_error_is_400 :
  errorHandler None (RaisedSyntaxError "Unexpected token") 
  = mkErrorAnswer 400 "Invalid JSON payload" false.
Proof. reflexivity. Qed.

Example not_found_is_500 :
  errorHandler (Some "production")
    (RaisedException (NotFoundException "Workspace not found"))
  = mkErrorAnswer 500 "Workspace not found" false.
Proof. reflexivity. Qed.

(** C10 (the code at the failing input). Alice is registered and someone
    logs in with her address and a wrong password. The service throws
    [UnauthorizedException]; the local strategy reports it to Passport as an
    error, so the login callback receives it as [err] and hands it to
    [next]; the error middleware answers 500. The branch that answers 401
    is not reached. No session is established and no cookie is set. An
    address that is not registered fares the same. *)
Theorem wrong_password_is_answered_500 :
  fst (verifyUserService toy_compare "alice@example.com" "guess" two_users)
  = Throw (UnauthorizedException "Invalid email or password")
  ∧ login toy_mac "s3cret" "production" toy_compare "alice@example.com" "guess"
      None two_users empty_response 1000
    = mkLoginRun (NextError (UnauthorizedException "Invalid email or password"))
        empty_response None
  ∧ errorHandler (Some "production")
      (RaisedException (UnauthorizedException "Invalid email or password"))
    = mkErrorAnswer 500 "Invalid email or password" false
  ∧ login_status (Some "production")
      (login toy_mac "s3cret" "production" toy_compare "alice@example.com"
         "guess" None two_users empty_response 1000)
    = Some 500%N
  ∧ login_status (Some "production")
      (login toy_mac "s3cret" "production" toy_compare "carol@example.com" "c"
         None two_users empty_response 1000)
    = Some 500%N.
Proof. repeat split. Qed.

Lemma refused_caller_is_answered_500_witness :
  ¬ (workspace_exists two_users "w-alice"
     ∧ granted sample_table two_users "u-bob" "w-alice" "DELETE_WORKSPACE")
  ∧ final_status (Some "production")
      (fst (asyncHandler
              (deleteWorkspaceByIdController sample_table "DELETE_WORKSPACE"
                 "u-bob" "w-alice") two_users))
    = 500%N.
Proof.
  assert (¬ (workspace_exists two_users "w-alice"
             ∧ granted sample_table two_users "u-bob" "w-alice"
                 "DELETE_WORKSPACE")) as Hno
    by (apply bob_not_granted; discriminate).
  split; [exact Hno |].
  exact (proj1 (refused_caller_is_answered_500 sample_table (Some "production")
                  _ "u-bob" "w-alice" "DELETE_WORKSPACE" two_users Hno)).
Defined.


End ErrorHandling.

(** ** Signing in with Google (auth.service.ts, auth.controller.ts) *)

Module GoogleLogin.
Import Membership ServiceProperties CredentialFlow.

Lemma loginOrCreate_new_inv fr provider displayName providerId email db user db' :
  find (λ u, String.eqb (user_email u) (userSchema_email email)) (db_users db)
  = None →
  loginOrCreateAccountService fr provider displayName providerId email db
  = (Ok user, db') →
  ∃ ownerRole,
    (∀ d, d ∈ db_users db → user_id d ≠ fresh_user fr)
    ∧ (∀ d, d ∈ db_workspaces db → ws_id d ≠ fresh_workspace fr)
    ∧ find (λ d, String.eqb (role_name d) Roles_OWNER) (db_roles db) = Some ownerRole
    ∧ user = mkUser (fresh_user fr) (userSchema_email email)
               (String_trim displayName) None true (Some (fresh_workspace fr))
    ∧ db' = mkDatabase
              (db_users db ++ [user])
              (db_accounts db ++ [mkAccount (fresh_account fr) (fresh_user fr)
                                    provider providerId])
              (db_workspaces db ++ [mkWorkspace (fresh_workspace fr) "My Workspace"
                                      (fresh_user fr) (fresh_inviteCode fr)])
              (db_roles db)
              (db_members db ++ [mkMember (fresh_member fr) (fresh_user fr)
                                   (fresh_workspace fr) (role_id ownerRole)]).
Proof.
  intros Hnew.
  unfold loginOrCreateAccountService, transaction, create_first_workspace.
  svc_unfold. rewrite Hnew. simpl.
  destruct (String.eqb (userSchema_email email) ""); simpl; [discriminate |].
  destruct (insert_unique _ _ (db_users db)) as [c|e] eqn:Iu; simpl; [| discriminate].
  destruct (String.eqb provider ""); simpl; [discriminate |].
  destruct (String.eqb providerId ""); simpl; [discriminate |].
  destruct (insert_unique _ _ (db_accounts db)) as [c1|e] eqn:Ia; simpl; [| discriminate].
  destruct (insert_unique _ _ (db_workspaces db)) as [c2|e] eqn:Iw; simpl; [| discriminate].
  destruct (find _ (db_roles db)) as [r0|] eqn:Er; simpl; [| discriminate].
  destruct (insert_unique _ _ (db_members db)) as [c3|e] eqn:Im; simpl; [| discriminate].
  apply insert_unique_Ok in Iu as [-> Hu].
  apply insert_unique_Ok in Ia as [-> Ha].
  apply insert_unique_Ok in Iw as [-> Hw].
  apply insert_unique_Ok in Im as [-> Hm].
  intros [= <- <-]. exists r0.
  assert (∀ d, d ∈ db_users db → user_id d ≠ fresh_user fr) as Hfresh.
  { intros d Hd Heq. specialize (Hu d Hd). simpl in Hu.
    apply orb_false_iff in Hu as [Hu _]. rewrite Heq, String.eqb_refl in Hu. done. }
  split; [done |]. split; [| split; [done | split; [done |]]].
  - intros d Hd Heq. specialize (Hw d Hd). simpl in Hw.
    apply orb_false_iff in Hw as [Hw _]. rewrite Heq, String.eqb_refl in Hw. done.
  - unfold set_members, set_workspaces, set_accounts, set_users. simpl. f_equal.
    by apply (replace_by_id_snoc_fresh user_id (db_users db)
                (mkUser (fresh_user fr) (userSchema_email email)
                   (String_trim displayName) None true None)).
Qed.

Section GoogleLogin.

Variable mac : Algorithm → string → JoseHeader * Claims → string.
Variable SESSION_SECRET NODE_ENV : string.

(** config/app.config.ts *)
Variable FRONTEND_GOOGLE_CALLBACK_URL FRONTEND_ORIGIN : string.

(** The callback answers with a redirect: the result is the location and
    the response with its headers; what [setAuthCookies] throws goes to
    [next] through [asyncHandler]. *)
Definition googleLoginCallback (user : option UserDocument) (res : Response)
    (now : Z) : result (string * Response) :=
  let currentWorkspace := user ≫= user_currentWorkspace in
  match currentWorkspace, user with
  | Some workspaceId, Some user =>
      if negb (truthy workspaceId)
      then Ok (String.append FRONTEND_GOOGLE_CALLBACK_URL "?status=failure", res)
      else
        let! res :=
          setAuthCookies mac SESSION_SECRET NODE_ENV res
            (mkPayload (user_id user) (user_email user) None) now in
        Ok (String.append FRONTEND_ORIGIN
              (String.append "/workspace/" workspaceId), res)
  | _, _ => Ok (String.append FRONTEND_GOOGLE_CALLBACK_URL "?status=failure", res)
  end.

Lemma google_callback_without_workspace user res now :
  (user ≫= user_currentWorkspace) = None →
  googleLoginCallback user res now
  = Ok (String.append FRONTEND_GOOGLE_CALLBACK_URL "?status=failure", res).
Proof.
  intros H. unfold googleLoginCallback. rewrite H. done.
Qed.

(** A first Google login, of an address that no stored user has once it
    is trimmed and put in lower case, creates the user under that form of
    the address with a workspace of its own: the user is OWNER there, and
    the callback issues both cookies for the new user and redirects to that
    workspace. *)
Theorem google_first_login_lands_in_own_workspace
    fr provider displayName providerId email db user db' res now :
  truthy SESSION_SECRET = true →
  truthy (fresh_workspace fr) = true →
  consistent db →
  NoDup (role_id <$> db_roles db) →
  find (λ u, String.eqb (user_email u) (userSchema_email email)) (db_users db)
  = None →
  loginOrCreateAccountService fr provider displayName providerId email db
  = (Ok user, db') →
  user = mkUser (fresh_user fr) (String_trim (String_toLowerCase email))
           (String_trim displayName) None true (Some (fresh_workspace fr))
  ∧ getMemberRoleInWorkspace (user_id user) (fresh_workspace fr) db'
    = (Ok (Some Roles_OWNER), db')
  ∧ ∃ res',
      googleLoginCallback (Some user) res now
      = Ok (String.append FRONTEND_ORIGIN
              (String.append "/workspace/" (fresh_workspace fr)), res')
      ∧ res_headers res'
        = res_headers res
          ++ [SetCookie "auth_token"
                (TokenValue
                   (issued_token mac SESSION_SECRET
                      (mkPayload (user_id user) (user_email user) None) now))
                (issue_options NODE_ENV true);
              SetCookie "auth_user"
                (UserJson (user_id user) (user_email user) None)
                (issue_options NODE_ENV false)].
Proof.
  intros Hsecret Hwid Hc Hroles Hnew Hrun.
  apply loginOrCreate_new_inv in Hrun as (o & Hu & Hw & Ho & -> & ->); [| done].
  apply find_role_by_name in Ho as [Hoin Hname]. split; [done |]. split.
  - unfold getMemberRoleInWorkspace. svc_unfold.
    destruct (find_snoc_is_Some (λ d, String.eqb (ws_id d) (fresh_workspace fr))
                (db_workspaces db)
                (mkWorkspace (fresh_workspace fr) "My Workspace" (fresh_user fr)
                   (fresh_inviteCode fr)) (String.eqb_refl _)) as [w' ->].
    simpl.
    rewrite (find_snoc_new (is_member_of (fresh_user fr) (fresh_workspace fr))
               (db_members db)
               (mkMember (fresh_member fr) (fresh_user fr) (fresh_workspace fr)
                  (role_id o))).
    + simpl. rewrite (populate_found_role _ o Hroles Hoin). simpl. by rewrite Hname.
    + intros d Hd. destruct (is_member_of _ _ d) eqn:E; [| done].
      apply is_member_of_true in E.
      destruct (unreferenced_workspace db (fresh_workspace fr) (fresh_user fr) Hc Hw).
      apply list_elem_of_fmap. eauto.
    + apply is_member_of_true. reflexivity.
  - unfold googleLoginCallback. simpl. rewrite Hwid. simpl.
    rewrite (setAuthCookies_headers mac SESSION_SECRET NODE_ENV Hsecret). simpl.
    eexists. split; reflexivity.
Qed.

(** A Google login with an email that is already stored signs in as the
    stored user of that email, whatever provider id came with it and
    however the address is spelled (the lookup trims it and puts it in
    lower case, which leaves an address in that form as it is): nothing is
    written, and the callback issues the cookies for that user and
    redirects to the user's current workspace. *)
Theorem google_login_of_known_email
    fr provider displayName providerId email db u workspaceId res now :
  truthy SESSION_SECRET = true →
  find (λ d, String.eqb (user_email d) (userSchema_email email)) (db_users db)
  = Some u →
  user_currentWorkspace u = Some workspaceId →
  truthy workspaceId = true →
  loginOrCreateAccountService fr provider displayName providerId email db
  = (Ok u, db)
  ∧ ∃ res',
      googleLoginCallback (Some u) res now
      = Ok (String.append FRONTEND_ORIGIN
              (String.append "/workspace/" workspaceId), res')
      ∧ res_headers res'
        = res_headers res
          ++ [SetCookie "auth_token"
                (TokenValue
                   (issued_token mac SESSION_SECRET
                      (mkPayload (user_id u) (user_email u) None) now))
                (issue_options NODE_ENV true);
              SetCookie "auth_user" (UserJson (user_id u) (user_email u) None)
                (issue_options NODE_ENV false)].
Proof.
  intros Hsecret Hfind Hcur Hwid. split.
  - unfold loginOrCreateAccountService, transaction. svc_unfold. by rewrite Hfind.
  - unfold googleLoginCallback. simpl. rewrite Hcur, Hwid. simpl.
    rewrite (setAuthCookies_headers mac SESSION_SECRET NODE_ENV Hsecret). simpl.
    eexists. split; reflexivity.
Qed.

End GoogleLogin.

(** *** A first and a second Google login *)

Definition fresh_carol : Fresh :=
  mkFresh "u-carol" "a-carol" "w-carol" "m-carol" "inv-carol".

Example google_no_user :
  googleLoginCallback toy_mac "s3cret" "production" "https://app/callback"
    "https://app" None empty_response 1000
  = Ok ("https://app/callback?status=failure", empty_response).
Proof. reflexivity. Qed.

Lemma google_first_login_lands_in_own_workspace_witness :
  truthy "s3cret" = true
  ∧ consistent two_users
  ∧ find (λ u, String.eqb (user_email u) (userSchema_email " Carol@Example.com"))
      (db_users two_users)
    = None
  ∧ fst (loginOrCreateAccountService fresh_carol "GOOGLE" "Carol " "g-123"
           " Carol@Example.com" two_users)
    = Ok (mkUser "u-carol" "carol@example.com" "Carol" None true (Some "w-carol"))
  ∧ getMemberRoleInWorkspace "u-carol" "w-carol"
      (snd (loginOrCreateAccountService fresh_carol "GOOGLE" "Carol " "g-123"
              " Carol@Example.com" two_users))
    = (Ok (Some "OWNER"),
       snd (loginOrCreateAccountService fresh_carol "GOOGLE" "Carol " "g-123"
              " Carol@Example.com" two_users)).
Proof.
  split; [reflexivity |]. split; [exact two_users_consistent |].
  split; [reflexivity |]. split; [reflexivity |].
  exact (proj1 (proj2
           (google_first_login_lands_in_own_workspace toy_mac "s3cret"
              "production" "https://app/callback" "https://app" fresh_carol
              "GOOGLE" "Carol " "g-123" " Carol@Example.com" two_users _ _
              empty_response 1000 eq_refl eq_refl two_users_consistent
              seeded_role_ids_distinct eq_refl eq_refl))).
Defined.

Lemma google_login_of_known_email_witness :
  truthy "s3cret" = true
  ∧ find (λ d, String.eqb (user_email d) (userSchema_email "alice@example.com"))
      (db_users two_users)
    = Some (mkUser "u-alice" "alice@example.com" "Alice" (Some "hash-a") true
              (Some "w-alice"))
  ∧ loginOrCreateAccountService fresh_carol "GOOGLE" "Mallory" "g-666"
      "alice@example.com" two_users
    = (Ok (mkUser "u-alice" "alice@example.com" "Alice" (Some "hash-a") true
             (Some "w-alice")), two_users).
Proof.
  split; [reflexivity |]. split; [reflexivity |].
  exact (proj1 (google_login_of_known_email toy_mac "s3cret" "production"
                  "https://app/callback" "https://app" fresh_carol "GOOGLE"
                  "Mallory" "g-666" "alice@example.com" two_users _ "w-alice"
                  empty_response 1000 eq_refl eq_refl eq_refl eq_refl)).
Defined.

(** The same login under another spelling of the address. *)
Example google_login_other_spelling :
  loginOrCreateAccountService fresh_carol "GOOGLE" "Mallory" "g-666"
    "  Alice@Example.COM " two_users
  = (Ok (mkUser "u-alice" "alice@example.com" "Alice" (Some "hash-a") true
           (Some "w-alice")), two_users).
Proof. reflexivity. Qed.

End GoogleLogin.



(** * Client helpers (client/src/lib/helper.ts) *)

Module ClientHelpers.

(** A JavaScript string as its sequence of UTF-16 code units. *)
Definition JsString := list nat.

Definition UNDERSCORE : nat := 95.
Definition SPACE : nat := 32.

Definition colors : list string :=
  [ "bg-red-500 text-white";
    "bg-blue-500 text-white";
    "bg-green-500 text-white";
    "bg-yellow-500 text-black";
    "bg-purple-500 text-white";
    "bg-pink-500 text-white";
    "bg-teal-500 text-white";
    "bg-orange-500 text-black";
    "bg-gray-500 text-white" ].

(** [initials.split("").reduce((acc, char) => acc + char.charCodeAt(0), 0)] *)
Definition char_code_sum (initials : JsString) : nat :=
  foldl (λ acc char, acc + char)%nat 0%nat initials.

(** [colors[hash % colors.length]]: the element, or [undefined] as [None]. *)
Definition getAvatarColor (initials : JsString) : option string :=
  let hash := char_code_sum initials in
  colors !! (hash mod length colors)%nat.

(** [status.replace(/_/g, " ")] *)
Definition transformStatusEnum (status : JsString) : JsString :=
  map (λ c, if Nat.eqb c UNDERSCORE then SPACE else c) status.

(** [s.split(" ")]: the pieces between the spaces; never an empty list. *)
Fixpoint split_space (s : JsString) : list JsString :=
  match s with
  | [] => [[]]
  | c :: rest =>
      if Nat.eqb c SPACE then [] :: split_space rest
      else match split_space rest with
           | piece :: pieces => (c :: piece) :: pieces
           | [] => [[c]]
           end
  end.

(** [n.charAt(0)] *)
Definition charAt0 (n : JsString) : JsString := take 1 n.

Definition NA : JsString := [78; 65]%nat.

(** No two underscores in a row. *)
Fixpoint single_underscores (s : JsString) : bool :=
  match s with
  | a :: (b :: _) as rest =>
      negb (Nat.eqb a UNDERSCORE && Nat.eqb b UNDERSCORE) && single_underscores rest
  | _ => true
  end.

Section Engine.

(** [String.prototype.toUpperCase] and the class [\s] of the regular
    expression engine. *)
Variable toUpperCase : JsString → JsString.
Variable is_space : nat → bool.

Definition getAvatarFallbackText (name : JsString) : JsString :=
  match name with
  | [] => NA
  | _ =>
      let initials :=
        take 2 (concat (map (λ n, toUpperCase (charAt0 n)) (split_space name))) in
      match initials with
      | [] => NA
      | _ => initials
      end
  end.

(** [s.replace(/\s+/g, "_")]: every maximal run of whitespace becomes one
    underscore; [in_run] tells that the previous unit was whitespace. *)
Fixpoint replace_spaces (in_run : bool) (s : JsString) : JsString :=
  match s with
  | [] => []
  | c :: rest =>
      if is_space c
      then (if in_run then [] else [UNDERSCORE]) ++ replace_spaces true rest
      else c :: replace_spaces false rest
  end.

Definition formatStatusToEnum (status : JsString) : JsString :=
  replace_spaces false (toUpperCase status).

End Engine.

(** An engine restricted to ASCII, for the examples. *)
Definition ascii_upper (s : JsString) : JsString :=
  map (λ c, if (Nat.leb 97 c && Nat.leb c 122)%bool then (c - 32)%nat else c) s.

Definition ascii_space (c : nat) : bool :=
  (Nat.leb 9 c && Nat.leb c 13)%bool || Nat.eqb c SPACE.

(** "IN_PROGRESS", "john doe" and "  " *)
Definition IN_PROGRESS : JsString := [73; 78; 95; 80; 82; 79; 71; 82; 69; 83; 83]%nat.
Definition john_doe : JsString := [106; 111; 104; 110; 32; 100; 111; 101]%nat.
Definition two_spaces : JsString := [32; 32]%nat.

Lemma foldl_add_shift (l : list nat) (a : nat) :
  foldl (λ acc char, acc + char)%nat a l
  = (a + foldl (λ acc char, acc + char)%nat 0 l)%nat.
Proof.
  revert a. induction l as [|c l IH]; intros a; simpl; [lia |].
  rewrite (IH (a + c)%nat), (IH c). lia.
Qed.

Lemma char_code_sum_perm (l l' : JsString) :
  l ≡ₚ l' → char_code_sum l = char_code_sum l'.
Proof.
  unfold char_code_sum. induction 1 as [|c l l' _ IH|c d l|l l' l'' _ IH1 _ IH2];
    simpl; [done | | | congruence].
  - by rewrite (foldl_add_shift l c), (foldl_add_shift l' c), IH.
  - rewrite (foldl_add_shift l (d + c)%nat), (foldl_add_shift l (c + d)%nat). lia.
Qed.

Lemma replace_spaces_transform is_space (s : JsString) (in_run : bool) :
  is_space SPACE = true →
  forallb (λ c, negb (is_space c)) s = true →
  single_underscores s = true →
  (in_run = true → ∀ c rest, s = c :: rest → c ≠ UNDERSCORE) →
  replace_spaces is_space in_run (transformStatusEnum s) = s.
Proof.
  intros Hsp. revert in_run.
  induction s as [|a s IH]; intros in_run Hns Hsingle Hrun; [done |].
  simpl in Hns. apply andb_true_iff in Hns as [Ha Hns].
  apply negb_true_iff in Ha.
  assert (single_underscores s = true) as Hs.
  { destruct s as [|b s]; [done |]. simpl in Hsingle.
    by apply andb_true_iff in Hsingle as [_ ?]. }
  simpl. destruct (Nat.eqb a UNDERSCORE) eqn:Ea.
  - apply Nat.eqb_eq in Ea. subst a. rewrite Hsp.
    destruct in_run; [by destruct (Hrun eq_refl UNDERSCORE s) |].
    simpl. f_equal. apply IH; [done | done |].
    intros _ c rest -> ->. simpl in Hsingle. done.
  - rewrite Ha. f_equal. apply IH; [done | done | discriminate].
Qed.

(** The avatar colour is always one of the nine classes, and depends on
    the initials only up to the order of their code units. *)
Theorem getAvatarColor_one_of_nine_and_order_blind (initials : JsString) :
  (∃ color, getAvatarColor initials = Some color ∧ color ∈ colors)
  ∧ ∀ initials', initials ≡ₚ initials' →
      getAvatarColor initials' = getAvatarColor initials.
Proof.
  split.
  - unfold getAvatarColor.
    destruct (lookup_lt_is_Some_2 colors (char_code_sum initials mod length colors)%nat)
      as [color Hc].
    { apply Nat.mod_upper_bound. discriminate. }
    exists color. split; [done |]. by eapply list_elem_of_lookup_2.
  - intros initials' Hp. unfold getAvatarColor.
    by rewrite (char_code_sum_perm _ _ Hp).
Qed.

Lemma getAvatarColor_one_of_nine_and_order_blind_witness :
  getAvatarColor [68; 74]%nat = getAvatarColor [74; 68]%nat.
Proof.
  apply (getAvatarColor_one_of_nine_and_order_blind [74; 68]%nat). apply perm_swap.
Defined.

(** The fallback text of an avatar is never empty and never longer than two
    code units, whatever the name and whatever upper-casing does. *)
Theorem getAvatarFallbackText_one_or_two toUpperCase (name : JsString) :
  (1 ≤ length (getAvatarFallbackText toUpperCase name) ≤ 2)%nat.
Proof.
  unfold getAvatarFallbackText, NA. destruct name as [|c name]; [simpl; lia |].
  set (joined := concat _).
  assert (Hle : (length (take 2 joined) ≤ 2)%nat) by (rewrite length_take; lia).
  destruct (take 2 joined) as [|a l] eqn:E; simpl in *; lia.
Qed.

Example john_doe_is_JD :
  getAvatarFallbackText ascii_upper john_doe = [74; 68]%nat.
Proof. reflexivity. Qed.

Example blank_name_is_NA :
  getAvatarFallbackText ascii_upper two_spaces = NA.
Proof. reflexivity. Qed.

(** Turning an enum value into its label and back gives the enum value
    again, when the value has no whitespace and no two underscores in a row
    and upper-casing leaves its label alone. *)
Theorem formatStatusToEnum_transformStatusEnum toUpperCase is_space (status : JsString) :
  is_space SPACE = true →
  forallb (λ c, negb (is_space c)) status = true →
  single_underscores status = true →
  toUpperCase (transformStatusEnum status) = transformStatusEnum status →
  formatStatusToEnum toUpperCase is_space (transformStatusEnum status) = status.
Proof.
  intros Hsp Hns Hsingle Hup. unfold formatStatusToEnum. rewrite Hup.
  by apply replace_spaces_transform.
Qed.

Lemma formatStatusToEnum_transformStatusEnum_witness :
  formatStatusToEnum ascii_upper ascii_space (transformStatusEnum IN_PROGRESS)
  = IN_PROGRESS.
Proof.
  apply (formatStatusToEnum_transformStatusEnum ascii_upper ascii_space IN_PROGRESS);
    reflexivity.
Defined.

(** Two underscores in a row do not survive the round trip. *)
Example double_underscore_collapses :
  formatStatusToEnum ascii_upper ascii_space (transformStatusEnum [65; 95; 95; 66]%nat)
  = [65; 95; 66]%nat.
Proof. reflexivity. Qed.

End ClientHelpers.
